(** * Energy monitor firmware: classifier, alarm controller, value parser

    A shallow embedding of the parts of the firmware that decide how a
    measurement is classified, when the warning alarm starts and stops,
    how the pulse animation advances, how MQTT payloads become
    measurements and how persisted thresholds are normalised.

    Sources embedded here:
    - [energy_monitor.cpp]           (latest-value store, [energy_monitor_has_warning])
    - [energy_monitor_screen.cpp]    (classifier, alarm controller, pulse driver)
    - [config_manager.cpp]           ([set_energy_defaults], [normalize_energy_thresholds])
    - [mqtt_manager.cpp]             ([parse_float_from_payload], [parse_value_using_path])
    - [web_portal_config.cpp]        (threshold update of the configuration form)

    C [float] is IEEE-754 binary32; it is modelled bit-exactly with the
    specification floats of the core library ([spec_float] at precision 24
    and maximal exponent 128).  Fixed-width integers are [Z] with their
    wrap-around written out. *)

From Stdlib Require Import ZArith Bool List Lia String Ascii.
From Stdlib Require Import Floats.SpecFloat.
Import ListNotations.

Local Open Scope Z_scope.

(* ================================================================== *)
(** ** Fixed-width integers *)

Module Int.

(** Conversion to an unsigned [w]-bit integer (C conversion rule:
    reduction modulo [2^w]). *)
Definition to_unsigned (w : Z) (z : Z) : Z := z mod 2 ^ w.

(** Conversion to a signed [w]-bit integer (two's complement). *)
Definition to_signed (w : Z) (z : Z) : Z :=
  (z + 2 ^ (w - 1)) mod 2 ^ w - 2 ^ (w - 1).

Definition uint8 (z : Z) : Z := to_unsigned 8 z.
Definition uint32 (z : Z) : Z := to_unsigned 32 z.
Definition int32 (z : Z) : Z := to_signed 32 z.

Definition INT32_MIN : Z := - 2 ^ 31.
Definition INT32_MAX : Z := 2 ^ 31 - 1.

Definition is_int32 (z : Z) : Prop := INT32_MIN <= z <= INT32_MAX.

End Int.

(* ================================================================== *)
(** ** IEEE-754 binary32 ([float]) *)

Module Float32.

Definition prec : Z := 24.
Definition emax : Z := 128.

Definition float : Type := spec_float.

Definition NAN : float := S754_nan.

Definition of_Z (z : Z) : float := binary_normalize prec emax z 0 false.

Definition add (x y : float) : float := SFadd prec emax x y.
Definition sub (x y : float) : float := SFsub prec emax x y.
Definition mul (x y : float) : float := SFmul prec emax x y.
Definition div (x y : float) : float := SFdiv prec emax x y.

(** The decimal literal [n / d] rounded to the nearest binary32 value,
    as the compiler does for a literal such as [0.5f] or [3.1f]. *)
Definition of_ratio (n d : Z) : float := div (of_Z n) (of_Z d).

Definition isnan (x : float) : bool :=
  match x with S754_nan => true | _ => false end.

Definition fabsf (x : float) : float := SFabs x.

(** [x >= y], false whenever an operand is NaN. *)
Definition geb (x y : float) : bool :=
  match SFcompare x y with
  | Some Gt | Some Eq => true
  | _ => false
  end.

(** [x > y], false whenever an operand is NaN. *)
Definition gtb (x y : float) : bool :=
  match SFcompare x y with
  | Some Gt => true
  | _ => false
  end.

(** Integer part of the magnitude of a finite float [m * 2^e]. *)
Definition trunc_mag (m : positive) (e : Z) : Z :=
  if 0 <=? e then Z.shiftl (Zpos m) e else Z.shiftr (Zpos m) (- e).

(** The conversion [(int32_t) x]: truncation toward zero.  A value
    outside the range of [int32_t] has no defined result in C++; the
    target's conversion instruction saturates, which is what is
    written here (NaN gives 0). *)
Definition to_int32 (x : float) : Z :=
  match x with
  | S754_zero _ => 0
  | S754_nan => 0
  | S754_infinity s => if s then Int.INT32_MIN else Int.INT32_MAX
  | S754_finite s m e =>
      let t := trunc_mag m e in
      let v := if s then - t else t in
      Z.max Int.INT32_MIN (Z.min Int.INT32_MAX v)
  end.

(** [lroundf x] for a finite [x]: nearest integer, halfway cases away
    from zero.  (Not finite: the result is unspecified; 0 here.) *)
Definition lroundf (x : float) : Z :=
  match x with
  | S754_finite s m e =>
      let r := if 0 <=? e then Z.shiftl (Zpos m) e
               else Z.shiftr (Zpos m + Z.shiftl 1 (- e - 1)) (- e) in
      if s then - r else r
  | _ => 0
  end.

End Float32.

Import Float32.

(** [kw_to_mkw_round]: kW to milli-kW, rounding half away from zero
    (energy_monitor_screen.cpp, also energy_monitor.cpp). *)
Definition kw_to_mkw_round (kw : float) : Z :=
  let scaled := mul kw (of_Z 1000) in
  to_int32 (if geb scaled (of_Z 0) then add scaled (of_ratio 1 2)
            else sub scaled (of_ratio 1 2)).


(* ================================================================== *)
(** ** LVGL colours *)

(** [lv_color_t] with its three 8-bit channels, as [lv_color_make]
    receives them. *)
Record lv_color_t : Type := lv_color_make {
  ch_red : Z;
  ch_green : Z;
  ch_blue : Z
}.

Definition lv_color_white : lv_color_t := lv_color_make 255 255 255.
Definition lv_color_black : lv_color_t := lv_color_make 0 0 0.

(** [lv_color_from_rgb_u32]: unpack [0xRRGGBB]. *)
Definition lv_color_from_rgb_u32 (rgb : Z) : lv_color_t :=
  let rgb := Z.land rgb 16777215 in
  lv_color_make (Int.uint8 (Z.land (Z.shiftr rgb 16) 255))
                (Int.uint8 (Z.land (Z.shiftr rgb 8) 255))
                (Int.uint8 (Z.land rgb 255)).

(* ================================================================== *)
(** ** Configuration (config_manager) *)

(** [EnergyCategoryColorConfig]: four colours ([uint32_t], [0xRRGGBB])
    and the array [threshold_mkw[3]] ([int32_t]). *)
Record EnergyCategoryColorConfig : Type := {
  color_good_rgb : Z;
  color_ok_rgb : Z;
  color_attention_rgb : Z;
  color_warning_rgb : Z;
  threshold_mkw0 : Z;
  threshold_mkw1 : Z;
  threshold_mkw2 : Z
}.

(** The fields of [DeviceConfig] read by the energy monitor. *)
Record DeviceConfig : Type := {
  mqtt_topic_solar : string;
  mqtt_topic_grid : string;
  mqtt_solar_value_path : string;
  mqtt_grid_value_path : string;
  energy_solar_colors : EnergyCategoryColorConfig;
  energy_home_colors : EnergyCategoryColorConfig;
  energy_grid_colors : EnergyCategoryColorConfig;
  energy_alarm_pulse_cycle_ms : Z;        (* uint16_t *)
  energy_alarm_pulse_peak_pct : Z;        (* uint8_t *)
  energy_alarm_clear_delay_ms : Z;        (* uint16_t *)
  energy_alarm_clear_hysteresis_mkw : Z   (* int32_t *)
}.

(** The three thresholds are in non-decreasing order. *)
Definition thresholds_monotone (cfg : EnergyCategoryColorConfig) : Prop :=
  threshold_mkw0 cfg <= threshold_mkw1 cfg /\ threshold_mkw1 cfg <= threshold_mkw2 cfg.

(** [set_energy_defaults]. *)
Definition set_energy_defaults (cfg : EnergyCategoryColorConfig) : EnergyCategoryColorConfig :=
  {| color_good_rgb := 0x00FF00;      (* green *)
     color_ok_rgb := 0xFFFFFF;        (* white *)
     color_attention_rgb := 0xFFA500; (* orange *)
     color_warning_rgb := 0xFF0000;   (* red *)
     threshold_mkw0 := 500;   (* 0.5 kW *)
     threshold_mkw1 := 1500;  (* 1.5 kW *)
     threshold_mkw2 := 3000   (* 3.0 kW *) |}.

(** The three clamps at the head of [normalize_energy_thresholds]:
    a negative threshold becomes 0. *)
Definition clamp_negative_thresholds (cfg : EnergyCategoryColorConfig) : EnergyCategoryColorConfig :=
  {| color_good_rgb := color_good_rgb cfg;
     color_ok_rgb := color_ok_rgb cfg;
     color_attention_rgb := color_attention_rgb cfg;
     color_warning_rgb := color_warning_rgb cfg;
     threshold_mkw0 := if threshold_mkw0 cfg <? 0 then 0 else threshold_mkw0 cfg;
     threshold_mkw1 := if threshold_mkw1 cfg <? 0 then 0 else threshold_mkw1 cfg;
     threshold_mkw2 := if threshold_mkw2 cfg <? 0 then 0 else threshold_mkw2 cfg |}.

(** [normalize_energy_thresholds]: clamp, then require monotone order and
    reset to the defaults otherwise. *)
Definition normalize_energy_thresholds (cfg : EnergyCategoryColorConfig) : EnergyCategoryColorConfig :=
  let cfg := clamp_negative_thresholds cfg in
  if (threshold_mkw0 cfg >? threshold_mkw1 cfg) || (threshold_mkw1 cfg >? threshold_mkw2 cfg)
  then set_energy_defaults cfg
  else cfg.

(** What [config_manager_load] does for one category once the magic
    number matched: defaults first, then each persisted value where the
    key exists ([getUInt]/[getInt] return the default passed otherwise),
    colours masked to 24 bits, then [normalize_energy_thresholds]. *)
Record PersistedCategory : Type := {
  nvs_color_good : option Z;
  nvs_color_ok : option Z;
  nvs_color_attention : option Z;
  nvs_color_warning : option Z;
  nvs_t0 : option Z;
  nvs_t1 : option Z;
  nvs_t2 : option Z
}.

Definition get_or (v : option Z) (dflt : Z) : Z :=
  match v with Some x => x | None => dflt end.

Definition load_category (nvs : PersistedCategory) (cfg : EnergyCategoryColorConfig)
  : EnergyCategoryColorConfig :=
  let d := set_energy_defaults cfg in
  normalize_energy_thresholds
    {| color_good_rgb := Z.land (get_or (nvs_color_good nvs) (color_good_rgb d)) 0xFFFFFF;
       color_ok_rgb := Z.land (get_or (nvs_color_ok nvs) (color_ok_rgb d)) 0xFFFFFF;
       color_attention_rgb := Z.land (get_or (nvs_color_attention nvs) (color_attention_rgb d)) 0xFFFFFF;
       color_warning_rgb := Z.land (get_or (nvs_color_warning nvs) (color_warning_rgb d)) 0xFFFFFF;
       threshold_mkw0 := get_or (nvs_t0 nvs) (threshold_mkw0 d);
       threshold_mkw1 := get_or (nvs_t1 nvs) (threshold_mkw1 d);
       threshold_mkw2 := get_or (nvs_t2 nvs) (threshold_mkw2 d) |}.

(* ------------------------------------------------------------------ *)
(** *** The configuration form (web_portal_config.cpp) *)

(** [kw_to_mkw] of the portal: negative or NaN gives 0, values above
    100 kW are clamped, then [lroundf]. *)
Definition kw_to_mkw (kw : float) : Z :=
  if negb (geb kw (of_Z 0)) then 0
  else
    let kw := if gtb kw (of_Z 100) then of_Z 100 else kw in
    Int.int32 (lroundf (mul kw (of_Z 1000))).

(** The fields of one category of a posted form, after JSON decoding:
    a colour that parsed, a threshold in kW that is present. *)
Record CategoryForm : Type := {
  form_color_good : option Z;
  form_color_ok : option Z;
  form_color_attention : option Z;
  form_color_warning : option Z;
  form_threshold_0_kw : option float;
  form_threshold_1_kw : option float;
  form_threshold_2_kw : option float
}.

Definition read_threshold_kw (field : option float) (current : Z) : Z :=
  match field with Some v => kw_to_mkw v | None => current end.

Definition is_some {A : Type} (o : option A) : bool :=
  match o with Some _ => true | None => false end.

(** The lambda [update_category]: colours are stored as they come;
    thresholds are stored only when the resulting triple is in order.
    The boolean is the lambda's result ([false]: the request is
    rejected with status 400). *)
Definition update_category (form : CategoryForm) (cfg : EnergyCategoryColorConfig)
  : bool * EnergyCategoryColorConfig :=
  let cfg :=
    {| color_good_rgb := get_or (form_color_good form) (color_good_rgb cfg);
       color_ok_rgb := get_or (form_color_ok form) (color_ok_rgb cfg);
       color_attention_rgb := get_or (form_color_attention form) (color_attention_rgb cfg);
       color_warning_rgb := get_or (form_color_warning form) (color_warning_rgb cfg);
       threshold_mkw0 := threshold_mkw0 cfg;
       threshold_mkw1 := threshold_mkw1 cfg;
       threshold_mkw2 := threshold_mkw2 cfg |} in
  let any_threshold :=
    is_some (form_threshold_0_kw form) || is_some (form_threshold_1_kw form)
    || is_some (form_threshold_2_kw form) in
  let t0 := read_threshold_kw (form_threshold_0_kw form) (threshold_mkw0 cfg) in
  let t1 := read_threshold_kw (form_threshold_1_kw form) (threshold_mkw1 cfg) in
  let t2 := read_threshold_kw (form_threshold_2_kw form) (threshold_mkw2 cfg) in
  if any_threshold then
    if (t0 >? t1) || (t1 >? t2) then (false, cfg)
    else
      (true,
       {| color_good_rgb := color_good_rgb cfg;
          color_ok_rgb := color_ok_rgb cfg;
          color_attention_rgb := color_attention_rgb cfg;
          color_warning_rgb := color_warning_rgb cfg;
          threshold_mkw0 := t0;
          threshold_mkw1 := t1;
          threshold_mkw2 := t2 |})
  else (true, cfg).

(* ================================================================== *)
(** ** Severity classifier (energy_monitor_screen.cpp) *)

(** The value the comparisons are made on: the magnitude for solar and
    home ([use_abs]), the signed value for grid. *)
Definition measured_kw (kw : float) (use_abs : bool) : float :=
  if use_abs then fabsf kw else kw.

(** [is_triggered_t2]; a null [cfg] is [None]. *)
Definition is_triggered_t2 (cfg : option EnergyCategoryColorConfig) (kw : float) (use_abs : bool)
  : bool :=
  match cfg with
  | None => false
  | Some cfg =>
      if isnan kw then false
      else
        let v_kw := if use_abs then fabsf kw else kw in
        let mkw := kw_to_mkw_round v_kw in
        mkw >=? threshold_mkw2 cfg
  end.

(** [is_cleared_t2]. *)
Definition is_cleared_t2 (cfg : option EnergyCategoryColorConfig) (kw : float) (use_abs : bool)
  (clear_hysteresis_mkw : Z) : bool :=
  match cfg with
  | None => true
  | Some cfg =>
      if isnan kw then true
      else
        let v_kw := if use_abs then fabsf kw else kw in
        let mkw := kw_to_mkw_round v_kw in
        let clear_threshold := Int.int32 (threshold_mkw2 cfg - clear_hysteresis_mkw) in
        let clear_threshold :=
          if use_abs && (clear_threshold <? 0) then 0 else clear_threshold in
        mkw <? clear_threshold
  end.

(** [pick_category_color]; the rounding is written out in the source
    exactly as in [kw_to_mkw_round]. *)
Definition pick_category_color (cfg : option EnergyCategoryColorConfig) (kw : float)
  (use_abs : bool) : lv_color_t :=
  match cfg with
  | None => lv_color_white
  | Some cfg =>
      if isnan kw then lv_color_white
      else
        let v_kw := if use_abs then fabsf kw else kw in
        let scaled := mul v_kw (of_Z 1000) in
        let mkw := to_int32 (if geb scaled (of_Z 0) then add scaled (of_ratio 1 2)
                             else sub scaled (of_ratio 1 2)) in
        let t0 := threshold_mkw0 cfg in
        let t1 := threshold_mkw1 cfg in
        let t2 := threshold_mkw2 cfg in
        let rgb :=
          if mkw <? t0 then color_good_rgb cfg
          else if mkw <? t1 then color_ok_rgb cfg
          else if mkw <? t2 then color_attention_rgb cfg
          else color_warning_rgb cfg in
        lv_color_from_rgb_u32 rgb
  end.

(** The four severity tiers, and the colour the configuration gives
    each of them. *)
Inductive Tier : Type := Good | Ok | Attention | Warning.

Definition tier_rgb (cfg : EnergyCategoryColorConfig) (t : Tier) : Z :=
  match t with
  | Good => color_good_rgb cfg
  | Ok => color_ok_rgb cfg
  | Attention => color_attention_rgb cfg
  | Warning => color_warning_rgb cfg
  end.

(** The branch of the comparison chain of [pick_category_color] that a
    milli-unit value takes. *)
Definition tier_of_mkw (cfg : EnergyCategoryColorConfig) (mkw : Z) : Tier :=
  if mkw <? threshold_mkw0 cfg then Good
  else if mkw <? threshold_mkw1 cfg then Ok
  else if mkw <? threshold_mkw2 cfg then Attention
  else Warning.

(* ================================================================== *)
(** ** Latest-value store (energy_monitor.cpp) *)

Record EnergyMonitorState : Type := {
  solar_value : float;
  grid_value : float;
  solar_updated : bool;
  grid_updated : bool;
  solar_update_ms : Z;
  grid_update_ms : Z
}.

(** [energy_monitor_init]; the store is the static [s_state], threaded
    explicitly here.  Each function runs inside one critical section. *)
Definition energy_monitor_init : EnergyMonitorState :=
  {| solar_value := NAN; grid_value := NAN;
     solar_updated := false; grid_updated := false;
     solar_update_ms := 0; grid_update_ms := 0 |}.

Definition energy_monitor_set_solar (value : float) (now_ms : Z) (s_state : EnergyMonitorState)
  : EnergyMonitorState :=
  {| solar_value := value; grid_value := grid_value s_state;
     solar_updated := true; grid_updated := grid_updated s_state;
     solar_update_ms := now_ms; grid_update_ms := grid_update_ms s_state |}.

Definition energy_monitor_set_grid (value : float) (now_ms : Z) (s_state : EnergyMonitorState)
  : EnergyMonitorState :=
  {| solar_value := solar_value s_state; grid_value := value;
     solar_updated := solar_updated s_state; grid_updated := true;
     solar_update_ms := solar_update_ms s_state; grid_update_ms := now_ms |}.

(** [energy_monitor_get_state]: the copy returned and the store left. *)
Definition energy_monitor_get_state (clear_updates : bool) (s_state : EnergyMonitorState)
  : EnergyMonitorState * EnergyMonitorState :=
  (s_state,
   if clear_updates then
     {| solar_value := solar_value s_state; grid_value := grid_value s_state;
        solar_updated := false; grid_updated := false;
        solar_update_ms := solar_update_ms s_state;
        grid_update_ms := grid_update_ms s_state |}
   else s_state).

(** The derived home value, computed the same way in
    [energy_monitor_has_warning] and in [EnergyMonitorScreen::update]:
    [home_kw] starts as NAN and becomes [solar_kw + grid_kw] only when
    neither input is NaN. *)
Definition home_kw_of (solar_kw grid_kw : float) : float :=
  if negb (isnan solar_kw) && negb (isnan grid_kw) then add solar_kw grid_kw
  else NAN.

(** [energy_monitor_has_warning]. *)
Definition energy_monitor_has_warning (config : option DeviceConfig) (s_state : EnergyMonitorState)
  : bool :=
  match config with
  | None => false
  | Some config =>
      let st := fst (energy_monitor_get_state false s_state) in
      let solar_kw := solar_value st in
      let grid_kw := grid_value st in
      let home_kw := home_kw_of solar_kw grid_kw in
      if is_triggered_t2 (Some (energy_solar_colors config)) solar_kw true then true
      else if is_triggered_t2 (Some (energy_home_colors config)) home_kw true then true
      else if is_triggered_t2 (Some (energy_grid_colors config)) grid_kw false then true
      else false
  end.

(* ================================================================== *)
(** ** The energy monitor screen: alarm controller and pulse driver *)

Inductive AlarmState : Type := Off | Active | Exiting.

(** The LVGL timer that drives the animation: its period and whether it
    is paused. *)
Record lv_timer_t : Type := {
  period : Z;
  paused : bool
}.

Definition lv_timer_pause (t : lv_timer_t) : lv_timer_t :=
  {| period := period t; paused := true |}.

Definition lv_timer_resume (t : lv_timer_t) : lv_timer_t :=
  {| period := period t; paused := false |}.

(** The members of [EnergyMonitorScreen] that the controller reads or
    writes.  The widgets themselves (labels, bars, icons) only receive
    the colours computed here and are left out. *)
Record EnergyMonitorScreen : Type := {
  screen : bool;   (* the LVGL screen object exists (pointer not null) *)
  background : bool;   (* the background object exists *)
  lastRenderMs : Z;   (* uint32_t *)
  alarmState : AlarmState;
  alarmTimer : option lv_timer_t;   (* null: None *)
  alarmPhase : Z;   (* uint8_t, 0..255 *)
  alarmDir : Z;   (* int8_t: +1 ramps up, -1 ramps down *)
  alarmSolar : bool;
  alarmHome : bool;
  alarmGrid : bool;
  alarmPeakColor : lv_color_t;
  alarmClearStartMs : Z;   (* uint32_t; 0: no clear delay running *)
  intendedSolarColor : lv_color_t;
  intendedHomeColor : lv_color_t;
  intendedGridColor : lv_color_t
}.

(** Assignment to one member. *)
Definition set_screen (v : bool) (s : EnergyMonitorScreen)
  : EnergyMonitorScreen :=
  {| screen := v; background := background s; lastRenderMs := lastRenderMs s;
     alarmState := alarmState s; alarmTimer := alarmTimer s;
     alarmPhase := alarmPhase s; alarmDir := alarmDir s; alarmSolar := alarmSolar s;
     alarmHome := alarmHome s; alarmGrid := alarmGrid s;
     alarmPeakColor := alarmPeakColor s; alarmClearStartMs := alarmClearStartMs s;
     intendedSolarColor := intendedSolarColor s;
     intendedHomeColor := intendedHomeColor s;
     intendedGridColor := intendedGridColor s |}.

Definition set_background (v : bool) (s : EnergyMonitorScreen)
  : EnergyMonitorScreen :=
  {| screen := screen s; background := v; lastRenderMs := lastRenderMs s;
     alarmState := alarmState s; alarmTimer := alarmTimer s;
     alarmPhase := alarmPhase s; alarmDir := alarmDir s; alarmSolar := alarmSolar s;
     alarmHome := alarmHome s; alarmGrid := alarmGrid s;
     alarmPeakColor := alarmPeakColor s; alarmClearStartMs := alarmClearStartMs s;
     intendedSolarColor := intendedSolarColor s;
     intendedHomeColor := intendedHomeColor s;
     intendedGridColor := intendedGridColor s |}.

Definition set_lastRenderMs (v : Z) (s : EnergyMonitorScreen)
  : EnergyMonitorScreen :=
  {| screen := screen s; background := background s; lastRenderMs := v;
     alarmState := alarmState s; alarmTimer := alarmTimer s;
     alarmPhase := alarmPhase s; alarmDir := alarmDir s; alarmSolar := alarmSolar s;
     alarmHome := alarmHome s; alarmGrid := alarmGrid s;
     alarmPeakColor := alarmPeakColor s; alarmClearStartMs := alarmClearStartMs s;
     intendedSolarColor := intendedSolarColor s;
     intendedHomeColor := intendedHomeColor s;
     intendedGridColor := intendedGridColor s |}.

Definition set_alarmState (v : AlarmState) (s : EnergyMonitorScreen)
  : EnergyMonitorScreen :=
  {| screen := screen s; background := background s; lastRenderMs := lastRenderMs s;
     alarmState := v; alarmTimer := alarmTimer s; alarmPhase := alarmPhase s;
     alarmDir := alarmDir s; alarmSolar := alarmSolar s; alarmHome := alarmHome s;
     alarmGrid := alarmGrid s; alarmPeakColor := alarmPeakColor s;
     alarmClearStartMs := alarmClearStartMs s;
     intendedSolarColor := intendedSolarColor s;
     intendedHomeColor := intendedHomeColor s;
     intendedGridColor := intendedGridColor s |}.

Definition set_alarmTimer (v : option lv_timer_t) (s : EnergyMonitorScreen)
  : EnergyMonitorScreen :=
  {| screen := screen s; background := background s; lastRenderMs := lastRenderMs s;
     alarmState := alarmState s; alarmTimer := v; alarmPhase := alarmPhase s;
     alarmDir := alarmDir s; alarmSolar := alarmSolar s; alarmHome := alarmHome s;
     alarmGrid := alarmGrid s; alarmPeakColor := alarmPeakColor s;
     alarmClearStartMs := alarmClearStartMs s;
     intendedSolarColor := intendedSolarColor s;
     intendedHomeColor := intendedHomeColor s;
     intendedGridColor := intendedGridColor s |}.

Definition set_alarmPhase (v : Z) (s : EnergyMonitorScreen)
  : EnergyMonitorScreen :=
  {| screen := screen s; background := background s; lastRenderMs := lastRenderMs s;
     alarmState := alarmState s; alarmTimer := alarmTimer s; alarmPhase := v;
     alarmDir := alarmDir s; alarmSolar := alarmSolar s; alarmHome := alarmHome s;
     alarmGrid := alarmGrid s; alarmPeakColor := alarmPeakColor s;
     alarmClearStartMs := alarmClearStartMs s;
     intendedSolarColor := intendedSolarColor s;
     intendedHomeColor := intendedHomeColor s;
     intendedGridColor := intendedGridColor s |}.

Definition set_alarmDir (v : Z) (s : EnergyMonitorScreen)
  : EnergyMonitorScreen :=
  {| screen := screen s; background := background s; lastRenderMs := lastRenderMs s;
     alarmState := alarmState s; alarmTimer := alarmTimer s;
     alarmPhase := alarmPhase s; alarmDir := v; alarmSolar := alarmSolar s;
     alarmHome := alarmHome s; alarmGrid := alarmGrid s;
     alarmPeakColor := alarmPeakColor s; alarmClearStartMs := alarmClearStartMs s;
     intendedSolarColor := intendedSolarColor s;
     intendedHomeColor := intendedHomeColor s;
     intendedGridColor := intendedGridColor s |}.

Definition set_alarmSolar (v : bool) (s : EnergyMonitorScreen)
  : EnergyMonitorScreen :=
  {| screen := screen s; background := background s; lastRenderMs := lastRenderMs s;
     alarmState := alarmState s; alarmTimer := alarmTimer s;
     alarmPhase := alarmPhase s; alarmDir := alarmDir s; alarmSolar := v;
     alarmHome := alarmHome s; alarmGrid := alarmGrid s;
     alarmPeakColor := alarmPeakColor s; alarmClearStartMs := alarmClearStartMs s;
     intendedSolarColor := intendedSolarColor s;
     intendedHomeColor := intendedHomeColor s;
     intendedGridColor := intendedGridColor s |}.

Definition set_alarmHome (v : bool) (s : EnergyMonitorScreen)
  : EnergyMonitorScreen :=
  {| screen := screen s; background := background s; lastRenderMs := lastRenderMs s;
     alarmState := alarmState s; alarmTimer := alarmTimer s;
     alarmPhase := alarmPhase s; alarmDir := alarmDir s; alarmSolar := alarmSolar s;
     alarmHome := v; alarmGrid := alarmGrid s; alarmPeakColor := alarmPeakColor s;
     alarmClearStartMs := alarmClearStartMs s;
     intendedSolarColor := intendedSolarColor s;
     intendedHomeColor := intendedHomeColor s;
     intendedGridColor := intendedGridColor s |}.

Definition set_alarmGrid (v : bool) (s : EnergyMonitorScreen)
  : EnergyMonitorScreen :=
  {| screen := screen s; background := background s; lastRenderMs := lastRenderMs s;
     alarmState := alarmState s; alarmTimer := alarmTimer s;
     alarmPhase := alarmPhase s; alarmDir := alarmDir s; alarmSolar := alarmSolar s;
     alarmHome := alarmHome s; alarmGrid := v; alarmPeakColor := alarmPeakColor s;
     alarmClearStartMs := alarmClearStartMs s;
     intendedSolarColor := intendedSolarColor s;
     intendedHomeColor := intendedHomeColor s;
     intendedGridColor := intendedGridColor s |}.

Definition set_alarmPeakColor (v : lv_color_t) (s : EnergyMonitorScreen)
  : EnergyMonitorScreen :=
  {| screen := screen s; background := background s; lastRenderMs := lastRenderMs s;
     alarmState := alarmState s; alarmTimer := alarmTimer s;
     alarmPhase := alarmPhase s; alarmDir := alarmDir s; alarmSolar := alarmSolar s;
     alarmHome := alarmHome s; alarmGrid := alarmGrid s; alarmPeakColor := v;
     alarmClearStartMs := alarmClearStartMs s;
     intendedSolarColor := intendedSolarColor s;
     intendedHomeColor := intendedHomeColor s;
     intendedGridColor := intendedGridColor s |}.

Definition set_alarmClearStartMs (v : Z) (s : EnergyMonitorScreen)
  : EnergyMonitorScreen :=
  {| screen := screen s; background := background s; lastRenderMs := lastRenderMs s;
     alarmState := alarmState s; alarmTimer := alarmTimer s;
     alarmPhase := alarmPhase s; alarmDir := alarmDir s; alarmSolar := alarmSolar s;
     alarmHome := alarmHome s; alarmGrid := alarmGrid s;
     alarmPeakColor := alarmPeakColor s; alarmClearStartMs := v;
     intendedSolarColor := intendedSolarColor s;
     intendedHomeColor := intendedHomeColor s;
     intendedGridColor := intendedGridColor s |}.

Definition set_intendedSolarColor (v : lv_color_t) (s : EnergyMonitorScreen)
  : EnergyMonitorScreen :=
  {| screen := screen s; background := background s; lastRenderMs := lastRenderMs s;
     alarmState := alarmState s; alarmTimer := alarmTimer s;
     alarmPhase := alarmPhase s; alarmDir := alarmDir s; alarmSolar := alarmSolar s;
     alarmHome := alarmHome s; alarmGrid := alarmGrid s;
     alarmPeakColor := alarmPeakColor s; alarmClearStartMs := alarmClearStartMs s;
     intendedSolarColor := v; intendedHomeColor := intendedHomeColor s;
     intendedGridColor := intendedGridColor s |}.

Definition set_intendedHomeColor (v : lv_color_t) (s : EnergyMonitorScreen)
  : EnergyMonitorScreen :=
  {| screen := screen s; background := background s; lastRenderMs := lastRenderMs s;
     alarmState := alarmState s; alarmTimer := alarmTimer s;
     alarmPhase := alarmPhase s; alarmDir := alarmDir s; alarmSolar := alarmSolar s;
     alarmHome := alarmHome s; alarmGrid := alarmGrid s;
     alarmPeakColor := alarmPeakColor s; alarmClearStartMs := alarmClearStartMs s;
     intendedSolarColor := intendedSolarColor s; intendedHomeColor := v;
     intendedGridColor := intendedGridColor s |}.

Definition set_intendedGridColor (v : lv_color_t) (s : EnergyMonitorScreen)
  : EnergyMonitorScreen :=
  {| screen := screen s; background := background s; lastRenderMs := lastRenderMs s;
     alarmState := alarmState s; alarmTimer := alarmTimer s;
     alarmPhase := alarmPhase s; alarmDir := alarmDir s; alarmSolar := alarmSolar s;
     alarmHome := alarmHome s; alarmGrid := alarmGrid s;
     alarmPeakColor := alarmPeakColor s; alarmClearStartMs := alarmClearStartMs s;
     intendedSolarColor := intendedSolarColor s;
     intendedHomeColor := intendedHomeColor s; intendedGridColor := v |}.


Definition alarm_default_peak_color : lv_color_t := lv_color_make 255 0 0.

(** The object as constructed (member initialisers of the class; the
    peak colour and the clear-delay start as [destroy] resets them). *)
Definition initial_screen : EnergyMonitorScreen :=
  {| screen := false; background := false; lastRenderMs := 0;
     alarmState := Off; alarmTimer := None; alarmPhase := 0; alarmDir := 1;
     alarmSolar := false; alarmHome := false; alarmGrid := false;
     alarmPeakColor := alarm_default_peak_color; alarmClearStartMs := 0;
     intendedSolarColor := lv_color_white; intendedHomeColor := lv_color_white;
     intendedGridColor := lv_color_white |}.

(** [create]: builds the widgets and, if there is none yet, the paused
    40 ms animation timer. *)
Definition create (s : EnergyMonitorScreen) : EnergyMonitorScreen :=
  if screen s then s
  else
    let s := set_screen true s in
    let s := set_background true s in
    match alarmTimer s with
    | None => set_alarmTimer (Some (lv_timer_pause {| period := 40; paused := false |})) s
    | Some _ => s
    end.

(** [destroy]. *)
Definition destroy (s : EnergyMonitorScreen) : EnergyMonitorScreen :=
  if screen s then
    let s := set_alarmTimer None s in
    let s := set_alarmState Off s in
    let s := set_alarmPhase 0 s in
    let s := set_alarmDir 1 s in
    let s := set_alarmPeakColor alarm_default_peak_color s in
    let s := set_alarmClearStartMs 0 s in
    let s := set_screen false s in
    set_background false s
  else s.

(** [if (alarmTimer) lv_timer_resume(alarmTimer);] *)
Definition resume_alarm_timer (s : EnergyMonitorScreen) : EnergyMonitorScreen :=
  set_alarmTimer (option_map lv_timer_resume (alarmTimer s)) s.

(** [if (alarmTimer) lv_timer_pause(alarmTimer);] *)
Definition pause_alarm_timer (s : EnergyMonitorScreen) : EnergyMonitorScreen :=
  set_alarmTimer (option_map lv_timer_pause (alarmTimer s)) s.

(** The cycle period the pulse driver uses: the configured one (2000
    without a configuration) clamped to 200..10000 ms. *)
Definition pulse_cycle_ms (config : option DeviceConfig) : Z :=
  let cycle_ms := match config with
                  | Some c => energy_alarm_pulse_cycle_ms c
                  | None => 2000
                  end in
  let cycle_ms := if cycle_ms <? 200 then 200 else cycle_ms in
  if cycle_ms >? 10000 then 10000 else cycle_ms.

(** [step_active] of [alarmTick]: [(uint8_t) lroundf(510 * tick / cycle)]
    computed in [float], at least 1. *)
Definition pulse_step_active (tick_ms cycle_ms : Z) : Z :=
  let step_f := div (mul (mul (of_Z 255) (of_Z 2)) (of_Z tick_ms)) (of_Z cycle_ms) in
  let step_active := Int.uint8 (lroundf step_f) in
  if step_active <? 1 then 1 else step_active.

(** [step_exit] of [alarmTick]: about 1.5 times [step_active], in
    [uint8_t], never below [step_active]. *)
Definition pulse_step_exit (step_active : Z) : Z :=
  let step_exit := Int.uint8 (step_active + step_active / 2) in
  if step_exit <? step_active then step_active else step_exit.

(** [alarmTick]: one tick of the animation timer. *)
Definition alarmTick (config : option DeviceConfig) (s : EnergyMonitorScreen)
  : EnergyMonitorScreen :=
  if negb (screen s) || negb (background s) then s
  else
    match alarmState s with
    | Off => s
    | _ =>
        let tick_ms := match alarmTimer s with
                       | Some t => period t
                       | None => 40
                       end in
        let cycle_ms := pulse_cycle_ms config in
        let step_active := pulse_step_active tick_ms cycle_ms in
        let step_exit := pulse_step_exit step_active in
        let step := match alarmState s with
                    | Exiting => step_exit
                    | _ => step_active
                    end in
        let next := alarmPhase s + alarmDir s * step in
        if next >=? 255 then
          set_alarmPhase (Int.uint8 255) (set_alarmDir (-1) s)
        else if next <=? 0 then
          match alarmState s with
          | Exiting =>
              (* reached dark while exiting: stop the alarm *)
              let s := set_alarmState Off s in
              let s := set_alarmPhase 0 s in
              let s := set_alarmPeakColor alarm_default_peak_color s in
              let s := set_alarmClearStartMs 0 s in
              pause_alarm_timer s
          | _ => set_alarmPhase (Int.uint8 0) (set_alarmDir 1 s)
          end
        else set_alarmPhase (Int.uint8 next) s
    end.

(** The latch of the peak colour made by [update] when the alarm starts
    from [Off]: the warning colour of the first category that became
    alarmed on this tick (solar, home, grid), else of the first category
    that is alarmed. *)
Definition latch_peak_color (config : option DeviceConfig)
  (prevSolarAlarm prevHomeAlarm prevGridAlarm : bool) (s : EnergyMonitorScreen)
  : EnergyMonitorScreen :=
  match config with
  | None => s
  | Some c =>
      if alarmSolar s && negb prevSolarAlarm then
        set_alarmPeakColor (lv_color_from_rgb_u32 (color_warning_rgb (energy_solar_colors c))) s
      else if alarmHome s && negb prevHomeAlarm then
        set_alarmPeakColor (lv_color_from_rgb_u32 (color_warning_rgb (energy_home_colors c))) s
      else if alarmGrid s && negb prevGridAlarm then
        set_alarmPeakColor (lv_color_from_rgb_u32 (color_warning_rgb (energy_grid_colors c))) s
      else if alarmSolar s then
        set_alarmPeakColor (lv_color_from_rgb_u32 (color_warning_rgb (energy_solar_colors c))) s
      else if alarmHome s then
        set_alarmPeakColor (lv_color_from_rgb_u32 (color_warning_rgb (energy_home_colors c))) s
      else if alarmGrid s then
        set_alarmPeakColor (lv_color_from_rgb_u32 (color_warning_rgb (energy_grid_colors c))) s
      else s
  end.

(** [clear_hyst] of [update]: the configured hysteresis (100 without a
    configuration), a negative one counted as 0. *)
Definition clear_hyst_of (config : option DeviceConfig) : Z :=
  let clear_hyst := match config with
                    | Some c => energy_alarm_clear_hysteresis_mkw c
                    | None => 100
                    end in
  if clear_hyst <? 0 then 0 else clear_hyst.

(** [clear_delay] of [update]: the configured delay (800 without a
    configuration), at most 60000 ms. *)
Definition clear_delay_of (config : option DeviceConfig) : Z :=
  let clear_delay := match config with
                     | Some c => energy_alarm_clear_delay_ms c
                     | None => 800
                     end in
  if clear_delay >? 60000 then 60000 else clear_delay.

(** First part of a refresh in [update] (from [lastRenderMs = now] to
    the three assignments of the alarm flags): the derived home value,
    the intended colours and the per-category flags with hysteresis. *)
Definition update_flags (config : option DeviceConfig) (now : Z)
  (solar_kw grid_kw : float) (s : EnergyMonitorScreen) : EnergyMonitorScreen :=
  let s := set_lastRenderMs now s in
  let home_kw := home_kw_of solar_kw grid_kw in
  let solar_cfg := option_map energy_solar_colors config in
  let home_cfg := option_map energy_home_colors config in
  let grid_cfg := option_map energy_grid_colors config in
  let s := set_intendedSolarColor (pick_category_color solar_cfg solar_kw true) s in
  let s := set_intendedHomeColor (pick_category_color home_cfg home_kw true) s in
  let s := set_intendedGridColor (pick_category_color grid_cfg grid_kw false) s in
  let prevSolarAlarm := alarmSolar s in
  let prevHomeAlarm := alarmHome s in
  let prevGridAlarm := alarmGrid s in
  let clear_hyst := clear_hyst_of config in
  let s := set_alarmSolar
             (if prevSolarAlarm then negb (is_cleared_t2 solar_cfg solar_kw true clear_hyst)
              else is_triggered_t2 solar_cfg solar_kw true) s in
  let s := set_alarmHome
             (if prevHomeAlarm then negb (is_cleared_t2 home_cfg home_kw true clear_hyst)
              else is_triggered_t2 home_cfg home_kw true) s in
  set_alarmGrid
    (if prevGridAlarm then negb (is_cleared_t2 grid_cfg grid_kw false clear_hyst)
     else is_triggered_t2 grid_cfg grid_kw false) s.

(** [alarmWanted] of [update]. *)
Definition alarm_wanted (s : EnergyMonitorScreen) : bool :=
  alarmSolar s || alarmHome s || alarmGrid s.

(** Second part of a refresh in [update]: the transitions of the alarm
    state, given the flags just computed (in [s]) and the flags of the
    previous tick. *)
Definition update_alarm_state (config : option DeviceConfig) (now : Z)
  (prevSolarAlarm prevHomeAlarm prevGridAlarm : bool) (s : EnergyMonitorScreen)
  : EnergyMonitorScreen :=
  let alarmWanted := alarm_wanted s in
  if alarmWanted then
    let s := set_alarmClearStartMs 0 s in
    match alarmState s with
    | Active => s
    | st =>
        let s := match st with
                 | Off => latch_peak_color config prevSolarAlarm prevHomeAlarm prevGridAlarm s
                 | _ => s
                 end in
        let s := set_alarmState Active s in
        let s := set_alarmDir 1 s in
        resume_alarm_timer s
    end
  else
    match alarmState s with
    | Active =>
        let clear_delay := clear_delay_of config in
        if clear_delay =? 0 then
          let s := set_alarmState Exiting s in
          let s := set_alarmDir (-1) s in
          let s := set_alarmClearStartMs 0 s in
          resume_alarm_timer s
        else
          let s := if alarmClearStartMs s =? 0 then set_alarmClearStartMs now s else s in
          if Int.uint32 (now - alarmClearStartMs s) >=? clear_delay then
            let s := set_alarmState Exiting s in
            let s := set_alarmDir (-1) s in
            let s := set_alarmClearStartMs 0 s in
            resume_alarm_timer s
          else s
    | _ => s
    end.

(** A refresh of [update], from [lastRenderMs = now] on.  (The calls
    that restyle the widgets, and the arrows and bars, follow in the
    source and change nothing modelled here.) *)
Definition update_refresh (config : option DeviceConfig) (now : Z)
  (solar_kw grid_kw : float) (s : EnergyMonitorScreen) : EnergyMonitorScreen :=
  update_alarm_state config now (alarmSolar s) (alarmHome s) (alarmGrid s)
    (update_flags config now solar_kw grid_kw s).

(** Whether a call of [update] refreshes: the screen exists, and a
    value arrived since the last call or no refresh happened yet or the
    last one is at least 500 ms old. *)
Definition refresh_due (now : Z) (s_state : EnergyMonitorState) (s : EnergyMonitorScreen)
  : bool :=
  screen s
  && (solar_updated s_state || grid_updated s_state
      || (lastRenderMs s =? 0) || (500 <=? Int.uint32 (now - lastRenderMs s))).

(** [update]: reads the store (clearing the update flags) and refreshes
    when a value arrived, or when 500 ms passed since the last refresh. *)
Definition update (config : option DeviceConfig) (now : Z) (s_state : EnergyMonitorState)
  (s : EnergyMonitorScreen) : EnergyMonitorScreen * EnergyMonitorState :=
  if negb (screen s) then (s, s_state)
  else
    let kFallbackRefreshMs := 500 in
    let '(st, s_state) := energy_monitor_get_state true s_state in
    let shouldRefresh := solar_updated st || grid_updated st in
    if negb shouldRefresh
       && (negb (lastRenderMs s =? 0) && (Int.uint32 (now - lastRenderMs s) <? kFallbackRefreshMs))
    then (s, s_state)
    else (update_refresh config now (solar_value st) (grid_value st) s, s_state).

(* ================================================================== *)
(** ** Value parser (mqtt_manager.cpp) *)

(** The document tree that ArduinoJson builds.  Numbers are kept as the
    library classifies them: integers, and floating-point values (held
    here as the [float] that [as<float>()] returns). *)
#[warnings="-register-all"]
Inductive JsonVariant : Type :=
| JNull
| JBool (b : bool)
| JInteger (z : Z)
| JFloat (f : float)
| JString (str : string)
| JArray (items : list JsonVariant)
| JObject (members : list (string * JsonVariant)).

(** First member of an object with the given key (keys are compared as
    C strings, byte for byte). *)
Fixpoint find_member (key : string) (members : list (string * JsonVariant))
  : option JsonVariant :=
  match members with
  | [] => None
  | (k, v) :: rest => if String.eqb k key then Some v else find_member key rest
  end.

(** [doc[key]] on the root: the member when the root is an object that
    has one, unbound otherwise. *)
Definition json_get (doc : JsonVariant) (key : string) : option JsonVariant :=
  match doc with
  | JObject members => find_member key members
  | _ => None
  end.

(** [doc.containsKey(key)]. *)
Definition containsKey (doc : JsonVariant) (key : string) : bool :=
  is_some (json_get doc key).

(** [v.is<float>()]: any number. *)
Definition is_float (v : JsonVariant) : bool :=
  match v with
  | JInteger _ | JFloat _ => true
  | _ => false
  end.

(** [v.is<double>()]: any number. *)
Definition is_double (v : JsonVariant) : bool := is_float v.

(** [v.is<int>()]: an integer that fits [int] (32 bits). *)
Definition is_int (v : JsonVariant) : bool :=
  match v with
  | JInteger z => (Int.INT32_MIN <=? z) && (z <=? Int.INT32_MAX)
  | _ => false
  end.

(** [v.is<long>()]: [long] has 32 bits on the target. *)
Definition is_long (v : JsonVariant) : bool := is_int v.

(** [v.as<float>()]: the number converted to [float], 0 for anything
    that is not a number. *)
Definition as_float (v : JsonVariant) : float :=
  match v with
  | JInteger z => of_Z z
  | JFloat f => f
  | _ => of_Z 0
  end.

(** The value is a JSON number. *)
Definition json_is_numeric (v : JsonVariant) : Prop :=
  (exists z, v = JInteger z) \/ (exists f, v = JFloat f).

Definition byte_val (c : Byte.byte) : Z := Z.of_N (Byte.to_N c).

(** [isspace] in the C locale. *)
Definition isspace (c : Byte.byte) : bool :=
  let n := byte_val c in
  (n =? 32) || ((9 <=? n) && (n <=? 13)).

(** The characters that end the bare-number token: NUL, white space,
    [,], [}] and [\]]. *)
Definition ends_token (c : Byte.byte) : bool :=
  let n := byte_val c in
  (n =? 0) || isspace c || (n =? 44) || (n =? 125) || (n =? 93).

Fixpoint skip_spaces (payload : list Byte.byte) : list Byte.byte :=
  match payload with
  | c :: rest => if isspace c then skip_spaces rest else payload
  | [] => []
  end.

(** The copy loop into [char tmp[64]]: at most [room] bytes, up to the
    first terminator. *)
Fixpoint copy_token (room : nat) (payload : list Byte.byte) : list Byte.byte :=
  match room, payload with
  | S room', c :: rest => if ends_token c then [] else c :: copy_token room' rest
  | _, _ => []
  end.

Section ValueParser.

(** The two library routines the parser calls.  [strtod tmp] is the
    number read from the head of [tmp], already narrowed to [float],
    or [None] when no character was consumed ([endp == tmp]).
    [deserializeJson capacity payload] is the document decoded into a
    [StaticJsonDocument<capacity>], or [None] on any
    [DeserializationError]. *)
Variable strtod : list Byte.byte -> option float.
Variable deserializeJson : Z -> list Byte.byte -> option JsonVariant.

(** [parse_float_from_payload]: the value returned and [*ok]. *)
Definition parse_float_from_payload (payload : list Byte.byte) : float * bool :=
  match payload with
  | [] => (NAN, false)
  | _ =>
      let tmp := copy_token 63 (skip_spaces payload) in
      let fast := match tmp with
                  | [] => None
                  | _ => strtod tmp
                  end in
      match fast with
      | Some v => (v, true)
      | None =>
          match deserializeJson 256 payload with
          | Some doc => if is_float doc then (as_float doc, true) else (NAN, false)
          | None => (NAN, false)
          end
      end
  end.

(** [parse_value_using_path]: the value returned and [*ok].  A null
    [value_path] is [None]. *)
Definition parse_value_using_path (payload : list Byte.byte) (value_path : option string)
  : float * bool :=
  match value_path with
  | None => parse_float_from_payload payload
  | Some path =>
      if (String.length path =? 0)%nat || String.eqb path "." then
        parse_float_from_payload payload
      else
        match deserializeJson 512 payload with
        | None => (NAN, false)
        | Some doc =>
            if negb (containsKey doc path) then (NAN, false)
            else
              match json_get doc path with
              | None => (NAN, false)
              | Some v =>
                  if is_float v || is_int v || is_long v || is_double v
                  then (as_float v, true)
                  else (NAN, false)
              end
        end
  end.

(** What [handleIncomingMessage] stores for one message: the parsed
    value, or NAN when parsing failed.  [None]: the message is
    ignored (no payload, or a topic that is not subscribed). *)
Definition handleIncomingMessage (config : option DeviceConfig) (now : Z)
  (topic : string) (payload : list Byte.byte) (s_state : EnergyMonitorState)
  : EnergyMonitorState :=
  match config, payload with
  | None, _ => s_state
  | _, [] => s_state
  | Some c, _ =>
      if negb (String.length (mqtt_topic_solar c) =? 0)%nat
         && String.eqb topic (mqtt_topic_solar c) then
        let '(v, ok) := parse_value_using_path payload (Some (mqtt_solar_value_path c)) in
        energy_monitor_set_solar (if ok then v else NAN) now s_state
      else if negb (String.length (mqtt_topic_grid c) =? 0)%nat
              && String.eqb topic (mqtt_topic_grid c) then
        let '(v, ok) := parse_value_using_path payload (Some (mqtt_grid_value_path c)) in
        energy_monitor_set_grid (if ok then v else NAN) now s_state
      else s_state
  end.

End ValueParser.

(* ================================================================== *)
(** ** Runs of the screen *)

(** What can happen to the screen object: it is created or destroyed,
    the render loop calls [update] (with whatever the store and the
    configuration hold at that moment), the animation timer fires. *)
Inductive ScreenEvent : Type :=
| EvCreate
| EvDestroy
| EvUpdate (config : option DeviceConfig) (now : Z) (s_state : EnergyMonitorState)
| EvAlarmTick (config : option DeviceConfig).

Definition apply_event (ev : ScreenEvent) (s : EnergyMonitorScreen) : EnergyMonitorScreen :=
  match ev with
  | EvCreate => create s
  | EvDestroy => destroy s
  | EvUpdate config now s_state => fst (update config now s_state s)
  | EvAlarmTick config => alarmTick config s
  end.

(** The screen after a list of events, oldest first. *)
Definition run (evs : list ScreenEvent) (s : EnergyMonitorScreen) : EnergyMonitorScreen :=
  fold_left (fun s ev => apply_event ev s) evs s.

(** The states the screen object can be in. *)
Inductive reachable : EnergyMonitorScreen -> Prop :=
| reachable_initial : reachable initial_screen
| reachable_step : forall s ev, reachable s -> reachable (apply_event ev s).

(** The three categories, with what [update] reads and writes for each. *)
Inductive Category : Type := Solar | Home | Grid.

Definition category_flag (cat : Category) (s : EnergyMonitorScreen) : bool :=
  match cat with
  | Solar => alarmSolar s
  | Home => alarmHome s
  | Grid => alarmGrid s
  end.

Definition category_config (cat : Category) (c : DeviceConfig) : EnergyCategoryColorConfig :=
  match cat with
  | Solar => energy_solar_colors c
  | Home => energy_home_colors c
  | Grid => energy_grid_colors c
  end.

Definition category_value (cat : Category) (solar_kw grid_kw : float) : float :=
  match cat with
  | Solar => solar_kw
  | Home => home_kw_of solar_kw grid_kw
  | Grid => grid_kw
  end.

Definition category_use_abs (cat : Category) : bool :=
  match cat with
  | Solar | Home => true
  | Grid => false
  end.

Definition category_intended_color (cat : Category) (s : EnergyMonitorScreen) : lv_color_t :=
  match cat with
  | Solar => intendedSolarColor s
  | Home => intendedHomeColor s
  | Grid => intendedGridColor s
  end.

(** The rounded milli-unit measure of a category's value: of its
    magnitude for solar and home, of the signed value for grid. *)
Definition category_mkw (cat : Category) (solar_kw grid_kw : float) : Z :=
  kw_to_mkw_round (measured_kw (category_value cat solar_kw grid_kw) (category_use_abs cat)).

(** The threshold below which an alarmed category clears. *)
Definition clear_threshold_of (cfg : EnergyCategoryColorConfig) (use_abs : bool)
  (clear_hysteresis_mkw : Z) : Z :=
  let t := threshold_mkw2 cfg - clear_hysteresis_mkw in
  if use_abs then Z.max 0 t else t.

(** The selectors above are unfolded before anything else when two
    terms are compared. *)
Strategy expand [category_flag category_config category_value category_use_abs
                 category_intended_color].

(* ================================================================== *)
(** ** Sample values used in the examples *)

(** A category as [set_energy_defaults] leaves it. *)
Definition default_category : EnergyCategoryColorConfig :=
  set_energy_defaults
    {| color_good_rgb := 0; color_ok_rgb := 0; color_attention_rgb := 0;
       color_warning_rgb := 0; threshold_mkw0 := 0; threshold_mkw1 := 0;
       threshold_mkw2 := 0 |}.

(** A configuration with the default categories, a 2000 ms pulse cycle,
    an 800 ms clear delay and a clear hysteresis of 200 mkW. *)
Definition sample_config : DeviceConfig :=
  {| mqtt_topic_solar := "home/solar";
     mqtt_topic_grid := "home/grid";
     mqtt_solar_value_path := ".";
     mqtt_grid_value_path := "power";
     energy_solar_colors := default_category;
     energy_home_colors := default_category;
     energy_grid_colors := default_category;
     energy_alarm_pulse_cycle_ms := 2000;
     energy_alarm_pulse_peak_pct := 100;
     energy_alarm_clear_delay_ms := 800;
     energy_alarm_clear_hysteresis_mkw := 200 |}.

(** A store in which both values just arrived. *)
Definition store_with (solar_kw grid_kw : float) : EnergyMonitorState :=
  {| solar_value := solar_kw; grid_value := grid_kw;
     solar_updated := true; grid_updated := true;
     solar_update_ms := 0; grid_update_ms := 0 |}.

(** Persisted thresholds out of order whose negative entries hide the
    disorder once clamped. *)
Definition disordered_negative_category : EnergyCategoryColorConfig :=
  {| color_good_rgb := 0x0000FF; color_ok_rgb := 0xFFFFFF;
     color_attention_rgb := 0xFFA500; color_warning_rgb := 0xFF0000;
     threshold_mkw0 := -5; threshold_mkw1 := -10; threshold_mkw2 := 3000 |}.

(** The store in which value [kw] just arrived for one category: as
    the solar value, as the grid value, or for home as solar with a
    grid value of 0. *)
Definition store_for (cat : Category) (kw : float) : EnergyMonitorState :=
  match cat with
  | Solar => store_with kw NAN
  | Home => store_with kw (of_Z 0)
  | Grid => store_with NAN kw
  end.

(** A store whose values did not change since the last read. *)
Definition store_unchanged (solar_kw grid_kw : float) : EnergyMonitorState :=
  {| solar_value := solar_kw; grid_value := grid_kw;
     solar_updated := false; grid_updated := false;
     solar_update_ms := 0; grid_update_ms := 0 |}.

(** A run that ends in [Exiting]: the screen is created, 3.1 kW of solar
    arrives at 1000 ms (alarm), 0.5 kW at 1080 ms (clear delay starts),
    the delay of 800 ms is over at the refresh of 1880 ms, and the
    timer has fired every 40 ms in between and eight times since. *)
Definition exiting_run : list ScreenEvent :=
  [EvCreate; EvUpdate (Some sample_config) 1000 (store_for Solar (of_ratio 31 10))]
  ++ repeat (EvAlarmTick (Some sample_config)) 2
  ++ [EvUpdate (Some sample_config) 1080 (store_for Solar (of_ratio 1 2))]
  ++ repeat (EvAlarmTick (Some sample_config)) 20
  ++ [EvUpdate (Some sample_config) 1880 (store_unchanged (of_ratio 1 2) NAN)]
  ++ repeat (EvAlarmTick (Some sample_config)) 8.

Definition exiting_screen : EnergyMonitorScreen := run exiting_run initial_screen.

(** The evaluation tick on which the alarm is asserted again: 3.1 kW of
    solar arrives at 2240 ms. *)
Definition reassert_event : ScreenEvent :=
  EvUpdate (Some sample_config) 2240 (store_for Solar (of_ratio 31 10)).

(** The screen just after the alarm started: created, then 3.1 kW of
    solar at 1000 ms. *)
Definition alarmed_screen : EnergyMonitorScreen :=
  run [EvCreate; EvUpdate (Some sample_config) 1000 (store_for Solar (of_ratio 31 10))]
    initial_screen.

(** What the state machine keeps true of the screen object. *)
Definition screen_invariant (s : EnergyMonitorScreen) : Prop :=
  background s = screen s
  /\ (alarmState s <> Off -> screen s = true)
  /\ (alarmState s = Exiting ->
      alarmDir s = -1
      /\ alarmSolar s = false /\ alarmHome s = false /\ alarmGrid s = false)
  /\ 0 <= alarmPhase s <= 255
  /\ (alarmDir s = 1 \/ alarmDir s = -1)
  /\ (forall t, alarmTimer s = Some t -> period t = 40).

(** [n / d] rounded to the nearest integer, halves upward, for
    [0 <= n] and [0 < d]. *)
Definition round_div (n d : Z) : Z := (2 * n + d) / (2 * d).

(** [f] holds of the [count] integers from [lo] on. *)
Fixpoint all_from (f : Z -> bool) (lo : Z) (count : nat) : bool :=
  match count with
  | O => true
  | S n => f lo && all_from f (lo + 1) n
  end.

(** The check that the step of the 40 ms timer computed in [float] is
    the exact rounded quotient, for one cycle length. *)
Definition step_agrees (cycle_ms : Z) : bool :=
  pulse_step_active 40 cycle_ms =? Z.max 1 (round_div (510 * 40) cycle_ms).

(** The screen alarmed shortly before the 32-bit millisecond counter
    wraps: created, then 3.1 kW of solar at 4294966000 ms. *)
Definition alarmed_before_wrap : EnergyMonitorScreen :=
  run [EvCreate; EvUpdate (Some sample_config) 4294966000 (store_for Solar (of_ratio 31 10))]
    initial_screen.

(** The payload of the thirteen bytes [{ " p o w e r " : 1 . 5 }]. *)
Definition sample_payload : list Byte.byte :=
  [Byte.x7b; Byte.x22; Byte.x70; Byte.x6f; Byte.x77; Byte.x65; Byte.x72; Byte.x22;
   Byte.x3a; Byte.x31; Byte.x2e; Byte.x35; Byte.x7d].

Fixpoint bytes_eqb (a b : list Byte.byte) : bool :=
  match a, b with
  | [], [] => true
  | x :: a', y :: b' => Byte.eqb x y && bytes_eqb a' b'
  | _, _ => false
  end.

(** A decoder that knows one payload only, [sample_payload], and
    rejects every other. *)
Definition sample_deserializeJson (capacity : Z) (payload : list Byte.byte)
  : option JsonVariant :=
  if bytes_eqb payload sample_payload
  then Some (JObject [("power"%string, JFloat (of_ratio 3 2))])
  else None.

(** A [strtod] that reads no number. *)
Definition sample_strtod (tmp : list Byte.byte) : option float := None.

(* ================================================================== *)
(** ** Histories of the store *)

(** What the two tasks do to the store: the MQTT side writes a value,
    the render side takes a snapshot (clearing the update flags or not). *)
Inductive StoreOp : Type :=
| OpSetSolar (value : float) (now_ms : Z)
| OpSetGrid (value : float) (now_ms : Z)
| OpSnapshot (clear_updates : bool).

Definition apply_store_op (op : StoreOp) (s_state : EnergyMonitorState) : EnergyMonitorState :=
  match op with
  | OpSetSolar value now_ms => energy_monitor_set_solar value now_ms s_state
  | OpSetGrid value now_ms => energy_monitor_set_grid value now_ms s_state
  | OpSnapshot clear_updates => snd (energy_monitor_get_state clear_updates s_state)
  end.

(** The store after a list of operations, oldest first. *)
Definition run_store (ops : list StoreOp) (s_state : EnergyMonitorState) : EnergyMonitorState :=
  fold_left (fun st op => apply_store_op op st) ops s_state.

Definition is_set_solar (op : StoreOp) : bool :=
  match op with OpSetSolar _ _ => true | _ => false end.

Definition is_set_grid (op : StoreOp) : bool :=
  match op with OpSetGrid _ _ => true | _ => false end.

Definition is_clearing_snapshot (op : StoreOp) : bool :=
  match op with OpSnapshot true => true | _ => false end.

(* ================================================================== *)
(** ** Rendering of the alarm (energy_monitor_screen.cpp) *)

(** [mix] of [applyAlarmStyles]: the phase scaled by the configured peak
    percentage (100 without a configuration, at most 100), at most 255. *)
Definition alarm_mix (config : option DeviceConfig) (phase : Z) : Z :=
  let peak_pct := match config with
                  | Some c => energy_alarm_pulse_peak_pct c
                  | None => 100
                  end in
  let peak_pct := if peak_pct >? 100 then 100 else peak_pct in
  let scaledMix16 := Int.to_unsigned 16 (phase * peak_pct / 100) in
  if scaledMix16 >? 255 then 255 else Int.uint8 scaledMix16.

(** The colours that the styling routines give to the widgets. *)
Record ScreenStyles : Type := {
  style_background : lv_color_t;
  style_solar : lv_color_t;
  style_home : lv_color_t;
  style_grid : lv_color_t
}.

Section Styles.

(** Two LVGL routines: [lv_color_to32] gives the 32-bit ARGB value of a
    colour, [lv_color_mix c1 c2 mix] blends [c1] over [c2] with weight
    [mix] out of 255. *)
Variable lv_color_to32 : lv_color_t -> Z.
Variable lv_color_mix : lv_color_t -> lv_color_t -> Z -> lv_color_t.

(** The weight with which [contrast_remap_for_bg] pulls a colour toward
    white once the background strength is above 160. *)
Definition contrast_mix (bg_strength_255 : Z) : Z :=
  Int.uint8 (Int.to_unsigned 16 (bg_strength_255 - 160) * 255 / Int.to_unsigned 16 (255 - 160)).

(** [contrast_remap_for_bg]. *)
Definition contrast_remap_for_bg (intended bg : lv_color_t) (bg_strength_255 : Z)
  : lv_color_t :=
  let kStart := 160 in
  let kLowContrast := 170 in
  if bg_strength_255 <=? kStart then intended
  else
    let c32 := lv_color_to32 intended in
    let r := Int.uint8 (Z.land (Z.shiftr c32 16) 255) in
    let g := Int.uint8 (Z.land (Z.shiftr c32 8) 255) in
    let b := Int.uint8 (Z.land c32 255) in
    let b32 := lv_color_to32 bg in
    let br := Int.uint8 (Z.land (Z.shiftr b32 16) 255) in
    let bgc := Int.uint8 (Z.land (Z.shiftr b32 8) 255) in
    let bb := Int.uint8 (Z.land b32 255) in
    let dr := r - br in
    let dg := g - bgc in
    let db := b - bb in
    let dist := (if dr <? 0 then - dr else dr) + (if dg <? 0 then - dg else dg)
                + (if db <? 0 then - db else db) in
    if dist >=? kLowContrast then intended
    else lv_color_mix lv_color_white intended (contrast_mix bg_strength_255).

(** [applyAlarmStyles]: the colours set on the widgets, [None] when the
    routine returns at once (no screen or no background). *)
Definition applyAlarmStyles (config : option DeviceConfig) (s : EnergyMonitorScreen)
  : option ScreenStyles :=
  if negb (screen s) || negb (background s) then None
  else
    let mix := alarm_mix config (alarmPhase s) in
    let bg := lv_color_mix (alarmPeakColor s) lv_color_black mix in
    Some {| style_background := bg;
            style_solar := if alarmSolar s
                           then contrast_remap_for_bg (intendedSolarColor s) bg mix
                           else intendedSolarColor s;
            style_home := if alarmHome s
                          then contrast_remap_for_bg (intendedHomeColor s) bg mix
                          else intendedHomeColor s;
            style_grid := if alarmGrid s
                          then contrast_remap_for_bg (intendedGridColor s) bg mix
                          else intendedGridColor s |}.

(** [applyNormalStyles]. *)
Definition applyNormalStyles (s : EnergyMonitorScreen) : option ScreenStyles :=
  if negb (screen s) || negb (background s) then None
  else
    Some {| style_background := lv_color_black;
            style_solar := intendedSolarColor s;
            style_home := intendedHomeColor s;
            style_grid := intendedGridColor s |}.

End Styles.

(* ------------------------------------------------------------------ *)
(** *** Bars *)

(** IEEE-754 binary64 ([double]), as far as [set_kw_bar] needs it. *)
Module Float64.

Definition prec : Z := 53.
Definition emax : Z := 1024.

(** [(double) x] for a [float] [x]: the same value. *)
Definition of_float (x : float) : spec_float :=
  match x with
  | S754_finite s m e => binary_normalize prec emax (if s then Z.neg m else Z.pos m) e s
  | _ => x
  end.

Definition of_Z (z : Z) : spec_float := binary_normalize prec emax z 0 false.
Definition mul (x y : spec_float) : spec_float := SFmul prec emax x y.
Definition fabs (x : spec_float) : spec_float := SFabs x.

End Float64.

(** [watts] of [set_kw_bar]: [(int32_t)(fabs((double)kw) * 1000.0)],
    then kept within [0 .. max_watts]. *)
Definition bar_watts (kw : float) (max_watts : Z) : Z :=
  let watts := to_int32 (Float64.mul (Float64.fabs (Float64.of_float kw)) (Float64.of_Z 1000)) in
  let watts := if watts <? 0 then 0 else watts in
  if watts >? max_watts then max_watts else watts.

(** [set_kw_bar] on an existing bar: the height given to the fill. *)
Definition set_kw_bar (bar_height_px : Z) (kw : float) (max_watts : Z) : Z :=
  if isnan kw then 0
  else
    let max_watts := if max_watts <=? 0 then 3000 else max_watts in
    let watts := bar_watts kw max_watts in
    let fill_h := Int.int32 (Z.quot (watts * bar_height_px) max_watts) in
    if (watts >? 0) && (fill_h =? 0) then 1 else fill_h.

(** The full-scale value of a bar in [update]: the configured maximum in
    kW when it is positive (3.0 otherwise, also without configuration),
    in watts, 3000 when that is not positive. *)
Definition bar_max_watts (configured_max_kw : option float) : Z :=
  let max_kw := match configured_max_kw with
                | Some m => if gtb m (of_Z 0) then m else of_Z 3
                | None => of_Z 3
                end in
  let max_w := to_int32 (mul max_kw (of_Z 1000)) in
  if max_w <=? 0 then 3000 else max_w.

(* ================================================================== *)
(** ** Device name (config_manager.cpp) *)

Definition is_lower_or_digit (c : Z) : bool :=
  ((97 <=? c) && (c <=? 122)) || ((48 <=? c) && (c <=? 57)).

(** The loop of [config_manager_sanitize_device_name].  [input] is the
    text from [input[i]] on; [out_rev] is [output[0 .. j)] with the last
    character written first, so that [output[j-1]] is its head and [j]
    its length.  Characters are their codes. *)
Fixpoint sanitize_loop (max_len : Z) (input : list Z) (out_rev : list Z) : list Z :=
  match input with
  | [] => out_rev
  | c :: rest =>
      if (c =? 0) || negb (Z.of_nat (List.length out_rev) <? max_len - 1) then out_rev
      else
        let c := if (65 <=? c) && (c <=? 90) then c + (97 - 65) else c in
        if is_lower_or_digit c then sanitize_loop max_len rest (c :: out_rev)
        else if (c =? 32) || (c =? 95) || (c =? 45) then
          match out_rev with
          | prev :: _ =>
              if negb (prev =? 45) then sanitize_loop max_len rest (45 :: out_rev)
              else sanitize_loop max_len rest out_rev
          | [] => sanitize_loop max_len rest out_rev
          end
        else sanitize_loop max_len rest out_rev
  end.

(** [config_manager_sanitize_device_name]: the text left in [output],
    [None] when nothing is written ([max_len == 0]). *)
Definition config_manager_sanitize_device_name (input : list Z) (max_len : Z)
  : option (list Z) :=
  if max_len =? 0 then None
  else
    match sanitize_loop max_len input [] with
    | prev :: out_rev =>
        (* remove a trailing hyphen *)
        if prev =? 45 then Some (rev out_rev) else Some (rev (prev :: out_rev))
    | [] => Some []
    end.

(** The device-name text is well formed: lower-case letters, digits and
    single hyphens, [blocked] telling that a hyphen may not come next. *)
Fixpoint name_well_formed (blocked : bool) (name : list Z) : Prop :=
  match name with
  | [] => True
  | c :: rest =>
      (is_lower_or_digit c = true /\ name_well_formed false rest)
      \/ (c = 45 /\ blocked = false /\ name_well_formed true rest)
  end.

(* ================================================================== *)
(** ** Persisting a category (config_manager.cpp) *)

(** What [config_manager_save] writes for one category: the colours
    masked to 24 bits, the thresholds as they are. *)
Definition save_category (cfg : EnergyCategoryColorConfig) : PersistedCategory :=
  {| nvs_color_good := Some (Z.land (color_good_rgb cfg) 0xFFFFFF);
     nvs_color_ok := Some (Z.land (color_ok_rgb cfg) 0xFFFFFF);
     nvs_color_attention := Some (Z.land (color_attention_rgb cfg) 0xFFFFFF);
     nvs_color_warning := Some (Z.land (color_warning_rgb cfg) 0xFFFFFF);
     nvs_t0 := Some (threshold_mkw0 cfg);
     nvs_t1 := Some (threshold_mkw1 cfg);
     nvs_t2 := Some (threshold_mkw2 cfg) |}.

(** The colours are 24-bit values. *)
Definition colors_24bit (cfg : EnergyCategoryColorConfig) : Prop :=
  0 <= color_good_rgb cfg < 2 ^ 24 /\ 0 <= color_ok_rgb cfg < 2 ^ 24
  /\ 0 <= color_attention_rgb cfg < 2 ^ 24 /\ 0 <= color_warning_rgb cfg < 2 ^ 24.

(* ------------------------------------------------------------------ *)
(** *** Numeric fields of the configuration form (web_portal_config.cpp) *)



(* ================================================================== *)
(** ** The warning screen (warning_screen.cpp) *)

Record WarningScreen : Type := {
  icon : bool;                      (* the icon object exists *)
  pulseTimer : option lv_timer_t;
  pulsePhase : Z;                   (* uint8_t *)
  pulseDir : Z                      (* int8_t *)
}.

(** [WarningScreen::pulseTick]: the screen after the tick and, when the
    icon exists, the opacity given to it. *)
Definition pulseTick (config : option DeviceConfig) (w : WarningScreen)
  : WarningScreen * option Z :=
  if negb (icon w) then (w, None)
  else
    let tick_ms := match pulseTimer w with
                   | Some t => period t
                   | None => 40
                   end in
    let cycle_ms := pulse_cycle_ms config in
    let step := pulse_step_active tick_ms cycle_ms in
    let next := pulsePhase w + pulseDir w * step in
    let '(next, dir) := if next >=? 255 then (255, -1)
                        else if next <=? 0 then (0, 1)
                        else (next, pulseDir w) in
    let phase := Int.uint8 next in
    ({| icon := icon w; pulseTimer := pulseTimer w; pulsePhase := phase; pulseDir := dir |},
     Some (alarm_mix config phase)).

(** [WarningScreen::moveIcon]: the position given to the 100-pixel icon
    on a display of [hor_res] by [ver_res] pixels, [r1] and [r2] being
    the two values drawn from [esp_random]. *)
Definition moveIcon (hor_res ver_res r1 r2 : Z) : Z * Z :=
  let kWarningIconSizePx := 100 in
  let max_x := if hor_res >? kWarningIconSizePx then hor_res - kWarningIconSizePx else 0 in
  let max_y := if ver_res >? kWarningIconSizePx then ver_res - kWarningIconSizePx else 0 in
  let x := if max_x >? 0 then Int.int32 (r1 mod Int.uint32 (max_x + 1)) else 0 in
  let y := if max_y >? 0 then Int.int32 (r2 mod Int.uint32 (max_y + 1)) else 0 in
  (x, y).

(** The order of the tiers, Good lowest. *)
Definition tier_rank (t : Tier) : Z :=
  match t with
  | Good => 0
  | Ok => 1
  | Attention => 2
  | Warning => 3
  end.

(** The first category, in the order solar, home, grid, whose value
    triggers the alarm. *)
Definition first_triggered (c : DeviceConfig) (solar_kw grid_kw : float) : Category :=
  if is_triggered_t2 (Some (energy_solar_colors c)) solar_kw true then Solar
  else if is_triggered_t2 (Some (energy_home_colors c)) (home_kw_of solar_kw grid_kw) true
       then Home
       else Grid.

(** The animation timer belongs to the screen and runs while the alarm
    is on: without a screen there is no timer; with a screen there is
    one, and it is paused exactly when the alarm is [Off]. *)
Definition timer_invariant (s : EnergyMonitorScreen) : Prop :=
  (screen s = false -> alarmTimer s = None)
  /\ (screen s = true ->
      exists t, alarmTimer s = Some t /\ (paused t = true <-> alarmState s = Off)).

(** The colour a set of styles gives to a category. *)
Definition style_of (cat : Category) (styles : ScreenStyles) : lv_color_t :=
  match cat with
  | Solar => style_solar styles
  | Home => style_home styles
  | Grid => style_grid styles
  end.

(** The two colour routines at a colour depth of 32 bits, for the
    examples: opaque ARGB, and a channel-wise blend. *)
Definition sample_lv_color_to32 (c : lv_color_t) : Z :=
  0xFF000000 + ch_red c * 65536 + ch_green c * 256 + ch_blue c.

Definition sample_lv_color_mix (c1 c2 : lv_color_t) (mix : Z) : lv_color_t :=
  lv_color_make ((ch_red c1 * mix + ch_red c2 * (255 - mix)) / 255)
                ((ch_green c1 * mix + ch_green c2 * (255 - mix)) / 255)
                ((ch_blue c1 * mix + ch_blue c2 * (255 - mix)) / 255).

(** The alarmed screen after 13 ticks: phase 130. *)
Definition pulsing_screen : EnergyMonitorScreen :=
  run (repeat (EvAlarmTick (Some sample_config)) 13) alarmed_screen.

(** A token that [parse_float_from_payload] may hand to [strtod]: not
    empty, at most 63 bytes, none of them a terminator. *)
Definition token_ok (tmp : list Byte.byte) : Prop :=
  tmp <> [] /\ (List.length tmp <= 63)%nat /\ Forall (fun c => ends_token c = false) tmp.

(** The payload of the three bytes [a b c]. *)
Definition garbage_payload : list Byte.byte := [Byte.x61; Byte.x62; Byte.x63].

(* ================================================================== *)
(** * Properties *)

(** ** Bridging lemmas for [update] *)

Lemma update_when_due config now s_state s :
  refresh_due now s_state s = true ->
  fst (update config now s_state s)
  = update_refresh config now (solar_value s_state) (grid_value s_state) s.
Proof.
  unfold refresh_due, update, energy_monitor_get_state.
  destruct (screen s); simpl; [| discriminate].
  destruct (solar_updated s_state || grid_updated s_state); simpl; [reflexivity |].
  destruct (lastRenderMs s =? 0); simpl; [reflexivity |].
  rewrite Z.leb_antisym.
  destruct (Int.uint32 (now - lastRenderMs s) <? 500); simpl; [discriminate | reflexivity].
Qed.

Lemma update_when_not_due config now s_state s :
  refresh_due now s_state s = false ->
  fst (update config now s_state s) = s.
Proof.
  unfold refresh_due, update, energy_monitor_get_state.
  destruct (screen s); simpl; [| reflexivity].
  destruct (solar_updated s_state || grid_updated s_state); simpl; [discriminate |].
  destruct (lastRenderMs s =? 0); simpl; [discriminate |].
  rewrite Z.leb_antisym.
  destruct (Int.uint32 (now - lastRenderMs s) <? 500); simpl; [reflexivity | discriminate].
Qed.

(** The transitions of the alarm state never touch the per-category
    flags nor the intended colours. *)
Lemma update_alarm_state_flag config now p1 p2 p3 s cat :
  category_flag cat (update_alarm_state config now p1 p2 p3 s) = category_flag cat s.
Proof.
  unfold update_alarm_state, alarm_wanted, latch_peak_color, resume_alarm_timer.
  destruct s as [scr bg lr st tm ph dr aS aH aG pk cs iS iH iG]; simpl.
  destruct cat, st, config; simpl;
    repeat match goal with
           | |- context [if ?b then _ else _] => destruct b; simpl
           end; reflexivity.
Qed.

(** The flag of each category after a refresh: hysteresis hold when it
    was set, trigger test when it was not. *)
Lemma update_refresh_flag config now solar_kw grid_kw s cat :
  category_flag cat (update_refresh config now solar_kw grid_kw s)
  = if category_flag cat s
    then negb (is_cleared_t2 (option_map (category_config cat) config)
                 (category_value cat solar_kw grid_kw) (category_use_abs cat)
                 (clear_hyst_of config))
    else is_triggered_t2 (option_map (category_config cat) config)
           (category_value cat solar_kw grid_kw) (category_use_abs cat).
Proof.
  unfold update_refresh. rewrite update_alarm_state_flag.
  destruct cat; reflexivity.
Qed.

Lemma update_alarm_state_intended config now p1 p2 p3 s cat :
  category_intended_color cat (update_alarm_state config now p1 p2 p3 s)
  = category_intended_color cat s.
Proof.
  unfold update_alarm_state, alarm_wanted, latch_peak_color, resume_alarm_timer.
  destruct s as [scr bg lr st tm ph dr aS aH aG pk cs iS iH iG]; simpl.
  destruct cat, st, config; simpl;
    repeat match goal with
           | |- context [if ?b then _ else _] => destruct b; simpl
           end; reflexivity.
Qed.

(** The colour cached for each category by a refresh is the
    classifier's colour for that category's value. *)
Lemma update_refresh_intended config now solar_kw grid_kw s cat :
  category_intended_color cat (update_refresh config now solar_kw grid_kw s)
  = pick_category_color (option_map (category_config cat) config)
      (category_value cat solar_kw grid_kw) (category_use_abs cat).
Proof.
  unfold update_refresh. rewrite update_alarm_state_intended.
  destruct cat; reflexivity.
Qed.

(** ** Severity classifier *)

Lemma pick_category_color_by_tier cfg kw use_abs :
  isnan kw = false ->
  pick_category_color (Some cfg) kw use_abs
  = lv_color_from_rgb_u32
      (tier_rgb cfg (tier_of_mkw cfg (kw_to_mkw_round (measured_kw kw use_abs)))).
Proof.
  intros Hnan. unfold pick_category_color, tier_of_mkw, kw_to_mkw_round, measured_kw.
  rewrite Hnan.
  set (m := to_int32 _).
  destruct (m <? threshold_mkw0 cfg); [reflexivity |].
  destruct (m <? threshold_mkw1 cfg); [reflexivity |].
  destruct (m <? threshold_mkw2 cfg); reflexivity.
Qed.

Lemma tier_of_mkw_ranges cfg m :
  thresholds_monotone cfg ->
  (tier_of_mkw cfg m = Good <-> m < threshold_mkw0 cfg)
  /\ (tier_of_mkw cfg m = Ok <-> threshold_mkw0 cfg <= m < threshold_mkw1 cfg)
  /\ (tier_of_mkw cfg m = Attention <-> threshold_mkw1 cfg <= m < threshold_mkw2 cfg)
  /\ (tier_of_mkw cfg m = Warning <-> threshold_mkw2 cfg <= m).
Proof.
  intros [H01 H12]. unfold tier_of_mkw.
  destruct (Z.ltb_spec m (threshold_mkw0 cfg));
    [| destruct (Z.ltb_spec m (threshold_mkw1 cfg));
       [| destruct (Z.ltb_spec m (threshold_mkw2 cfg))]];
    repeat split; intros; try discriminate; try lia.
Qed.

(** C1. With thresholds in order [t0 <= t1 <= t2] and a value that is
    not absent, [pick_category_color] returns the colour of the tier of
    the rounded milli-unit measure [m] (of the magnitude when
    [use_abs], of the signed value otherwise), and that tier is Good
    exactly when [m < t0], Ok exactly when [t0 <= m < t1], Attention
    exactly when [t1 <= m < t2], Warning exactly when [t2 <= m]: a
    value on a threshold belongs to the tier above it. *)
Theorem pick_category_color_tiers cfg kw use_abs :
  thresholds_monotone cfg ->
  isnan kw = false ->
  let m := kw_to_mkw_round (measured_kw kw use_abs) in
  pick_category_color (Some cfg) kw use_abs
  = lv_color_from_rgb_u32 (tier_rgb cfg (tier_of_mkw cfg m))
  /\ (tier_of_mkw cfg m = Good <-> m < threshold_mkw0 cfg)
  /\ (tier_of_mkw cfg m = Ok <-> threshold_mkw0 cfg <= m < threshold_mkw1 cfg)
  /\ (tier_of_mkw cfg m = Attention <-> threshold_mkw1 cfg <= m < threshold_mkw2 cfg)
  /\ (tier_of_mkw cfg m = Warning <-> threshold_mkw2 cfg <= m).
Proof.
  intros Hmono Hnan m. split.
  - apply pick_category_color_by_tier; assumption.
  - apply tier_of_mkw_ranges; assumption.
Qed.

Lemma default_category_monotone : thresholds_monotone default_category.
Proof. split; vm_compute; discriminate. Qed.

(** At -1.5 kW with the default thresholds and the magnitude taken, the
    measure is 1500, on the second threshold, and the tier is Attention. *)
Lemma pick_category_color_tiers_witness :
  thresholds_monotone default_category
  /\ isnan (of_ratio (-3) 2) = false
  /\ kw_to_mkw_round (measured_kw (of_ratio (-3) 2) true) = 1500
  /\ tier_of_mkw default_category 1500 = Attention
  /\ pick_category_color (Some default_category) (of_ratio (-3) 2) true
     = lv_color_from_rgb_u32 0xFFA500.
Proof.
  split; [exact default_category_monotone |].
  split; [reflexivity |].
  split; [vm_compute; reflexivity |].
  split; [vm_compute; reflexivity |].
  exact (proj1 (pick_category_color_tiers default_category (of_ratio (-3) 2) true
                  default_category_monotone eq_refl)).
Defined.

(** ** Derived home measurement *)

Lemma home_kw_of_solar_absent : home_kw_of NAN (of_ratio 12 10) = NAN.
Proof. vm_compute. reflexivity. Qed.

Lemma home_kw_of_solar_absent_not_grid :
  home_kw_of NAN (of_ratio 12 10) <> of_ratio 12 10.
Proof. vm_compute. discriminate. Qed.

(** C7. The home value is [solar + grid] when neither input is absent
    and is absent as soon as one input is absent; with solar absent and
    grid 1.2 kW it is absent, not 1.2.  It is this value that a refresh
    classifies for the home category. *)
Theorem home_kw_absent_unless_both_present solar_kw grid_kw :
  (isnan solar_kw = false -> isnan grid_kw = false ->
   home_kw_of solar_kw grid_kw = add solar_kw grid_kw)
  /\ (isnan solar_kw = true \/ isnan grid_kw = true ->
      home_kw_of solar_kw grid_kw = NAN)
  /\ home_kw_of NAN (of_ratio 12 10) = NAN
  /\ home_kw_of NAN (of_ratio 12 10) <> of_ratio 12 10
  /\ (forall config now s,
        intendedHomeColor (update_refresh config now solar_kw grid_kw s)
        = pick_category_color (option_map energy_home_colors config)
            (home_kw_of solar_kw grid_kw) true).
Proof.
  split; [| split; [| split; [| split]]].
  - intros Hs Hg. unfold home_kw_of. rewrite Hs, Hg. reflexivity.
  - intros [H | H]; unfold home_kw_of; rewrite H;
      [reflexivity | rewrite andb_false_r; reflexivity].
  - exact home_kw_of_solar_absent.
  - exact home_kw_of_solar_absent_not_grid.
  - intros config now s.
    exact (update_refresh_intended config now solar_kw grid_kw s Home).
Qed.

(** Solar 2.0 kW and grid 1.2 kW are both present: home is their
    [float] sum; the sum rounds to 3200 mkW. *)
Lemma home_kw_absent_unless_both_present_witness :
  isnan (of_ratio 2 1) = false
  /\ isnan (of_ratio 12 10) = false
  /\ home_kw_of (of_ratio 2 1) (of_ratio 12 10) = add (of_ratio 2 1) (of_ratio 12 10)
  /\ kw_to_mkw_round (home_kw_of (of_ratio 2 1) (of_ratio 12 10)) = 3200
  /\ (isnan NAN = true \/ isnan (of_ratio 12 10) = true)
  /\ home_kw_of NAN (of_ratio 12 10) = NAN.
Proof.
  split; [reflexivity |].
  split; [reflexivity |].
  split; [exact (proj1 (home_kw_absent_unless_both_present (of_ratio 2 1) (of_ratio 12 10))
                   eq_refl eq_refl) |].
  split; [vm_compute; reflexivity |].
  split; [left; reflexivity |].
  exact (proj1 (proj2 (home_kw_absent_unless_both_present NAN (of_ratio 12 10)))
           (or_introl eq_refl)).
Defined.

(** ** Absent values and the alarm flags *)

Lemma is_triggered_t2_nan cfg kw use_abs :
  isnan kw = true -> is_triggered_t2 cfg kw use_abs = false.
Proof. intros H. unfold is_triggered_t2. rewrite H. destruct cfg; reflexivity. Qed.

Lemma is_cleared_t2_nan cfg kw use_abs hyst :
  isnan kw = true -> is_cleared_t2 cfg kw use_abs hyst = true.
Proof. intros H. unfold is_cleared_t2. rewrite H. destruct cfg; reflexivity. Qed.

(** C10. On a call of [update] that refreshes, a category whose value
    is absent (NaN) has its alarm flag false afterwards, whatever the
    flag was before, whatever the configuration and its clear
    hysteresis: an absent value never sets the flag and always clears
    a flag that was set. *)
Theorem absent_value_flag_off config now s_state s cat :
  refresh_due now s_state s = true ->
  isnan (category_value cat (solar_value s_state) (grid_value s_state)) = true ->
  category_flag cat (fst (update config now s_state s)) = false.
Proof.
  intros Hdue Hnan.
  rewrite (update_when_due _ _ _ _ Hdue), update_refresh_flag.
  rewrite is_triggered_t2_nan, is_cleared_t2_nan by assumption.
  destruct (category_flag cat s); reflexivity.
Qed.

(** A screen on which the solar category is alarmed (3.1 kW arrived);
    then the solar value becomes absent. *)
Lemma absent_value_flag_off_witness :
  let s := fst (update (Some sample_config) 1000 (store_with (of_ratio 31 10) NAN)
                  (create initial_screen)) in
  category_flag Solar s = true
  /\ refresh_due 1040 (store_with NAN NAN) s = true
  /\ isnan (category_value Solar NAN NAN) = true
  /\ category_flag Solar (fst (update (Some sample_config) 1040 (store_with NAN NAN) s)) = false.
Proof.
  intros s.
  split; [vm_compute; reflexivity |].
  split; [vm_compute; reflexivity |].
  split; [reflexivity |].
  exact (absent_value_flag_off (Some sample_config) 1040 (store_with NAN NAN) s Solar
           eq_refl eq_refl).
Defined.

(** ** Thresholds of a category *)

Lemma normalize_energy_thresholds_monotone cfg :
  thresholds_monotone (normalize_energy_thresholds cfg)
  /\ 0 <= threshold_mkw0 (normalize_energy_thresholds cfg).
Proof.
  unfold normalize_energy_thresholds, thresholds_monotone.
  destruct (Z.gtb_spec (threshold_mkw0 (clamp_negative_thresholds cfg))
              (threshold_mkw1 (clamp_negative_thresholds cfg)));
    [simpl; lia |].
  destruct (Z.gtb_spec (threshold_mkw1 (clamp_negative_thresholds cfg))
              (threshold_mkw2 (clamp_negative_thresholds cfg)));
    [simpl; lia |].
  cbn [orb]. split; [lia |].
  simpl. destruct (Z.ltb_spec (threshold_mkw0 cfg) 0); lia.
Qed.

Lemma update_category_monotone form cfg :
  thresholds_monotone cfg ->
  thresholds_monotone (snd (update_category form cfg)).
Proof.
  intros [H01 H12]. unfold update_category, thresholds_monotone.
  destruct (is_some (form_threshold_0_kw form) || is_some (form_threshold_1_kw form)
            || is_some (form_threshold_2_kw form)); [| simpl; lia].
  cbn [threshold_mkw0 threshold_mkw1 threshold_mkw2].
  set (t0 := read_threshold_kw _ _). set (t1 := read_threshold_kw _ _).
  set (t2 := read_threshold_kw _ _).
  destruct (Z.gtb_spec t0 t1); [simpl; lia |].
  destruct (Z.gtb_spec t1 t2); simpl; lia.
Qed.

Lemma load_category_monotone nvs cfg :
  thresholds_monotone (load_category nvs cfg).
Proof. unfold load_category. apply normalize_energy_thresholds_monotone. Qed.

Lemma clamp_negative_thresholds_id cfg :
  0 <= threshold_mkw0 cfg -> 0 <= threshold_mkw1 cfg -> 0 <= threshold_mkw2 cfg ->
  clamp_negative_thresholds cfg = cfg.
Proof.
  intros H0 H1 H2. unfold clamp_negative_thresholds.
  destruct (Z.ltb_spec (threshold_mkw0 cfg) 0); [lia |].
  destruct (Z.ltb_spec (threshold_mkw1 cfg) 0); [lia |].
  destruct (Z.ltb_spec (threshold_mkw2 cfg) 0); [lia |].
  destruct cfg; reflexivity.
Qed.

Lemma normalize_energy_thresholds_cases cfg :
  (~ thresholds_monotone (clamp_negative_thresholds cfg) ->
   normalize_energy_thresholds cfg = set_energy_defaults cfg)
  /\ (thresholds_monotone (clamp_negative_thresholds cfg) ->
      normalize_energy_thresholds cfg = clamp_negative_thresholds cfg).
Proof.
  unfold normalize_energy_thresholds, thresholds_monotone.
  set (c := clamp_negative_thresholds cfg).
  destruct (Z.gtb_spec (threshold_mkw0 c) (threshold_mkw1 c));
    [split; [reflexivity | lia] |].
  destruct (Z.gtb_spec (threshold_mkw1 c) (threshold_mkw2 c));
    [split; [reflexivity | lia] |].
  split; [intros Hdis; exfalso; apply Hdis; lia | reflexivity].
Qed.

(** C9, as the code has it.  [normalize_energy_thresholds] first raises
    each negative threshold to 0; if the thresholds so clamped are out
    of order the whole category becomes the built-in defaults
    (thresholds 500, 1500, 3000; good 0x00FF00, ok 0xFFFFFF, attention
    0xFFA500, warning 0xFF0000), otherwise the clamped thresholds and
    the persisted colours are kept.  In particular persisted thresholds
    that are non-negative and out of order are reset.  Either way the
    result is in order [0 <= t0 <= t1 <= t2]; so is every category that
    [config_manager_load] produces, and the configuration form keeps
    the order. *)
Theorem normalize_energy_thresholds_resets_disorder cfg :
  let defaults :=
    {| color_good_rgb := 0x00FF00; color_ok_rgb := 0xFFFFFF;
       color_attention_rgb := 0xFFA500; color_warning_rgb := 0xFF0000;
       threshold_mkw0 := 500; threshold_mkw1 := 1500; threshold_mkw2 := 3000 |} in
  (~ thresholds_monotone (clamp_negative_thresholds cfg) ->
   normalize_energy_thresholds cfg = defaults)
  /\ (thresholds_monotone (clamp_negative_thresholds cfg) ->
      normalize_energy_thresholds cfg = clamp_negative_thresholds cfg)
  /\ (0 <= threshold_mkw0 cfg -> 0 <= threshold_mkw1 cfg -> 0 <= threshold_mkw2 cfg ->
      ~ thresholds_monotone cfg ->
      normalize_energy_thresholds cfg = defaults)
  /\ thresholds_monotone (normalize_energy_thresholds cfg)
  /\ 0 <= threshold_mkw0 (normalize_energy_thresholds cfg)
  /\ (forall nvs, thresholds_monotone (load_category nvs cfg))
  /\ (forall form, thresholds_monotone cfg ->
                   thresholds_monotone (snd (update_category form cfg))).
Proof.
  intros defaults.
  destruct (normalize_energy_thresholds_cases cfg) as [Hreset Hkeep].
  destruct (normalize_energy_thresholds_monotone cfg) as [Hmono Hnonneg].
  split; [exact Hreset |].
  split; [exact Hkeep |].
  split; [| split; [exact Hmono | split; [exact Hnonneg | split]]].
  - intros H0 H1 H2 Hdis. apply Hreset.
    rewrite clamp_negative_thresholds_id by assumption. exact Hdis.
  - intros nvs. apply load_category_monotone.
  - intros form. apply update_category_monotone.
Qed.

(** Persisted thresholds 2000, 1000, 3000 are out of order: the
    category is reset. *)
Lemma normalize_energy_thresholds_resets_disorder_witness :
  let cfg :=
    {| color_good_rgb := 0x0000FF; color_ok_rgb := 0x123456;
       color_attention_rgb := 0xFFA500; color_warning_rgb := 0xFF00FF;
       threshold_mkw0 := 2000; threshold_mkw1 := 1000; threshold_mkw2 := 3000 |} in
  ~ thresholds_monotone (clamp_negative_thresholds cfg)
  /\ ~ thresholds_monotone cfg
  /\ normalize_energy_thresholds cfg = default_category
  /\ thresholds_monotone default_category
  /\ thresholds_monotone (snd (update_category
        {| form_color_good := None; form_color_ok := None;
           form_color_attention := None; form_color_warning := None;
           form_threshold_0_kw := Some (of_ratio 1 1);
           form_threshold_1_kw := None;
           form_threshold_2_kw := Some (of_ratio 4 1) |} default_category)).
Proof.
  intros cfg.
  assert (Hdis : ~ thresholds_monotone cfg)
    by (intros [H _]; vm_compute in H; apply H; reflexivity).
  assert (Hdisc : ~ thresholds_monotone (clamp_negative_thresholds cfg))
    by (intros [H _]; vm_compute in H; apply H; reflexivity).
  split; [exact Hdisc |].
  split; [exact Hdis |].
  split; [exact (proj1 (normalize_energy_thresholds_resets_disorder cfg) Hdisc) |].
  split; [exact default_category_monotone |].
  exact (proj2 (proj2 (proj2 (proj2 (proj2 (proj2
           (normalize_energy_thresholds_resets_disorder default_category))))))
           _ default_category_monotone).
Defined.

(** C9 as stated fails: the persisted triple -5, -10, 3000 is out of
    order, yet the category is not reset: its thresholds become 0, 0,
    3000 and its colours stay. *)
Lemma normalize_energy_thresholds_clamp_hides_disorder :
  ~ thresholds_monotone disordered_negative_category
  /\ normalize_energy_thresholds disordered_negative_category
     = {| color_good_rgb := 0x0000FF; color_ok_rgb := 0xFFFFFF;
          color_attention_rgb := 0xFFA500; color_warning_rgb := 0xFF0000;
          threshold_mkw0 := 0; threshold_mkw1 := 0; threshold_mkw2 := 3000 |}
  /\ normalize_energy_thresholds disordered_negative_category
     <> set_energy_defaults disordered_negative_category.
Proof.
  split; [intros [H _]; vm_compute in H; apply H; reflexivity |].
  split; [vm_compute; reflexivity |].
  vm_compute. discriminate.
Qed.

(** ** Hysteresis of the per-category alarm flags *)

Lemma int32_small z : Int.is_int32 z -> Int.int32 z = z.
Proof.
  unfold Int.is_int32, Int.INT32_MIN, Int.INT32_MAX, Int.int32, Int.to_signed.
  intros H. rewrite Z.mod_small; lia.
Qed.

Lemma is_cleared_t2_present cfg kw use_abs hyst :
  isnan kw = false ->
  Int.is_int32 (threshold_mkw2 cfg - hyst) ->
  is_cleared_t2 (Some cfg) kw use_abs hyst
  = (kw_to_mkw_round (measured_kw kw use_abs) <? clear_threshold_of cfg use_abs hyst).
Proof.
  intros Hnan Hrange. unfold is_cleared_t2, clear_threshold_of, measured_kw.
  rewrite Hnan, (int32_small _ Hrange).
  destruct use_abs; simpl; [| reflexivity].
  destruct (Z.ltb_spec (threshold_mkw2 cfg - hyst) 0).
  - rewrite Z.max_l by lia. reflexivity.
  - rewrite Z.max_r by lia. reflexivity.
Qed.

Lemma clear_hyst_of_nonneg c :
  0 <= energy_alarm_clear_hysteresis_mkw c ->
  clear_hyst_of (Some c) = energy_alarm_clear_hysteresis_mkw c.
Proof.
  intros H. unfold clear_hyst_of.
  destruct (Z.ltb_spec (energy_alarm_clear_hysteresis_mkw c) 0); [lia | reflexivity].
Qed.

Lemma hysteresis_sequence_keeps_flag cat :
  let s1 := fst (update (Some sample_config) 1000 (store_for cat (of_ratio 31 10))
                   (create initial_screen)) in
  let s2 := fst (update (Some sample_config) 1040 (store_for cat (of_ratio 29 10)) s1) in
  let s3 := fst (update (Some sample_config) 1080 (store_for cat (of_ratio 31 10)) s2) in
  (category_mkw cat (solar_value (store_for cat (of_ratio 31 10)))
     (grid_value (store_for cat (of_ratio 31 10))) = 3100
   /\ category_mkw cat (solar_value (store_for cat (of_ratio 29 10)))
        (grid_value (store_for cat (of_ratio 29 10))) = 2900)
  /\ category_flag cat s1 = true
  /\ category_flag cat s2 = true
  /\ category_flag cat s3 = true.
Proof. destruct cat; vm_compute; repeat split; reflexivity. Qed.

(** C2. On a refresh, a category whose flag was set and whose new value
    is present keeps the flag exactly when the value's rounded
    milli-unit measure is not strictly below [t2 - clear_hysteresis],
    that bound being raised to 0 for solar and home (magnitude) and
    left as it is for grid (signed).  With [t2 = 3000] and a hysteresis
    of 200, the values 3.1, 2.9, 3.1 kW (3100, 2900, 3100 mkW) keep the
    flag of whichever category receives them set after every tick. *)
Theorem alarm_flag_held_above_clear_threshold :
  (forall c now s_state s cat,
      refresh_due now s_state s = true ->
      category_flag cat s = true ->
      isnan (category_value cat (solar_value s_state) (grid_value s_state)) = false ->
      0 <= threshold_mkw2 (category_config cat c) <= Int.INT32_MAX ->
      0 <= energy_alarm_clear_hysteresis_mkw c <= Int.INT32_MAX ->
      let m := category_mkw cat (solar_value s_state) (grid_value s_state) in
      let clear_threshold :=
        clear_threshold_of (category_config cat c) (category_use_abs cat)
          (energy_alarm_clear_hysteresis_mkw c) in
      (category_flag cat (fst (update (Some c) now s_state s)) = true
       <-> ~ m < clear_threshold)
      /\ clear_threshold
         = (if category_use_abs cat
            then Z.max 0 (threshold_mkw2 (category_config cat c)
                          - energy_alarm_clear_hysteresis_mkw c)
            else threshold_mkw2 (category_config cat c)
                 - energy_alarm_clear_hysteresis_mkw c))
  /\ (forall cat,
         let s1 := fst (update (Some sample_config) 1000 (store_for cat (of_ratio 31 10))
                          (create initial_screen)) in
         let s2 := fst (update (Some sample_config) 1040 (store_for cat (of_ratio 29 10)) s1) in
         let s3 := fst (update (Some sample_config) 1080 (store_for cat (of_ratio 31 10)) s2) in
         (category_mkw cat (solar_value (store_for cat (of_ratio 31 10)))
            (grid_value (store_for cat (of_ratio 31 10))) = 3100
          /\ category_mkw cat (solar_value (store_for cat (of_ratio 29 10)))
               (grid_value (store_for cat (of_ratio 29 10))) = 2900)
         /\ category_flag cat s1 = true
         /\ category_flag cat s2 = true
         /\ category_flag cat s3 = true).
Proof.
  split.
  - intros c now s_state s cat Hdue Hflag Hnan Ht2 Hhyst m clear_threshold.
    split; [| reflexivity].
    rewrite (update_when_due _ _ _ _ Hdue), update_refresh_flag, Hflag.
    rewrite (clear_hyst_of_nonneg c) by lia.
    change (option_map (category_config cat) (Some c)) with (Some (category_config cat c)).
    rewrite is_cleared_t2_present;
      [| exact Hnan
       | unfold Int.is_int32, Int.INT32_MIN, Int.INT32_MAX in *; lia].
    fold (category_mkw cat (solar_value s_state) (grid_value s_state)).
    fold m. fold clear_threshold.
    destruct (Z.ltb_spec m clear_threshold); simpl; split; intros; try discriminate;
      try lia; try reflexivity; try contradiction.
  - intros cat. apply (hysteresis_sequence_keeps_flag cat).
Qed.

(** The solar category is alarmed by 3.1 kW; 2.9 kW then arrives: its
    measure 2900 is not below the clear threshold 2800. *)
Lemma alarm_flag_held_above_clear_threshold_witness :
  let s1 := fst (update (Some sample_config) 1000 (store_for Solar (of_ratio 31 10))
                   (create initial_screen)) in
  let st := store_for Solar (of_ratio 29 10) in
  refresh_due 1040 st s1 = true
  /\ category_flag Solar s1 = true
  /\ isnan (category_value Solar (solar_value st) (grid_value st)) = false
  /\ category_mkw Solar (solar_value st) (grid_value st) = 2900
  /\ clear_threshold_of (category_config Solar sample_config) (category_use_abs Solar)
       (energy_alarm_clear_hysteresis_mkw sample_config) = 2800
  /\ (category_flag Solar (fst (update (Some sample_config) 1040 st s1)) = true
      <-> ~ category_mkw Solar (solar_value st) (grid_value st)
            < clear_threshold_of (category_config Solar sample_config) (category_use_abs Solar)
                (energy_alarm_clear_hysteresis_mkw sample_config)).
Proof.
  intros s1 st.
  assert (Hdue : refresh_due 1040 st s1 = true) by (vm_compute; reflexivity).
  assert (Hflag : category_flag Solar s1 = true) by (vm_compute; reflexivity).
  assert (Hnan : isnan (category_value Solar (solar_value st) (grid_value st)) = false)
    by (vm_compute; reflexivity).
  assert (Ht2 : 0 <= threshold_mkw2 (category_config Solar sample_config) <= Int.INT32_MAX)
    by (vm_compute; split; discriminate).
  assert (Hhyst : 0 <= energy_alarm_clear_hysteresis_mkw sample_config <= Int.INT32_MAX)
    by (vm_compute; split; discriminate).
  split; [exact Hdue |].
  split; [exact Hflag |].
  split; [exact Hnan |].
  split; [vm_compute; reflexivity |].
  split; [vm_compute; reflexivity |].
  exact (proj1 (proj1 alarm_flag_held_above_clear_threshold sample_config 1040 st s1 Solar
                  Hdue Hflag Hnan Ht2 Hhyst)).
Defined.

(** ** The alarm state machine *)

Lemma uint8_small z : 0 <= z < 256 -> Int.uint8 z = z.
Proof. intros H. unfold Int.uint8, Int.to_unsigned. apply Z.mod_small. lia. Qed.

Lemma pulse_step_active_pos tick_ms cycle_ms : 1 <= pulse_step_active tick_ms cycle_ms.
Proof.
  unfold pulse_step_active.
  destruct (Z.ltb_spec (Int.uint8 (lroundf
    (div (mul (mul (of_Z 255) (of_Z 2)) (of_Z tick_ms)) (of_Z cycle_ms)))) 1); lia.
Qed.

Lemma pulse_step_exit_ge step_active : step_active <= pulse_step_exit step_active.
Proof.
  unfold pulse_step_exit.
  destruct (Z.ltb_spec (Int.uint8 (step_active + step_active / 2)) step_active); lia.
Qed.

Lemma pulse_step_exit_pos tick_ms cycle_ms :
  1 <= pulse_step_exit (pulse_step_active tick_ms cycle_ms).
Proof.
  pose proof (pulse_step_active_pos tick_ms cycle_ms).
  pose proof (pulse_step_exit_ge (pulse_step_active tick_ms cycle_ms)). lia.
Qed.

(** One tick in [Active], with the step left abstract. *)
Lemma alarmTick_active config s :
  screen s = true -> background s = true -> alarmState s = Active ->
  let tick_ms := match alarmTimer s with Some t => period t | None => 40 end in
  let step := pulse_step_active tick_ms (pulse_cycle_ms config) in
  let next := alarmPhase s + alarmDir s * step in
  alarmTick config s
  = if next >=? 255 then set_alarmPhase 255 (set_alarmDir (-1) s)
    else if next <=? 0 then set_alarmPhase 0 (set_alarmDir 1 s)
    else set_alarmPhase next s.
Proof.
  intros Hscr Hbg Hst tick_ms step next.
  unfold alarmTick. rewrite Hscr, Hbg, Hst. cbn [negb orb].
  fold tick_ms. fold step. fold next.
  destruct (Z.geb_spec next 255); [reflexivity |].
  destruct (Z.leb_spec next 0); [reflexivity |].
  rewrite uint8_small by lia. reflexivity.
Qed.

(** One tick in [Exiting], with the step left abstract. *)
Lemma alarmTick_exiting config s :
  screen s = true -> background s = true -> alarmState s = Exiting ->
  let tick_ms := match alarmTimer s with Some t => period t | None => 40 end in
  let step := pulse_step_exit (pulse_step_active tick_ms (pulse_cycle_ms config)) in
  let next := alarmPhase s + alarmDir s * step in
  alarmTick config s
  = if next >=? 255 then set_alarmPhase 255 (set_alarmDir (-1) s)
    else if next <=? 0 then
      pause_alarm_timer
        (set_alarmClearStartMs 0
           (set_alarmPeakColor alarm_default_peak_color
              (set_alarmPhase 0 (set_alarmState Off s))))
    else set_alarmPhase next s.
Proof.
  intros Hscr Hbg Hst tick_ms step next.
  unfold alarmTick. rewrite Hscr, Hbg, Hst. cbn [negb orb].
  fold tick_ms. fold step. fold next.
  destruct (Z.geb_spec next 255); [reflexivity |].
  destruct (Z.leb_spec next 0); [reflexivity |].
  rewrite uint8_small by lia. reflexivity.
Qed.

Lemma alarmTick_idle config s :
  screen s = false \/ background s = false \/ alarmState s = Off ->
  alarmTick config s = s.
Proof.
  unfold alarmTick. intros [H | [H | H]]; rewrite H.
  - reflexivity.
  - rewrite orb_true_r. reflexivity.
  - destruct (negb (screen s) || negb (background s)); reflexivity.
Qed.

(** *** The invariant of the screen object *)

Lemma timer_period_resume (tm : option lv_timer_t) :
  (forall t, tm = Some t -> period t = 40) ->
  forall t, option_map lv_timer_resume tm = Some t -> period t = 40.
Proof.
  intros H t Ht. destruct tm as [t0 |]; [| discriminate].
  injection Ht as <-. simpl. apply H. reflexivity.
Qed.

Lemma timer_period_pause (tm : option lv_timer_t) :
  (forall t, tm = Some t -> period t = 40) ->
  forall t, option_map lv_timer_pause tm = Some t -> period t = 40.
Proof.
  intros H t Ht. destruct tm as [t0 |]; [| discriminate].
  injection Ht as <-. simpl. apply H. reflexivity.
Qed.

Lemma initial_screen_invariant : screen_invariant initial_screen.
Proof.
  unfold screen_invariant, initial_screen; simpl.
  repeat split; try lia; try discriminate; try contradiction; auto.
Qed.

Ltac close_invariant Hex :=
  repeat split; intros; auto; try discriminate; try lia; try contradiction;
  try (match goal with
       | H : _ = Exiting |- _ => destruct (Hex H) as (? & ? & ? & ?); assumption
       end).

Lemma create_invariant s : screen_invariant s -> screen_invariant (create s).
Proof.
  unfold screen_invariant, create.
  destruct s as [scr bg lr st tm ph dr aS aH aG pk cs iS iH iG]; simpl.
  intros (Hbg & Hst & Hex & Hph & Hdr & Htm).
  destruct scr; simpl; [close_invariant Hex |].
  destruct tm as [t0 |]; simpl; close_invariant Hex.
  match goal with H : Some _ = Some _ |- _ => injection H as <- end. reflexivity.
Qed.

Lemma destroy_invariant s : screen_invariant s -> screen_invariant (destroy s).
Proof.
  unfold screen_invariant, destroy.
  destruct s as [scr bg lr st tm ph dr aS aH aG pk cs iS iH iG]; simpl.
  intros (Hbg & Hst & Hex & Hph & Hdr & Htm).
  destruct scr; simpl; close_invariant Hex.
Qed.

(** The flags part of a refresh leaves the alarm state, the timer, the
    phase and the direction alone. *)
Lemma update_flags_frame config now solar_kw grid_kw s :
  let s1 := update_flags config now solar_kw grid_kw s in
  screen s1 = screen s /\ background s1 = background s
  /\ alarmState s1 = alarmState s /\ alarmTimer s1 = alarmTimer s
  /\ alarmPhase s1 = alarmPhase s /\ alarmDir s1 = alarmDir s
  /\ alarmPeakColor s1 = alarmPeakColor s
  /\ alarmClearStartMs s1 = alarmClearStartMs s.
Proof. repeat split; reflexivity. Qed.

Lemma update_alarm_state_invariant config now p1 p2 p3 s :
  background s = screen s -> screen s = true ->
  (alarmState s = Exiting -> alarmDir s = -1) ->
  0 <= alarmPhase s <= 255 ->
  (alarmDir s = 1 \/ alarmDir s = -1) ->
  (forall t, alarmTimer s = Some t -> period t = 40) ->
  screen_invariant (update_alarm_state config now p1 p2 p3 s).
Proof.
  unfold screen_invariant, update_alarm_state, alarm_wanted, latch_peak_color,
    resume_alarm_timer.
  destruct s as [scr bg lr st tm ph dr aS aH aG pk cs iS iH iG]; simpl.
  intros Hbg Hscr Hex Hph Hdr Htm.
  pose proof (timer_period_resume tm Htm) as Hres.
  destruct aS, aH, aG, st, config; simpl;
    repeat match goal with
           | |- context [if ?b then _ else _] => destruct b; simpl
           end;
    repeat split; auto; try discriminate; try lia;
    try (intros; apply Hex; assumption).
Qed.

Lemma update_refresh_invariant config now solar_kw grid_kw s :
  screen s = true -> screen_invariant s ->
  screen_invariant (update_refresh config now solar_kw grid_kw s).
Proof.
  intros Hscr (Hbg & Hst & Hex & Hph & Hdr & Htm).
  unfold update_refresh.
  destruct (update_flags_frame config now solar_kw grid_kw s)
    as (E1 & E2 & E3 & E4 & E5 & E6 & _ & _).
  apply update_alarm_state_invariant.
  - rewrite E1, E2. exact Hbg.
  - rewrite E1. exact Hscr.
  - rewrite E3, E6. intros H. apply Hex. exact H.
  - rewrite E5. exact Hph.
  - rewrite E6. exact Hdr.
  - rewrite E4. exact Htm.
Qed.

Lemma refresh_due_screen now s_state s :
  refresh_due now s_state s = true -> screen s = true.
Proof. unfold refresh_due. destruct (screen s); [reflexivity | discriminate]. Qed.

Lemma update_invariant config now s_state s :
  screen_invariant s -> screen_invariant (fst (update config now s_state s)).
Proof.
  intros Hinv. destruct (refresh_due now s_state s) eqn:Hdue.
  - rewrite (update_when_due _ _ _ _ Hdue).
    apply update_refresh_invariant; [exact (refresh_due_screen _ _ _ Hdue) | exact Hinv].
  - rewrite (update_when_not_due _ _ _ _ Hdue). exact Hinv.
Qed.

Lemma alarmTick_invariant config s :
  screen_invariant s -> screen_invariant (alarmTick config s).
Proof.
  intros Hinv.
  destruct (alarmState s) eqn:Hst;
    [rewrite alarmTick_idle by (right; right; exact Hst); exact Hinv | |].
  - (* Active *)
    destruct Hinv as (Hbg & Hscr & Hex & Hph & Hdr & Htm).
    assert (Hs : screen s = true) by (apply Hscr; rewrite Hst; discriminate).
    rewrite alarmTick_active by (rewrite ?Hbg; assumption).
    unfold screen_invariant.
    destruct s as [scr bg lr st tm ph dr aS aH aG pk cs iS iH iG]; simpl in *.
    subst st.
    repeat match goal with
           | |- context [if ?b then _ else _] => destruct b eqn:?; simpl
           end;
      repeat split; intros; auto; try discriminate; try lia.
  - (* Exiting *)
    destruct Hinv as (Hbg & Hscr & Hex & Hph & Hdr & Htm).
    assert (Hs : screen s = true) by (apply Hscr; rewrite Hst; discriminate).
    destruct (Hex Hst) as (Hd & HaS & HaH & HaG).
    rewrite alarmTick_exiting by (rewrite ?Hbg; assumption).
    pose proof (timer_period_pause _ Htm) as Hpause.
    unfold screen_invariant, pause_alarm_timer.
    destruct s as [scr bg lr st tm ph dr aS aH aG pk cs iS iH iG]; simpl in *.
    subst st.
    repeat match goal with
           | |- context [if ?b then _ else _] => destruct b eqn:?; simpl
           end;
      repeat split; intros; auto; try discriminate; try lia.
Qed.

Lemma apply_event_invariant ev s :
  screen_invariant s -> screen_invariant (apply_event ev s).
Proof.
  destruct ev as [| | config now s_state | config]; simpl.
  - apply create_invariant.
  - apply destroy_invariant.
  - apply update_invariant.
  - apply alarmTick_invariant.
Qed.

(** Every state the screen can be in satisfies the invariant. *)
Lemma reachable_invariant s : reachable s -> screen_invariant s.
Proof.
  induction 1 as [| s ev Hreach IH].
  - exact initial_screen_invariant.
  - apply apply_event_invariant. exact IH.
Qed.

Lemma reachable_run evs : forall s, reachable s -> reachable (run evs s).
Proof.
  induction evs as [| ev evs IH]; intros s Hs; simpl.
  - exact Hs.
  - apply IH. apply reachable_step. exact Hs.
Qed.

Lemma exiting_screen_reachable : reachable exiting_screen.
Proof. apply reachable_run. apply reachable_initial. Qed.

Lemma alarmed_screen_reachable : reachable alarmed_screen.
Proof. apply reachable_run. apply reachable_initial. Qed.

(** *** Reasserting the alarm while it fades out *)

Lemma update_alarm_state_wanted config now p1 p2 p3 s :
  alarm_wanted (update_alarm_state config now p1 p2 p3 s) = alarm_wanted s.
Proof.
  unfold alarm_wanted.
  change (category_flag Solar (update_alarm_state config now p1 p2 p3 s)
          || category_flag Home (update_alarm_state config now p1 p2 p3 s)
          || category_flag Grid (update_alarm_state config now p1 p2 p3 s)
          = category_flag Solar s || category_flag Home s || category_flag Grid s).
  rewrite !update_alarm_state_flag. reflexivity.
Qed.

Lemma update_alarm_state_reassert config now p1 p2 p3 s :
  alarm_wanted s = true -> alarmState s = Exiting ->
  let s' := update_alarm_state config now p1 p2 p3 s in
  alarmState s' = Active /\ alarmDir s' = 1 /\ alarmPhase s' = alarmPhase s
  /\ alarmPeakColor s' = alarmPeakColor s /\ alarmClearStartMs s' = 0.
Proof.
  intros Hw Hst. unfold update_alarm_state. rewrite Hw.
  destruct s as [scr bg lr st tm ph dr aS aH aG pk cs iS iH iG]; simpl in *.
  subst st. simpl. repeat split; reflexivity.
Qed.

Lemma update_alarm_state_exiting_idle config now p1 p2 p3 s :
  alarm_wanted s = false -> alarmState s = Exiting ->
  update_alarm_state config now p1 p2 p3 s = s.
Proof.
  intros Hw Hst. unfold update_alarm_state. rewrite Hw, Hst. reflexivity.
Qed.

Lemma update_refresh_wanted config now solar_kw grid_kw s :
  alarm_wanted (update_refresh config now solar_kw grid_kw s)
  = alarm_wanted (update_flags config now solar_kw grid_kw s).
Proof. unfold update_refresh. apply update_alarm_state_wanted. Qed.

Lemma update_refresh_reassert config now solar_kw grid_kw s :
  alarm_wanted (update_flags config now solar_kw grid_kw s) = true ->
  alarmState s = Exiting ->
  alarmState (update_refresh config now solar_kw grid_kw s) = Active
  /\ alarmDir (update_refresh config now solar_kw grid_kw s) = 1
  /\ alarmPhase (update_refresh config now solar_kw grid_kw s) = alarmPhase s
  /\ alarmPeakColor (update_refresh config now solar_kw grid_kw s) = alarmPeakColor s
  /\ alarmClearStartMs (update_refresh config now solar_kw grid_kw s) = 0.
Proof.
  intros Hw Hst.
  exact (update_alarm_state_reassert config now (alarmSolar s) (alarmHome s) (alarmGrid s)
           (update_flags config now solar_kw grid_kw s) Hw Hst).
Qed.

(** C3, as the code has it.  When [update] refreshes in state [Exiting]
    and the alarm is wanted, the state becomes [Active] and the
    direction is set to +1, whatever it was: the pulse climbs again
    from the phase it had reached.  The phase and the latched peak
    colour are unchanged (no relatch) and no clear delay is pending. *)
Theorem reassert_while_exiting_climbs_again config now s_state s :
  refresh_due now s_state s = true ->
  alarmState s = Exiting ->
  alarm_wanted (fst (update config now s_state s)) = true ->
  let s' := fst (update config now s_state s) in
  alarmState s' = Active
  /\ alarmDir s' = 1
  /\ alarmPhase s' = alarmPhase s
  /\ alarmPeakColor s' = alarmPeakColor s
  /\ alarmClearStartMs s' = 0.
Proof.
  intros Hdue Hst Hw. cbv zeta.
  rewrite (update_when_due _ _ _ _ Hdue) in Hw |- *.
  rewrite update_refresh_wanted in Hw.
  apply update_refresh_reassert; assumption.
Qed.

Lemma exiting_screen_facts :
  alarmState exiting_screen = Exiting
  /\ alarmPhase exiting_screen = 100
  /\ alarmDir exiting_screen = -1
  /\ alarmPeakColor exiting_screen = lv_color_make 255 0 0.
Proof. vm_compute. repeat split; reflexivity. Qed.

(** The screen fades out at phase 100 with direction -1; 3.1 kW of
    solar arrives. *)
Lemma reassert_while_exiting_climbs_again_witness :
  let s' := fst (update (Some sample_config) 2240 (store_for Solar (of_ratio 31 10))
                   exiting_screen) in
  refresh_due 2240 (store_for Solar (of_ratio 31 10)) exiting_screen = true
  /\ alarmState exiting_screen = Exiting
  /\ alarm_wanted s' = true
  /\ alarmState s' = Active
  /\ alarmDir s' = 1
  /\ alarmPhase s' = alarmPhase exiting_screen
  /\ alarmPeakColor s' = alarmPeakColor exiting_screen
  /\ alarmClearStartMs s' = 0.
Proof.
  intros s'.
  assert (Hdue : refresh_due 2240 (store_for Solar (of_ratio 31 10)) exiting_screen = true)
    by (vm_compute; reflexivity).
  assert (Hst : alarmState exiting_screen = Exiting) by (vm_compute; reflexivity).
  assert (Hw : alarm_wanted s' = true) by (vm_compute; reflexivity).
  split; [exact Hdue |].
  split; [exact Hst |].
  split; [exact Hw |].
  exact (reassert_while_exiting_climbs_again (Some sample_config) 2240
           (store_for Solar (of_ratio 31 10)) exiting_screen Hdue Hst Hw).
Defined.

(** C3 as stated fails: from [Exiting] with phase 100 and direction -1,
    the tick that reasserts the alarm leaves the direction at +1, not
    at the -1 it had. *)
Lemma reassert_while_exiting_resets_direction :
  let s' := apply_event reassert_event exiting_screen in
  reachable exiting_screen
  /\ alarmState exiting_screen = Exiting
  /\ alarmPhase exiting_screen = 100
  /\ alarmDir exiting_screen = -1
  /\ alarm_wanted s' = true
  /\ alarmState s' = Active
  /\ alarmDir s' = 1
  /\ alarmDir s' <> alarmDir exiting_screen.
Proof.
  intros s'.
  split; [exact exiting_screen_reachable |].
  vm_compute. repeat split; try reflexivity. discriminate.
Qed.

(** *** Leaving [Exiting] *)

Lemma timer_tick_ms (tm : option lv_timer_t) :
  (forall t, tm = Some t -> period t = 40) ->
  match tm with Some t => period t | None => 40 end = 40.
Proof. intros H. destruct tm as [t |]; [apply H |]; reflexivity. Qed.

(** One tick in a reachable [Exiting] state: the phase goes down by the
    exit step, and the alarm stops when that reaches 0. *)
Lemma alarmTick_exiting_down config s :
  screen_invariant s -> alarmState s = Exiting ->
  let step := pulse_step_exit (pulse_step_active 40 (pulse_cycle_ms config)) in
  alarmTick config s
  = if alarmPhase s - step <=? 0 then
      pause_alarm_timer
        (set_alarmClearStartMs 0
           (set_alarmPeakColor alarm_default_peak_color
              (set_alarmPhase 0 (set_alarmState Off s))))
    else set_alarmPhase (alarmPhase s - step) s.
Proof.
  intros (Hbg & Hscr & Hex & Hph & Hdr & Htm) Hst step.
  assert (Hs : screen s = true) by (apply Hscr; rewrite Hst; discriminate).
  destruct (Hex Hst) as (Hd & _).
  rewrite alarmTick_exiting by (rewrite ?Hbg; assumption).
  rewrite (timer_tick_ms _ Htm), Hd. fold step.
  pose proof (pulse_step_exit_pos 40 (pulse_cycle_ms config)) as Hstep. fold step in Hstep.
  replace (alarmPhase s + -1 * step) with (alarmPhase s - step) by lia.
  destruct (Z.geb_spec (alarmPhase s - step) 255); [lia | reflexivity].
Qed.

(** C5, as the code has it.  In every reachable [Exiting] state the
    direction is -1 and the three per-category flags are false.  An
    animation tick there lowers the phase by the exit step (at least
    1); when that reaches 0 or less the state becomes [Off] with phase
    0 and the default peak colour, the flags still all false; otherwise
    the state stays [Exiting] with direction -1: the tick never turns
    the direction to +1.  Besides that tick, [Exiting] is left in two
    other ways: [update] moves to [Active] (direction +1) when the
    alarm is wanted again, and [destroy] moves to [Off]. *)
Theorem exiting_ends_at_phase_zero s :
  reachable s ->
  alarmState s = Exiting ->
  (alarmDir s = -1 /\ alarmSolar s = false /\ alarmHome s = false /\ alarmGrid s = false)
  /\ (forall config,
         let step := pulse_step_exit (pulse_step_active 40 (pulse_cycle_ms config)) in
         let s' := alarmTick config s in
         1 <= step
         /\ (alarmPhase s - step <= 0 ->
             alarmState s' = Off /\ alarmPhase s' = 0
             /\ alarmPeakColor s' = alarm_default_peak_color
             /\ alarmSolar s' = false /\ alarmHome s' = false /\ alarmGrid s' = false)
         /\ (0 < alarmPhase s - step ->
             alarmState s' = Exiting /\ alarmDir s' = -1
             /\ alarmPhase s' = alarmPhase s - step))
  /\ (forall ev,
         let s' := apply_event ev s in
         alarmState s' = Exiting
         \/ (alarmState s' = Off
             /\ (ev = EvDestroy \/ exists config, ev = EvAlarmTick config))
         \/ (alarmState s' = Active /\ alarmDir s' = 1 /\ alarm_wanted s' = true
             /\ exists config now s_state, ev = EvUpdate config now s_state)).
Proof.
  intros Hreach Hst.
  pose proof (reachable_invariant s Hreach) as Hinv.
  assert (Hflags : alarmDir s = -1 /\ alarmSolar s = false /\ alarmHome s = false
                   /\ alarmGrid s = false)
    by (destruct Hinv as (_ & _ & Hex & _); exact (Hex Hst)).
  assert (Hscr : screen s = true)
    by (destruct Hinv as (_ & Hs & _); apply Hs; rewrite Hst; discriminate).
  split; [exact Hflags |].
  destruct Hflags as (Hd & HaS & HaH & HaG).
  split.
  - intros config step s'. subst s'.
    rewrite (alarmTick_exiting_down config s Hinv Hst). fold step.
    split; [exact (pulse_step_exit_pos 40 (pulse_cycle_ms config)) |].
    destruct (Z.leb_spec (alarmPhase s - step) 0) as [Hle | Hgt].
    + split; [intros _ | intros Hpos; lia].
      destruct s; simpl in *. repeat split; assumption || reflexivity.
    + split; [intros Hle; lia | intros _].
      destruct s; simpl in *. repeat split; assumption || reflexivity.
  - intros [| | config now s_state | config] s'; subst s'; simpl.
    + left. unfold create. rewrite Hscr. exact Hst.
    + right. left. split; [| left; reflexivity].
      unfold destroy. rewrite Hscr. reflexivity.
    + destruct (refresh_due now s_state s) eqn:Hdue.
      * rewrite (update_when_due _ _ _ _ Hdue).
        destruct (alarm_wanted
                    (update_flags config now (solar_value s_state) (grid_value s_state) s))
          eqn:Hw.
        -- right. right.
           destruct (update_refresh_reassert config now _ _ s Hw Hst) as (E1 & E2 & _).
           split; [exact E1 |]. split; [exact E2 |].
           split; [rewrite update_refresh_wanted; exact Hw |].
           exists config, now, s_state. reflexivity.
        -- left. unfold update_refresh.
           rewrite update_alarm_state_exiting_idle; [exact Hst | exact Hw | exact Hst].
      * left. rewrite (update_when_not_due _ _ _ _ Hdue). exact Hst.
    + rewrite (alarmTick_exiting_down config s Hinv Hst).
      destruct (alarmPhase s - pulse_step_exit (pulse_step_active 40 (pulse_cycle_ms config))
                <=? 0).
      * right. left. split; [reflexivity |]. right. exists config. reflexivity.
      * left. exact Hst.
Qed.

(** From phase 100 the exit step of 15 needs seven ticks: six of them
    leave phase 10 in [Exiting], the seventh stops the alarm. *)
Lemma exiting_ends_at_phase_zero_witness :
  let s6 := run (repeat (EvAlarmTick (Some sample_config)) 6) exiting_screen in
  let s7 := alarmTick (Some sample_config) s6 in
  reachable s6
  /\ alarmState s6 = Exiting
  /\ alarmPhase s6 = 10
  /\ pulse_step_exit (pulse_step_active 40 (pulse_cycle_ms (Some sample_config))) = 15
  /\ (alarmDir s6 = -1 /\ alarmSolar s6 = false /\ alarmHome s6 = false
      /\ alarmGrid s6 = false)
  /\ (alarmState s7 = Off /\ alarmPhase s7 = 0
      /\ alarmPeakColor s7 = alarm_default_peak_color
      /\ alarmSolar s7 = false /\ alarmHome s7 = false /\ alarmGrid s7 = false).
Proof.
  intros s6 s7.
  assert (Hreach : reachable s6) by (apply reachable_run; exact exiting_screen_reachable).
  assert (Hst : alarmState s6 = Exiting) by (vm_compute; reflexivity).
  split; [exact Hreach |].
  split; [exact Hst |].
  split; [vm_compute; reflexivity |].
  split; [vm_compute; reflexivity |].
  split; [exact (proj1 (exiting_ends_at_phase_zero s6 Hreach Hst)) |].
  refine (proj1 (proj2 (proj1 (proj2 (exiting_ends_at_phase_zero s6 Hreach Hst))
                          (Some sample_config))) _).
  vm_compute. discriminate.
Defined.

(** C5 as stated fails: [Exiting] is also left by [update].  From the
    reachable [Exiting] state with phase 100, the tick that reasserts
    the alarm goes to [Active] with the phase still 100: the state was
    left without the phase reaching 0 and without passing through
    [Off]. *)
Lemma exiting_left_by_update_to_active :
  let s' := apply_event reassert_event exiting_screen in
  reachable exiting_screen
  /\ alarmState exiting_screen = Exiting
  /\ alarmPhase exiting_screen = 100
  /\ alarmState s' = Active
  /\ alarmPhase s' = 100
  /\ alarmState s' <> Exiting
  /\ alarmState s' <> Off.
Proof.
  intros s'.
  split; [exact exiting_screen_reachable |].
  vm_compute. repeat split; try reflexivity; discriminate.
Qed.

(** ** The pulse driver *)

Lemma pulse_cycle_ms_range config : 200 <= pulse_cycle_ms config <= 10000.
Proof.
  unfold pulse_cycle_ms.
  destruct config as [c |].
  - destruct (Z.ltb_spec (energy_alarm_pulse_cycle_ms c) 200).
    + simpl. lia.
    + destruct (Z.gtb_spec (energy_alarm_pulse_cycle_ms c) 10000); lia.
  - simpl. lia.
Qed.

Lemma pulse_cycle_ms_in_range c :
  200 <= energy_alarm_pulse_cycle_ms c <= 10000 ->
  pulse_cycle_ms (Some c) = energy_alarm_pulse_cycle_ms c.
Proof.
  intros H. unfold pulse_cycle_ms.
  destruct (Z.ltb_spec (energy_alarm_pulse_cycle_ms c) 200); [lia |].
  destruct (Z.gtb_spec (energy_alarm_pulse_cycle_ms c) 10000); [lia | reflexivity].
Qed.

(** [round_div n d] is the integer nearest to [n / d], the upper one
    when two are equally near. *)
Lemma round_div_nearest n d :
  0 < d -> 2 * n - d < 2 * d * round_div n d <= 2 * n + d.
Proof.
  intros Hd. unfold round_div.
  pose proof (Z.div_mod (2 * n + d) (2 * d) ltac:(lia)) as Hdm.
  pose proof (Z.mod_pos_bound (2 * n + d) (2 * d) ltac:(lia)) as Hb.
  lia.
Qed.

Lemma all_from_spec f count :
  forall lo, all_from f lo count = true ->
  forall z, lo <= z < lo + Z.of_nat count -> f z = true.
Proof.
  induction count as [| n IH]; intros lo Hall z Hz.
  - simpl in Hz. lia.
  - simpl in Hall. apply andb_true_iff in Hall. destruct Hall as [Hlo Hrest].
    destruct (Z.eq_dec z lo) as [-> | Hne]; [exact Hlo |].
    apply (IH (lo + 1) Hrest). lia.
Qed.

Lemma step_agrees_all : all_from step_agrees 200 (Z.to_nat 9801) = true.
Proof. vm_compute. reflexivity. Qed.

(** For every cycle the driver can use, the step computed in [float]
    for the 40 ms timer is the exactly rounded [510 * 40 / cycle]. *)
Lemma pulse_step_active_exact cycle_ms :
  200 <= cycle_ms <= 10000 ->
  pulse_step_active 40 cycle_ms = Z.max 1 (round_div (510 * 40) cycle_ms).
Proof.
  intros Hc.
  pose proof (all_from_spec step_agrees (Z.to_nat 9801) 200 step_agrees_all cycle_ms) as H.
  apply Z.eqb_eq. apply H. lia.
Qed.

(** C6.  On an animation tick in a reachable [Active] state the phase
    moves by [step] in the current direction, where [step] is
    [510 * tick / cycle] rounded to the nearest integer and at least 1,
    [tick] being the 40 ms period of the timer and [cycle] the
    configured pulse cycle (kept within 200..10000 ms); the result is
    clamped to 0..255, the direction becomes -1 on reaching 255 (and +1
    on reaching 0), and the state stays [Active].  With a cycle of 2000
    ms the step is 10, and 13 ticks from phase 0 and direction +1 give
    phase 130. *)
Theorem active_tick_advances_phase :
  (forall config s,
      reachable s ->
      alarmState s = Active ->
      let step := Z.max 1 (round_div (510 * 40) (pulse_cycle_ms config)) in
      let next := alarmPhase s + alarmDir s * step in
      let s' := alarmTick config s in
      alarmState s' = Active
      /\ alarmPhase s' = Z.max 0 (Z.min 255 next)
      /\ alarmDir s' = (if next >=? 255 then -1 else if next <=? 0 then 1 else alarmDir s))
  /\ (forall n d, 0 < d -> 2 * n - d < 2 * d * round_div n d <= 2 * n + d)
  /\ (forall c, 200 <= energy_alarm_pulse_cycle_ms c <= 10000 ->
                pulse_cycle_ms (Some c) = energy_alarm_pulse_cycle_ms c)
  /\ (pulse_cycle_ms (Some sample_config) = 2000
      /\ Z.max 1 (round_div (510 * 40) 2000) = 10)
  /\ (alarmState alarmed_screen = Active
      /\ alarmPhase alarmed_screen = 0
      /\ alarmDir alarmed_screen = 1
      /\ alarmPhase (run (repeat (EvAlarmTick (Some sample_config)) 13) alarmed_screen)
         = 130).
Proof.
  split; [| split; [exact round_div_nearest | split; [exact pulse_cycle_ms_in_range |]]].
  - intros config s Hreach Hst step next s'. subst s'.
    destruct (reachable_invariant s Hreach) as (Hbg & Hscr & _ & Hph & Hdr & Htm).
    assert (Hs : screen s = true) by (apply Hscr; rewrite Hst; discriminate).
    rewrite alarmTick_active by (rewrite ?Hbg; assumption).
    rewrite (timer_tick_ms _ Htm).
    rewrite (pulse_step_active_exact _ (pulse_cycle_ms_range config)).
    fold step. fold next.
    destruct (Z.geb_spec next 255); [| destruct (Z.leb_spec next 0)];
      destruct s; simpl in *; repeat split; try assumption; lia.
  - split; [split; vm_compute; reflexivity |].
    vm_compute. repeat split; reflexivity.
Qed.

(** The screen just alarmed, with the sample configuration: the tick
    takes the phase from 0 to 10. *)
Lemma active_tick_advances_phase_witness :
  reachable alarmed_screen
  /\ alarmState alarmed_screen = Active
  /\ (let step := Z.max 1 (round_div (510 * 40) (pulse_cycle_ms (Some sample_config))) in
      let next := alarmPhase alarmed_screen + alarmDir alarmed_screen * step in
      let s' := alarmTick (Some sample_config) alarmed_screen in
      alarmState s' = Active
      /\ alarmPhase s' = Z.max 0 (Z.min 255 next)
      /\ alarmDir s' = (if next >=? 255 then -1 else if next <=? 0 then 1
                        else alarmDir alarmed_screen))
  /\ alarmPhase (alarmTick (Some sample_config) alarmed_screen) = 10.
Proof.
  assert (Hst : alarmState alarmed_screen = Active) by (vm_compute; reflexivity).
  split; [exact alarmed_screen_reachable |].
  split; [exact Hst |].
  split; [| vm_compute; reflexivity].
  exact (proj1 active_tick_advances_phase (Some sample_config) alarmed_screen
           alarmed_screen_reachable Hst).
Defined.

(** ** The clear delay *)

Lemma update_alarm_state_clear_delay config now p1 p2 p3 s :
  alarm_wanted s = false -> alarmState s = Active ->
  let delay := clear_delay_of config in
  let start := if alarmClearStartMs s =? 0 then now else alarmClearStartMs s in
  let s' := update_alarm_state config now p1 p2 p3 s in
  (delay = 0 \/ delay <= Int.uint32 (now - start) ->
   alarmState s' = Exiting /\ alarmDir s' = -1 /\ alarmClearStartMs s' = 0)
  /\ (delay <> 0 -> Int.uint32 (now - start) < delay ->
      alarmState s' = Active /\ alarmDir s' = alarmDir s /\ alarmClearStartMs s' = start).
Proof.
  intros Hw Hst delay start s'. subst s'.
  unfold update_alarm_state. rewrite Hw, Hst. fold delay.
  destruct (Z.eqb_spec delay 0) as [Hz | Hnz].
  - split; [intros _ | intros H; contradiction].
    destruct s; simpl. repeat split; reflexivity.
  - assert (Hstart : alarmClearStartMs
                       (if alarmClearStartMs s =? 0 then set_alarmClearStartMs now s else s)
                     = start)
      by (unfold start; destruct (alarmClearStartMs s =? 0); reflexivity).
    rewrite Hstart.
    destruct (Z.geb_spec (Int.uint32 (now - start)) delay) as [Hge | Hlt].
    + split; [intros _ | intros _ H; lia].
      destruct (alarmClearStartMs s =? 0); destruct s; simpl; repeat split; reflexivity.
    + split; [intros [H | H]; [contradiction | lia] | intros _ _].
      split; [| split; [| exact Hstart]];
        destruct (alarmClearStartMs s =? 0); destruct s; simpl in *; assumption || reflexivity.
Qed.

Lemma update_alarm_state_active_wanted config now p1 p2 p3 s :
  alarm_wanted s = true -> alarmState s = Active ->
  let s' := update_alarm_state config now p1 p2 p3 s in
  alarmState s' = Active /\ alarmDir s' = alarmDir s /\ alarmClearStartMs s' = 0.
Proof.
  intros Hw Hst. unfold update_alarm_state. rewrite Hw.
  destruct s; simpl in *. subst. simpl. repeat split; reflexivity.
Qed.

(** What a refresh does in [Active] when the alarm is not wanted: with
    no delay configured, or once the time since the start of the clear
    delay reaches the delay, the state becomes [Exiting] with direction
    -1; before that it stays [Active] and the start is remembered.  The
    start is the stored one, or the current time when none is stored
    (a stored 0 means none). *)
Lemma clear_delay_step config now s_state s :
  refresh_due now s_state s = true ->
  alarmState s = Active ->
  alarm_wanted (fst (update config now s_state s)) = false ->
  let delay := clear_delay_of config in
  let start := if alarmClearStartMs s =? 0 then now else alarmClearStartMs s in
  let s' := fst (update config now s_state s) in
  (delay = 0 \/ delay <= Int.uint32 (now - start) ->
   alarmState s' = Exiting /\ alarmDir s' = -1 /\ alarmClearStartMs s' = 0)
  /\ (delay <> 0 -> Int.uint32 (now - start) < delay ->
      alarmState s' = Active /\ alarmDir s' = alarmDir s /\ alarmClearStartMs s' = start).
Proof.
  intros Hdue Hst Hw. cbv zeta.
  rewrite (update_when_due _ _ _ _ Hdue) in Hw |- *.
  rewrite update_refresh_wanted in Hw.
  exact (update_alarm_state_clear_delay config now (alarmSolar s) (alarmHome s) (alarmGrid s)
           (update_flags config now (solar_value s_state) (grid_value s_state) s) Hw Hst).
Qed.

(** A refresh in [Active] with the alarm wanted keeps [Active] and
    drops a pending clear delay. *)
Lemma clear_delay_cancelled config now s_state s :
  refresh_due now s_state s = true ->
  alarmState s = Active ->
  alarm_wanted (fst (update config now s_state s)) = true ->
  let s' := fst (update config now s_state s) in
  alarmState s' = Active /\ alarmDir s' = alarmDir s /\ alarmClearStartMs s' = 0.
Proof.
  intros Hdue Hst Hw. cbv zeta.
  rewrite (update_when_due _ _ _ _ Hdue) in Hw |- *.
  rewrite update_refresh_wanted in Hw.
  exact (update_alarm_state_active_wanted config now (alarmSolar s) (alarmHome s)
           (alarmGrid s)
           (update_flags config now (solar_value s_state) (grid_value s_state) s) Hw Hst).
Qed.

(** With a delay of 800 ms and the value dropping at 5000 ms, the state
    is [Active] at 5799 ms and [Exiting] at 5801 ms; if the value is
    back at 5400 ms, nothing is pending afterwards. *)
Lemma clear_delay_lifecycle :
  let s0 := run [EvCreate;
                 EvUpdate (Some sample_config) 4000 (store_for Solar (of_ratio 31 10))]
              initial_screen in
  let low := store_for Solar (of_ratio 1 2) in
  let s1 := fst (update (Some sample_config) 5000 low s0) in
  let s2 := fst (update (Some sample_config) 5799 low s1) in
  let s3 := fst (update (Some sample_config) 5801 low s2) in
  let r2 := fst (update (Some sample_config) 5400 (store_for Solar (of_ratio 31 10)) s1) in
  (alarmState s0 = Active /\ alarmClearStartMs s0 = 0)
  /\ (alarmState s1 = Active /\ alarmClearStartMs s1 = 5000)
  /\ (alarmState s2 = Active /\ alarmClearStartMs s2 = 5000)
  /\ (alarmState s3 = Exiting /\ alarmDir s3 = -1 /\ alarmClearStartMs s3 = 0)
  /\ (alarmState r2 = Active /\ alarmClearStartMs r2 = 0).
Proof. vm_compute. repeat split; reflexivity. Qed.

(** C4, where the code misses it.  The alarm is [Active]; the first
    tick on which it is not wanted comes when the millisecond counter
    reads 0 (it wraps every [2^32] ms).  The start written is 0, which
    also means "no delay running", so the tick at 801 ms starts the
    delay again instead of ending it: the state is still [Active],
    with the start at 801.  The same two ticks one millisecond later
    (1 and 802 ms) end in [Exiting]. *)
Theorem clear_delay_lost_at_timestamp_zero :
  let s0 := alarmed_before_wrap in
  let low := store_for Solar (of_ratio 1 2) in
  let s1 := fst (update (Some sample_config) 0 low s0) in
  let s2 := fst (update (Some sample_config) 801 low s1) in
  let t1 := fst (update (Some sample_config) 1 low s0) in
  let t2 := fst (update (Some sample_config) 802 low t1) in
  clear_delay_of (Some sample_config) = 800
  /\ (reachable s0 /\ alarmState s0 = Active)
  /\ (alarm_wanted s1 = false /\ alarmState s1 = Active /\ alarmClearStartMs s1 = 0)
  /\ (alarm_wanted s2 = false /\ alarmState s2 = Active /\ alarmClearStartMs s2 = 801)
  /\ (alarmState t1 = Active /\ alarmClearStartMs t1 = 1)
  /\ alarmState t2 = Exiting.
Proof.
  intros s0 low s1 s2 t1 t2.
  split; [vm_compute; reflexivity |].
  split; [split; [apply reachable_run; apply reachable_initial | vm_compute; reflexivity] |].
  vm_compute. repeat split; reflexivity.
Qed.

(** ** Value parser *)

Lemma is_numeric_iff v :
  json_is_numeric v <-> (is_float v || is_int v || is_long v || is_double v) = true.
Proof.
  unfold json_is_numeric, is_long, is_double.
  destruct v; simpl; split; intros H;
    try discriminate; try reflexivity;
    try (destruct H as [[z0 H] | [f0 H]]; discriminate);
    try (left; eexists; reflexivity); try (right; eexists; reflexivity);
    try (rewrite orb_true_r; reflexivity).
Qed.

Lemma nontrivial_path key :
  key <> ""%string -> key <> "."%string ->
  ((String.length key =? 0)%nat || String.eqb key ".") = false.
Proof.
  intros Hempty Hdot.
  destruct (String.eqb_spec key "."); [contradiction |].
  destruct key; [contradiction | reflexivity].
Qed.

(** C8.  For an extraction key that is neither empty nor ["."], the
    parser succeeds exactly when decoding the payload (into a
    512-byte document) succeeds, the root is an object that has a
    member with that very key, and the value of that member is a
    number; it then returns that number as a [float] with the flag
    true.  In every other case it returns NaN with the flag false.
    The function is total: there is no other outcome. *)
Theorem parse_value_using_path_top_level_key
  (strtod : list Byte.byte -> option float)
  (deserializeJson : Z -> list Byte.byte -> option JsonVariant)
  (payload : list Byte.byte) (key : string) :
  key <> ""%string ->
  key <> "."%string ->
  let r := parse_value_using_path strtod deserializeJson payload (Some key) in
  (exists members v,
      deserializeJson 512 payload = Some (JObject members)
      /\ find_member key members = Some v
      /\ json_is_numeric v
      /\ r = (as_float v, true))
  \/ ((~ exists members v,
          deserializeJson 512 payload = Some (JObject members)
          /\ find_member key members = Some v
          /\ json_is_numeric v)
      /\ r = (NAN, false)).
Proof.
  intros Hempty Hdot r. subst r.
  unfold parse_value_using_path. rewrite (nontrivial_path key Hempty Hdot).
  destruct (deserializeJson 512 payload) as [doc |] eqn:Hdoc.
  - unfold containsKey.
    destruct (json_get doc key) as [v |] eqn:Hget; simpl.
    + destruct doc; simpl in Hget; try discriminate.
      destruct (is_float v || is_int v || is_long v || is_double v) eqn:Hnum.
      * left. exists members, v. repeat split; try assumption.
        apply is_numeric_iff. exact Hnum.
      * right. split; [| reflexivity].
        intros (members' & v' & Hd & Hf & Hn).
        injection Hd as <-. rewrite Hget in Hf. injection Hf as <-.
        apply is_numeric_iff in Hn. rewrite Hn in Hnum. discriminate.
    + right. split; [| reflexivity].
      intros (members' & v' & Hd & Hf & Hn).
      injection Hd as ->. simpl in Hget. rewrite Hget in Hf. discriminate.
  - right. split; [| reflexivity].
    intros (members' & v' & Hd & _). discriminate.
Qed.

(** The payload [{"power":1.5}] with the key ["power"] gives 1.5. *)
Lemma parse_value_using_path_top_level_key_witness :
  ("power" <> "")%string
  /\ ("power" <> ".")%string
  /\ parse_value_using_path sample_strtod sample_deserializeJson sample_payload
       (Some "power"%string) = (of_ratio 3 2, true)
  /\ parse_value_using_path sample_strtod sample_deserializeJson sample_payload
       (Some "energy"%string) = (NAN, false)
  /\ ((exists members v,
          sample_deserializeJson 512 sample_payload = Some (JObject members)
          /\ find_member "power" members = Some v
          /\ json_is_numeric v
          /\ parse_value_using_path sample_strtod sample_deserializeJson sample_payload
               (Some "power"%string) = (as_float v, true))
      \/ ((~ exists members v,
              sample_deserializeJson 512 sample_payload = Some (JObject members)
              /\ find_member "power" members = Some v
              /\ json_is_numeric v)
          /\ parse_value_using_path sample_strtod sample_deserializeJson sample_payload
               (Some "power"%string) = (NAN, false))).
Proof.
  assert (H1 : ("power" <> "")%string) by discriminate.
  assert (H2 : ("power" <> ".")%string) by discriminate.
  split; [exact H1 |].
  split; [exact H2 |].
  split; [vm_compute; reflexivity |].
  split; [vm_compute; reflexivity |].
  exact (parse_value_using_path_top_level_key sample_strtod sample_deserializeJson
           sample_payload "power"%string H1 H2).
Defined.

(* ================================================================== *)
(** * Further properties *)

(** ** The store over a history of operations *)

Lemma run_store_app ops1 ops2 s_state :
  run_store (ops1 ++ ops2) s_state = run_store ops2 (run_store ops1 s_state).
Proof. unfold run_store. apply fold_left_app. Qed.

Lemma run_store_keeps_solar ops :
  forall s_state,
    forallb (fun op => negb (is_set_solar op)) ops = true ->
    solar_value (run_store ops s_state) = solar_value s_state
    /\ solar_update_ms (run_store ops s_state) = solar_update_ms s_state
    /\ solar_updated (run_store ops s_state)
       = solar_updated s_state && negb (existsb is_clearing_snapshot ops).
Proof.
  induction ops as [| op ops IH]; intros s_state Hno.
  - simpl. rewrite andb_true_r. repeat split; reflexivity.
  - simpl in Hno. apply andb_true_iff in Hno. destruct Hno as [Hop Hrest].
    change (run_store (op :: ops) s_state) with (run_store ops (apply_store_op op s_state)).
    destruct (IH (apply_store_op op s_state) Hrest) as (E1 & E2 & E3).
    rewrite E1, E2, E3.
    destruct op as [v t | v t | [|]]; simpl in *; try discriminate;
      repeat split; try reflexivity.
    + rewrite andb_false_r. reflexivity.
Qed.

Lemma run_store_keeps_grid ops :
  forall s_state,
    forallb (fun op => negb (is_set_grid op)) ops = true ->
    grid_value (run_store ops s_state) = grid_value s_state
    /\ grid_update_ms (run_store ops s_state) = grid_update_ms s_state
    /\ grid_updated (run_store ops s_state)
       = grid_updated s_state && negb (existsb is_clearing_snapshot ops).
Proof.
  induction ops as [| op ops IH]; intros s_state Hno.
  - simpl. rewrite andb_true_r. repeat split; reflexivity.
  - simpl in Hno. apply andb_true_iff in Hno. destruct Hno as [Hop Hrest].
    change (run_store (op :: ops) s_state) with (run_store ops (apply_store_op op s_state)).
    destruct (IH (apply_store_op op s_state) Hrest) as (E1 & E2 & E3).
    rewrite E1, E2, E3.
    destruct op as [v t | v t | [|]]; simpl in *; try discriminate;
      repeat split; try reflexivity.
    + rewrite andb_false_r. reflexivity.
Qed.

(** X1.  Whatever was done to the store before, after a write of the
    solar value followed by any operations that do not write it again,
    a snapshot returns that value and its timestamp, and reports it as
    updated exactly when no clearing snapshot was taken since the
    write.  Writes of the grid value do not disturb it.  The same holds
    of the grid value. *)
Theorem store_reports_last_write before value now_ms after s_state :
  (forallb (fun op => negb (is_set_solar op)) after = true ->
   let st := fst (energy_monitor_get_state false
                    (run_store (before ++ OpSetSolar value now_ms :: after) s_state)) in
   solar_value st = value /\ solar_update_ms st = now_ms
   /\ solar_updated st = negb (existsb is_clearing_snapshot after))
  /\ (forallb (fun op => negb (is_set_grid op)) after = true ->
      let st := fst (energy_monitor_get_state false
                       (run_store (before ++ OpSetGrid value now_ms :: after) s_state)) in
      grid_value st = value /\ grid_update_ms st = now_ms
      /\ grid_updated st = negb (existsb is_clearing_snapshot after)).
Proof.
  split; intros Hno; cbv zeta; unfold energy_monitor_get_state; cbn [fst];
    rewrite run_store_app;
    match goal with
    | |- context [run_store (?op :: after) ?st0] =>
        change (run_store (op :: after) st0) with (run_store after (apply_store_op op st0))
    end.
  - destruct (run_store_keeps_solar after
                (apply_store_op (OpSetSolar value now_ms) (run_store before s_state)) Hno)
      as (E1 & E2 & E3).
    rewrite E1, E2, E3. repeat split; reflexivity.
  - destruct (run_store_keeps_grid after
                (apply_store_op (OpSetGrid value now_ms) (run_store before s_state)) Hno)
      as (E1 & E2 & E3).
    rewrite E1, E2, E3. repeat split; reflexivity.
Qed.

(** Solar 2.0 kW is written, then the grid is written and a clearing
    snapshot is taken: the solar value is still 2.0, no longer flagged. *)
Lemma store_reports_last_write_witness :
  let after := [OpSetGrid (of_ratio 12 10) 70; OpSnapshot true] in
  forallb (fun op => negb (is_set_solar op)) after = true
  /\ (let st := fst (energy_monitor_get_state false
                       (run_store ([OpSnapshot true] ++ OpSetSolar (of_ratio 2 1) 50 :: after)
                          energy_monitor_init)) in
      solar_value st = of_ratio 2 1 /\ solar_update_ms st = 50
      /\ solar_updated st = negb (existsb is_clearing_snapshot after)).
Proof.
  intros after.
  assert (Hno : forallb (fun op => negb (is_set_solar op)) after = true) by reflexivity.
  split; [exact Hno |].
  exact (proj1 (store_reports_last_write [OpSnapshot true] (of_ratio 2 1) 50 after
                  energy_monitor_init) Hno).
Defined.

(** ** Classifier and trigger *)

(** X2.  With thresholds in order and a present value, the alarm
    trigger of a category fires exactly when the classifier puts the
    value in the Warning tier, and the colour shown is then the
    category's warning colour. *)
Theorem trigger_iff_warning_tier cfg kw use_abs :
  thresholds_monotone cfg ->
  isnan kw = false ->
  (is_triggered_t2 (Some cfg) kw use_abs = true
   <-> tier_of_mkw cfg (kw_to_mkw_round (measured_kw kw use_abs)) = Warning)
  /\ (is_triggered_t2 (Some cfg) kw use_abs = true ->
      pick_category_color (Some cfg) kw use_abs
      = lv_color_from_rgb_u32 (color_warning_rgb cfg)).
Proof.
  intros Hmono Hnan.
  assert (Hiff : is_triggered_t2 (Some cfg) kw use_abs = true
                 <-> tier_of_mkw cfg (kw_to_mkw_round (measured_kw kw use_abs)) = Warning).
  { destruct (tier_of_mkw_ranges cfg (kw_to_mkw_round (measured_kw kw use_abs)) Hmono)
      as (_ & _ & _ & Hw).
    rewrite Hw. unfold is_triggered_t2, measured_kw. rewrite Hnan.
    rewrite Z.geb_le. reflexivity. }
  split; [exact Hiff |].
  intros Htrig. rewrite (pick_category_color_by_tier cfg kw use_abs Hnan).
  rewrite (proj1 Hiff Htrig). reflexivity.
Qed.

(** With the default thresholds, -3.2 kW of solar (magnitude 3200 mkW)
    triggers and is shown in the warning colour. *)
Lemma trigger_iff_warning_tier_witness :
  thresholds_monotone default_category
  /\ isnan (of_ratio (-32) 10) = false
  /\ is_triggered_t2 (Some default_category) (of_ratio (-32) 10) true = true
  /\ pick_category_color (Some default_category) (of_ratio (-32) 10) true
     = lv_color_from_rgb_u32 (color_warning_rgb default_category).
Proof.
  assert (Htrig : is_triggered_t2 (Some default_category) (of_ratio (-32) 10) true = true)
    by (vm_compute; reflexivity).
  split; [exact default_category_monotone |].
  split; [reflexivity |].
  split; [exact Htrig |].
  exact (proj2 (trigger_iff_warning_tier default_category (of_ratio (-32) 10) true
                  default_category_monotone eq_refl) Htrig).
Defined.

Lemma tier_of_mkw_monotone cfg m1 m2 :
  m1 <= m2 -> tier_rank (tier_of_mkw cfg m1) <= tier_rank (tier_of_mkw cfg m2).
Proof.
  intros Hle. unfold tier_of_mkw.
  destruct (Z.ltb_spec m1 (threshold_mkw0 cfg)), (Z.ltb_spec m2 (threshold_mkw0 cfg)),
    (Z.ltb_spec m1 (threshold_mkw1 cfg)), (Z.ltb_spec m2 (threshold_mkw1 cfg)),
    (Z.ltb_spec m1 (threshold_mkw2 cfg)), (Z.ltb_spec m2 (threshold_mkw2 cfg));
    simpl; lia.
Qed.

(** X3.  The classifier is monotone in the milli-unit measure, whatever
    the thresholds: of two present values, the one with the larger
    measure is shown in the colour of the same or a higher tier. *)
Theorem classifier_monotone cfg kw1 kw2 use_abs :
  isnan kw1 = false ->
  isnan kw2 = false ->
  kw_to_mkw_round (measured_kw kw1 use_abs) <= kw_to_mkw_round (measured_kw kw2 use_abs) ->
  exists t1 t2,
    pick_category_color (Some cfg) kw1 use_abs = lv_color_from_rgb_u32 (tier_rgb cfg t1)
    /\ pick_category_color (Some cfg) kw2 use_abs = lv_color_from_rgb_u32 (tier_rgb cfg t2)
    /\ t1 = tier_of_mkw cfg (kw_to_mkw_round (measured_kw kw1 use_abs))
    /\ t2 = tier_of_mkw cfg (kw_to_mkw_round (measured_kw kw2 use_abs))
    /\ tier_rank t1 <= tier_rank t2.
Proof.
  intros H1 H2 Hle.
  exists (tier_of_mkw cfg (kw_to_mkw_round (measured_kw kw1 use_abs))),
    (tier_of_mkw cfg (kw_to_mkw_round (measured_kw kw2 use_abs))).
  split; [apply pick_category_color_by_tier; exact H1 |].
  split; [apply pick_category_color_by_tier; exact H2 |].
  split; [reflexivity |]. split; [reflexivity |].
  apply tier_of_mkw_monotone. exact Hle.
Qed.

Lemma classifier_monotone_measures :
  kw_to_mkw_round (measured_kw (of_ratio 12 10) true)
  <= kw_to_mkw_round (measured_kw (of_ratio (-29) 10) true).
Proof. vm_compute. discriminate. Qed.

(** 1.2 kW against -2.9 kW (magnitudes 1200 and 2900 mkW). *)
Lemma classifier_monotone_witness :
  isnan (of_ratio 12 10) = false
  /\ isnan (of_ratio (-29) 10) = false
  /\ kw_to_mkw_round (measured_kw (of_ratio 12 10) true)
     <= kw_to_mkw_round (measured_kw (of_ratio (-29) 10) true)
  /\ exists t1 t2,
      pick_category_color (Some default_category) (of_ratio 12 10) true
      = lv_color_from_rgb_u32 (tier_rgb default_category t1)
      /\ pick_category_color (Some default_category) (of_ratio (-29) 10) true
         = lv_color_from_rgb_u32 (tier_rgb default_category t2)
      /\ t1 = tier_of_mkw default_category (kw_to_mkw_round (measured_kw (of_ratio 12 10) true))
      /\ t2 = tier_of_mkw default_category
                (kw_to_mkw_round (measured_kw (of_ratio (-29) 10) true))
      /\ tier_rank t1 <= tier_rank t2.
Proof.
  split; [reflexivity |].
  split; [reflexivity |].
  split; [exact classifier_monotone_measures |].
  exact (classifier_monotone default_category (of_ratio 12 10) (of_ratio (-29) 10) true
           eq_refl eq_refl classifier_monotone_measures).
Defined.

(** ** The three bands of the hysteresis *)

Lemma is_triggered_t2_present cfg kw use_abs :
  isnan kw = false ->
  is_triggered_t2 (Some cfg) kw use_abs
  = (threshold_mkw2 cfg <=? kw_to_mkw_round (measured_kw kw use_abs)).
Proof.
  intros Hnan. unfold is_triggered_t2, measured_kw. rewrite Hnan.
  rewrite Z.geb_leb. reflexivity.
Qed.

(** X4.  On a refresh, for a present value with measure [m]: the flag
    of the category is set when [t2 <= m], cleared when [m] is below
    the clear threshold, and keeps its previous value in between; the
    clear threshold is never above [t2], so one value cannot both
    trigger and clear. *)
Theorem alarm_flag_three_bands c now s_state s cat :
  refresh_due now s_state s = true ->
  isnan (category_value cat (solar_value s_state) (grid_value s_state)) = false ->
  0 <= threshold_mkw2 (category_config cat c) <= Int.INT32_MAX ->
  0 <= energy_alarm_clear_hysteresis_mkw c <= Int.INT32_MAX ->
  let m := category_mkw cat (solar_value s_state) (grid_value s_state) in
  let t2 := threshold_mkw2 (category_config cat c) in
  let clear_threshold :=
    clear_threshold_of (category_config cat c) (category_use_abs cat)
      (energy_alarm_clear_hysteresis_mkw c) in
  clear_threshold <= t2
  /\ category_flag cat (fst (update (Some c) now s_state s))
     = (if t2 <=? m then true
        else if m <? clear_threshold then false
        else category_flag cat s).
Proof.
  intros Hdue Hnan Ht2 Hhyst m t2 clear_threshold.
  assert (Hle : clear_threshold <= t2).
  { unfold clear_threshold, clear_threshold_of. fold t2.
    destruct (category_use_abs cat); lia. }
  split; [exact Hle |].
  rewrite (update_when_due _ _ _ _ Hdue), update_refresh_flag.
  rewrite (clear_hyst_of_nonneg c) by lia.
  change (option_map (category_config cat) (Some c)) with (Some (category_config cat c)).
  rewrite is_cleared_t2_present;
    [| exact Hnan | unfold Int.is_int32, Int.INT32_MIN, Int.INT32_MAX in *; lia].
  rewrite is_triggered_t2_present by exact Hnan.
  fold (category_mkw cat (solar_value s_state) (grid_value s_state)).
  fold m. fold t2. fold clear_threshold.
  destruct (Z.leb_spec t2 m), (Z.ltb_spec m clear_threshold), (category_flag cat s);
    simpl; try reflexivity; lia.
Qed.

(** The grid category, not alarmed, receives 2.9 kW: between the clear
    threshold 2800 and [t2 = 3000] the flag stays as it was, unset. *)
Lemma alarm_flag_three_bands_witness :
  let s := create initial_screen in
  let st := store_for Grid (of_ratio 29 10) in
  refresh_due 1000 st s = true
  /\ isnan (category_value Grid (solar_value st) (grid_value st)) = false
  /\ category_mkw Grid (solar_value st) (grid_value st) = 2900
  /\ category_flag Grid s = false
  /\ category_flag Grid (fst (update (Some sample_config) 1000 st s))
     = (if threshold_mkw2 (category_config Grid sample_config)
           <=? category_mkw Grid (solar_value st) (grid_value st)
        then true
        else if category_mkw Grid (solar_value st) (grid_value st)
                <? clear_threshold_of (category_config Grid sample_config)
                     (category_use_abs Grid)
                     (energy_alarm_clear_hysteresis_mkw sample_config)
             then false
             else category_flag Grid s).
Proof.
  intros s st.
  assert (Hdue : refresh_due 1000 st s = true) by (vm_compute; reflexivity).
  assert (Hnan : isnan (category_value Grid (solar_value st) (grid_value st)) = false)
    by (vm_compute; reflexivity).
  assert (Ht2 : 0 <= threshold_mkw2 (category_config Grid sample_config) <= Int.INT32_MAX)
    by (vm_compute; split; discriminate).
  assert (Hhyst : 0 <= energy_alarm_clear_hysteresis_mkw sample_config <= Int.INT32_MAX)
    by (vm_compute; split; discriminate).
  split; [exact Hdue |].
  split; [exact Hnan |].
  split; [vm_compute; reflexivity |].
  split; [vm_compute; reflexivity |].
  exact (proj2 (alarm_flag_three_bands sample_config 1000 st s Grid Hdue Hnan Ht2 Hhyst)).
Defined.

(** ** Starting the alarm *)

Lemma update_flags_flag config now solar_kw grid_kw s cat :
  category_flag cat (update_flags config now solar_kw grid_kw s)
  = if category_flag cat s
    then negb (is_cleared_t2 (option_map (category_config cat) config)
                 (category_value cat solar_kw grid_kw) (category_use_abs cat)
                 (clear_hyst_of config))
    else is_triggered_t2 (option_map (category_config cat) config)
           (category_value cat solar_kw grid_kw) (category_use_abs cat).
Proof. destruct cat; reflexivity. Qed.

Lemma update_alarm_state_from_off c now s :
  alarmState s = Off ->
  let s' := update_alarm_state (Some c) now false false false s in
  (alarm_wanted s = true ->
   alarmState s' = Active /\ alarmDir s' = 1 /\ alarmPhase s' = alarmPhase s
   /\ alarmPeakColor s'
      = lv_color_from_rgb_u32
          (color_warning_rgb
             (category_config
                (if alarmSolar s then Solar else if alarmHome s then Home else Grid) c)))
  /\ (alarm_wanted s = false -> s' = s).
Proof.
  intros Hst. unfold update_alarm_state, alarm_wanted, latch_peak_color, resume_alarm_timer.
  destruct s as [scr bg lr st tm ph dr aS aH aG pk cs iS iH iG]; simpl in *. subst st.
  destruct aS, aH, aG; simpl; split; intros H; try discriminate;
    repeat split; reflexivity.
Qed.

Lemma has_warning_as_triggers c s_state :
  energy_monitor_has_warning (Some c) s_state
  = is_triggered_t2 (Some (energy_solar_colors c)) (solar_value s_state) true
    || is_triggered_t2 (Some (energy_home_colors c))
         (home_kw_of (solar_value s_state) (grid_value s_state)) true
    || is_triggered_t2 (Some (energy_grid_colors c)) (grid_value s_state) false.
Proof.
  unfold energy_monitor_has_warning, energy_monitor_get_state. cbn [fst].
  destruct (is_triggered_t2 (Some (energy_solar_colors c)) (solar_value s_state) true);
    [reflexivity |].
  destruct (is_triggered_t2 (Some (energy_home_colors c))
              (home_kw_of (solar_value s_state) (grid_value s_state)) true);
    [reflexivity |].
  destruct (is_triggered_t2 (Some (energy_grid_colors c)) (grid_value s_state) false);
    reflexivity.
Qed.

(** X5.  From [Off] with no category flagged, a refresh starts the
    alarm exactly when [energy_monitor_has_warning] holds of the same
    store: the state becomes [Active] with direction +1, the phase
    untouched, and the peak colour latched to the warning colour of the
    first triggering category in the order solar, home, grid.
    Otherwise the state stays [Off] and the peak colour is kept. *)
Theorem alarm_starts_iff_has_warning c now s_state s :
  refresh_due now s_state s = true ->
  alarmState s = Off ->
  alarm_wanted s = false ->
  let s' := fst (update (Some c) now s_state s) in
  (energy_monitor_has_warning (Some c) s_state = true ->
   alarmState s' = Active /\ alarmDir s' = 1 /\ alarmPhase s' = alarmPhase s
   /\ alarmPeakColor s'
      = lv_color_from_rgb_u32
          (color_warning_rgb
             (category_config (first_triggered c (solar_value s_state) (grid_value s_state))
                c)))
  /\ (energy_monitor_has_warning (Some c) s_state = false ->
      alarmState s' = Off /\ alarm_wanted s' = false
      /\ alarmPeakColor s' = alarmPeakColor s /\ alarmPhase s' = alarmPhase s).
Proof.
  intros Hdue Hst Hw. cbv zeta.
  rewrite (update_when_due _ _ _ _ Hdue).
  unfold alarm_wanted in Hw.
  apply orb_false_iff in Hw. destruct Hw as [Hw HG].
  apply orb_false_iff in Hw. destruct Hw as [HS HH].
  unfold update_refresh. rewrite HS, HH, HG.
  set (s1 := update_flags (Some c) now (solar_value s_state) (grid_value s_state) s).
  assert (E1 : alarmSolar s1
               = is_triggered_t2 (Some (energy_solar_colors c)) (solar_value s_state) true).
  { pose proof (update_flags_flag (Some c) now (solar_value s_state) (grid_value s_state)
                  s Solar) as E.
    cbn [category_flag] in E. rewrite HS in E. exact E. }
  assert (E2 : alarmHome s1
               = is_triggered_t2 (Some (energy_home_colors c))
                   (home_kw_of (solar_value s_state) (grid_value s_state)) true).
  { pose proof (update_flags_flag (Some c) now (solar_value s_state) (grid_value s_state)
                  s Home) as E.
    cbn [category_flag] in E. rewrite HH in E. exact E. }
  assert (E3 : alarmGrid s1
               = is_triggered_t2 (Some (energy_grid_colors c)) (grid_value s_state) false).
  { pose proof (update_flags_flag (Some c) now (solar_value s_state) (grid_value s_state)
                  s Grid) as E.
    cbn [category_flag] in E. rewrite HG in E. exact E. }
  assert (Hwanted : alarm_wanted s1 = energy_monitor_has_warning (Some c) s_state).
  { unfold alarm_wanted. rewrite E1, E2, E3, has_warning_as_triggers. reflexivity. }
  assert (Hst1 : alarmState s1 = Off) by exact Hst.
  destruct (update_alarm_state_from_off c now s1 Hst1) as [Hon Hoff].
  split; intros Hhw; rewrite <- Hwanted in Hhw.
  - destruct (Hon Hhw) as (A1 & A2 & A3 & A4).
    split; [exact A1 |]. split; [exact A2 |]. split; [exact A3 |].
    rewrite A4. unfold first_triggered. rewrite E1, E2. reflexivity.
  - rewrite (Hoff Hhw). split; [exact Hst1 |]. split; [exact Hhw |].
    split; reflexivity.
Qed.

(** On a fresh screen 1.0 kW of solar and 2.5 kW of grid arrive: only
    home (3.5 kW) is above 3.0 kW; the alarm starts. *)
Lemma alarm_starts_iff_has_warning_witness :
  let s := create initial_screen in
  let st := store_with (of_ratio 1 1) (of_ratio 25 10) in
  refresh_due 1000 st s = true
  /\ alarmState s = Off
  /\ alarm_wanted s = false
  /\ energy_monitor_has_warning (Some sample_config) st = true
  /\ first_triggered sample_config (solar_value st) (grid_value st) = Home
  /\ alarmState (fst (update (Some sample_config) 1000 st s)) = Active.
Proof.
  intros s st.
  assert (Hdue : refresh_due 1000 st s = true) by (vm_compute; reflexivity).
  assert (Hhw : energy_monitor_has_warning (Some sample_config) st = true)
    by (vm_compute; reflexivity).
  split; [exact Hdue |].
  split; [reflexivity |].
  split; [reflexivity |].
  split; [exact Hhw |].
  split; [vm_compute; reflexivity |].
  exact (proj1 (proj1 (alarm_starts_iff_has_warning sample_config 1000 st s Hdue
                         eq_refl eq_refl) Hhw)).
Defined.

(** ** What every reachable screen satisfies *)

Lemma create_timer_invariant s :
  screen_invariant s -> timer_invariant s -> timer_invariant (create s).
Proof.
  unfold screen_invariant, timer_invariant, create.
  destruct s as [scr bg lr st tm ph dr aS aH aG pk cs iS iH iG]; simpl.
  intros (_ & Hst & _) (Hno & Hyes).
  destruct scr; simpl; [split; assumption |].
  rewrite (Hno eq_refl). simpl.
  split; [discriminate |]. intros _.
  eexists. split; [reflexivity |]. simpl.
  destruct st; [tauto | |]; exfalso;
    (assert (false = true) by (apply Hst; discriminate)); discriminate.
Qed.

Lemma destroy_timer_invariant s : timer_invariant s -> timer_invariant (destroy s).
Proof.
  unfold timer_invariant, destroy.
  destruct s as [scr bg lr st tm ph dr aS aH aG pk cs iS iH iG]; simpl.
  intros (Hno & Hyes).
  destruct scr; simpl; [split; [reflexivity | discriminate] | split; assumption].
Qed.

Lemma update_alarm_state_timer_invariant config now p1 p2 p3 s :
  timer_invariant s -> timer_invariant (update_alarm_state config now p1 p2 p3 s).
Proof.
  unfold timer_invariant, update_alarm_state, alarm_wanted, latch_peak_color,
    resume_alarm_timer.
  destruct s as [scr bg lr st tm ph dr aS aH aG pk cs iS iH iG]; simpl.
  intros (Hno & Hyes).
  destruct scr.
  - destruct (Hyes eq_refl) as (t & -> & Hp). clear Hno Hyes.
    assert (Hrun : forall st', st' <> Off ->
              exists t', Some (lv_timer_resume t) = Some t'
                         /\ (paused t' = true <-> st' = Off)).
    { intros st' Hne. eexists. split; [reflexivity |]. simpl.
      split; [discriminate | intros H; contradiction]. }
    destruct aS, aH, aG, st, config; simpl;
      repeat match goal with
             | |- context [if ?b then _ else _] => destruct b; simpl
             end;
      (split; [discriminate | intros _]);
      try (apply Hrun; discriminate);
      (eexists; split; [reflexivity | exact Hp]).
  - rewrite (Hno eq_refl).
    destruct aS, aH, aG, st, config; simpl;
      repeat match goal with
             | |- context [if ?b then _ else _] => destruct b; simpl
             end;
      (split; [reflexivity | discriminate]).
Qed.

Lemma update_timer_invariant config now s_state s :
  timer_invariant s -> timer_invariant (fst (update config now s_state s)).
Proof.
  intros Hinv. destruct (refresh_due now s_state s) eqn:Hdue.
  - rewrite (update_when_due _ _ _ _ Hdue). unfold update_refresh.
    apply update_alarm_state_timer_invariant. exact Hinv.
  - rewrite (update_when_not_due _ _ _ _ Hdue). exact Hinv.
Qed.

Lemma alarmTick_timer_invariant config s :
  screen_invariant s -> timer_invariant s -> timer_invariant (alarmTick config s).
Proof.
  intros Hinv Htim.
  destruct (alarmState s) eqn:Hst;
    [rewrite alarmTick_idle by (right; right; exact Hst); exact Htim | |].
  - destruct Hinv as (Hbg & Hscr & _).
    assert (Hs : screen s = true) by (apply Hscr; rewrite Hst; discriminate).
    rewrite alarmTick_active by (rewrite ?Hbg; assumption).
    unfold timer_invariant in *.
    destruct s as [scr bg lr st tm ph dr aS aH aG pk cs iS iH iG]; simpl in *.
    repeat match goal with
           | |- context [if ?b then _ else _] => destruct b; simpl
           end; exact Htim.
  - pose proof (alarmTick_exiting_down config s Hinv Hst) as E. cbv zeta in E. rewrite E.
    destruct Hinv as (Hbg & Hscr & _).
    assert (Hs : screen s = true) by (apply Hscr; rewrite Hst; discriminate).
    unfold timer_invariant, pause_alarm_timer in *.
    destruct s as [scr bg lr st tm ph dr aS aH aG pk cs iS iH iG]; simpl in *.
    destruct Htim as (_ & Hyes). destruct (Hyes Hs) as (t & Ht & Hp). subst tm.
    destruct (ph - pulse_step_exit (pulse_step_active 40 (pulse_cycle_ms config)) <=? 0);
      simpl; (split; [intros Hf; congruence | intros _]).
    + eexists. split; [reflexivity |]. simpl. tauto.
    + eexists. split; [reflexivity |]. exact Hp.
Qed.

Lemma initial_timer_invariant : timer_invariant initial_screen.
Proof. split; [reflexivity | discriminate]. Qed.

Lemma reachable_timer_invariant s : reachable s -> timer_invariant s.
Proof.
  induction 1 as [| s ev Hreach IH].
  - exact initial_timer_invariant.
  - pose proof (reachable_invariant s Hreach) as Hinv.
    destruct ev as [| | config now s_state | config]; simpl.
    + apply create_timer_invariant; assumption.
    + apply destroy_timer_invariant; assumption.
    + apply update_timer_invariant; assumption.
    + apply alarmTick_timer_invariant; assumption.
Qed.

(** X6.  In every state the screen object can reach, whatever the
    sequence of [create], [destroy], [update] and timer ticks and
    whatever the configurations and values: the phase is within 0..255,
    the direction is +1 or -1, the alarm is [Off] while no screen
    exists, the animation timer exists exactly while the screen exists,
    has a period of 40 ms, and is paused exactly when the alarm is
    [Off]; in [Exiting] the direction is -1 and no category is flagged. *)
Theorem reachable_screen_well_formed s :
  reachable s ->
  0 <= alarmPhase s <= 255
  /\ (alarmDir s = 1 \/ alarmDir s = -1)
  /\ (screen s = false -> alarmState s = Off /\ alarmTimer s = None)
  /\ (screen s = true ->
      exists t, alarmTimer s = Some t /\ period t = 40
                /\ (paused t = true <-> alarmState s = Off))
  /\ (alarmState s = Exiting -> alarmDir s = -1 /\ alarm_wanted s = false).
Proof.
  intros Hreach.
  destruct (reachable_invariant s Hreach) as (Hbg & Hscr & Hex & Hph & Hdr & Htm).
  destruct (reachable_timer_invariant s Hreach) as (Hno & Hyes).
  split; [exact Hph |]. split; [exact Hdr |].
  split; [| split].
  - intros Hs. split; [| exact (Hno Hs)].
    destruct (alarmState s) eqn:Hst; [reflexivity | |];
      (assert (screen s = true) by (apply Hscr; discriminate)); congruence.
  - intros Hs. destruct (Hyes Hs) as (t & Ht & Hp).
    exists t. split; [exact Ht |]. split; [exact (Htm t Ht) | exact Hp].
  - intros Hst. destruct (Hex Hst) as (Hd & HaS & HaH & HaG).
    split; [exact Hd |]. unfold alarm_wanted. rewrite HaS, HaH, HaG. reflexivity.
Qed.

(** The fading screen of the earlier example. *)
Lemma reachable_screen_well_formed_witness :
  reachable exiting_screen
  /\ 0 <= alarmPhase exiting_screen <= 255
  /\ (alarmState exiting_screen = Exiting ->
      alarmDir exiting_screen = -1 /\ alarm_wanted exiting_screen = false).
Proof.
  split; [exact exiting_screen_reachable |].
  split.
  - exact (proj1 (reachable_screen_well_formed exiting_screen exiting_screen_reachable)).
  - exact (proj2 (proj2 (proj2 (proj2
             (reachable_screen_well_formed exiting_screen exiting_screen_reachable))))).
Defined.

(** ** Fading out ends *)

Lemma run_repeat_tick config n s :
  run (repeat (EvAlarmTick config) (S n)) s
  = run (repeat (EvAlarmTick config) n) (alarmTick config s).
Proof. reflexivity. Qed.

Lemma exiting_fades_out_within config (fuel : nat) :
  forall s,
    reachable s -> alarmState s = Exiting -> alarmPhase s <= Z.of_nat fuel ->
    exists n : nat,
      (1 <= n <= Nat.max 1 fuel)%nat
      /\ alarmState (run (repeat (EvAlarmTick config) n) s) = Off
      /\ forall k : nat, (k < n)%nat ->
           alarmState (run (repeat (EvAlarmTick config) k) s) = Exiting
           /\ alarmPhase (run (repeat (EvAlarmTick config) k) s) <= alarmPhase s.
Proof.
  induction fuel as [| fuel IH]; intros s Hreach Hst Hph;
    pose proof (reachable_invariant s Hreach) as Hinv;
    pose proof (alarmTick_exiting_down config s Hinv Hst) as Htick; cbv zeta in Htick;
    pose proof (pulse_step_exit_pos 40 (pulse_cycle_ms config)) as Hstep;
    destruct (Z.leb_spec
                (alarmPhase s - pulse_step_exit (pulse_step_active 40 (pulse_cycle_ms config)))
                0) as [Hle | Hgt]; try lia.
  - exists 1%nat. split; [lia |]. split.
    + rewrite run_repeat_tick, Htick. reflexivity.
    + intros k Hk. assert (k = 0%nat) by lia. subst k. simpl. split; [exact Hst | lia].
  - exists 1%nat. split; [lia |]. split.
    + rewrite run_repeat_tick, Htick. reflexivity.
    + intros k Hk. assert (k = 0%nat) by lia. subst k. simpl. split; [exact Hst | lia].
  - assert (Hreach' : reachable (alarmTick config s))
      by exact (reachable_step s (EvAlarmTick config) Hreach).
    assert (Hst' : alarmState (alarmTick config s) = Exiting)
      by (rewrite Htick; destruct s; exact Hst).
    assert (Hph' : alarmPhase (alarmTick config s)
                   = alarmPhase s
                     - pulse_step_exit (pulse_step_active 40 (pulse_cycle_ms config)))
      by (rewrite Htick; destruct s; reflexivity).
    destruct (IH (alarmTick config s) Hreach' Hst' ltac:(lia)) as (n & Hn & Hoff & Hbefore).
    exists (S n). split; [lia |]. split.
    + rewrite run_repeat_tick. exact Hoff.
    + intros [| k] Hk.
      * simpl. split; [exact Hst | lia].
      * rewrite run_repeat_tick. destruct (Hbefore k ltac:(lia)) as [A B].
        split; [exact A | lia].
Qed.

(** X7.  Fading out always ends: from any reachable [Exiting] state,
    with any configuration, some number of timer ticks between 1 and
    255 brings the alarm to [Off], the state being [Exiting] with a
    phase no higher than at the start on every tick before that. *)
Theorem exiting_fades_out config s :
  reachable s ->
  alarmState s = Exiting ->
  exists n : nat,
    (1 <= n <= 255)%nat
    /\ alarmState (run (repeat (EvAlarmTick config) n) s) = Off
    /\ forall k : nat, (k < n)%nat ->
         alarmState (run (repeat (EvAlarmTick config) k) s) = Exiting
         /\ alarmPhase (run (repeat (EvAlarmTick config) k) s) <= alarmPhase s.
Proof.
  intros Hreach Hst.
  destruct (reachable_invariant s Hreach) as (_ & _ & _ & Hph & _).
  destruct (exiting_fades_out_within config (Z.to_nat (alarmPhase s)) s Hreach Hst
              ltac:(lia)) as (n & Hn & Hoff & Hbefore).
  exists n. split; [lia |]. split; assumption.
Qed.

(** The fading screen at phase 100 with the sample configuration. *)
Lemma exiting_fades_out_witness :
  reachable exiting_screen
  /\ alarmState exiting_screen = Exiting
  /\ exists n : nat,
      (1 <= n <= 255)%nat
      /\ alarmState (run (repeat (EvAlarmTick (Some sample_config)) n) exiting_screen) = Off
      /\ forall k : nat, (k < n)%nat ->
           alarmState (run (repeat (EvAlarmTick (Some sample_config)) k) exiting_screen)
           = Exiting
           /\ alarmPhase (run (repeat (EvAlarmTick (Some sample_config)) k) exiting_screen)
              <= alarmPhase exiting_screen.
Proof.
  assert (Hst : alarmState exiting_screen = Exiting) by (vm_compute; reflexivity).
  split; [exact exiting_screen_reachable |].
  split; [exact Hst |].
  exact (exiting_fades_out (Some sample_config) exiting_screen exiting_screen_reachable Hst).
Defined.

(** ** What stays put *)

Lemma update_alarm_state_frame config now p1 p2 p3 s :
  let s' := update_alarm_state config now p1 p2 p3 s in
  alarmPhase s' = alarmPhase s
  /\ screen s' = screen s /\ background s' = background s
  /\ lastRenderMs s' = lastRenderMs s
  /\ (alarmState s <> Off -> alarmPeakColor s' = alarmPeakColor s).
Proof.
  unfold update_alarm_state, alarm_wanted, latch_peak_color, resume_alarm_timer.
  destruct s as [scr bg lr st tm ph dr aS aH aG pk cs iS iH iG]; simpl.
  destruct aS, aH, aG, st, config; simpl;
    repeat match goal with
           | |- context [if ?b then _ else _] => destruct b; simpl
           end;
    repeat split; intros; try reflexivity; try contradiction.
Qed.

Lemma alarmTick_frame config s :
  let s' := alarmTick config s in
  alarmSolar s' = alarmSolar s /\ alarmHome s' = alarmHome s /\ alarmGrid s' = alarmGrid s
  /\ intendedSolarColor s' = intendedSolarColor s
  /\ intendedHomeColor s' = intendedHomeColor s
  /\ intendedGridColor s' = intendedGridColor s
  /\ lastRenderMs s' = lastRenderMs s
  /\ (alarmState s' <> Off -> alarmPeakColor s' = alarmPeakColor s
                              /\ alarmState s' = alarmState s).
Proof.
  cbv zeta. unfold alarmTick, pause_alarm_timer.
  set (sa := pulse_step_active _ _). set (se := pulse_step_exit sa).
  destruct (negb (screen s) || negb (background s));
    [repeat split; reflexivity |].
  destruct s as [scr bg lr st tm ph dr aS aH aG pk cs iS iH iG]; cbn -[Z.mul Z.add].
  destruct st; cbn -[Z.mul Z.add];
    repeat match goal with
           | |- context [if ?b then _ else _] => destruct b; cbn -[Z.mul Z.add]
           end;
    repeat split; intros; try reflexivity; try contradiction.
Qed.

(** X8.  The peak colour is latched for the whole alarm episode: no
    event that starts and ends outside [Off] changes it.  The phase
    moves on timer ticks only ([update] never changes it), and a timer
    tick never changes the per-category flags or the colours cached by
    the last refresh. *)
Theorem peak_color_latched_during_alarm ev s :
  (alarmState s <> Off -> alarmState (apply_event ev s) <> Off ->
   alarmPeakColor (apply_event ev s) = alarmPeakColor s)
  /\ (forall config now s_state,
         alarmPhase (fst (update config now s_state s)) = alarmPhase s)
  /\ (forall config cat,
         category_flag cat (alarmTick config s) = category_flag cat s
         /\ category_intended_color cat (alarmTick config s) = category_intended_color cat s).
Proof.
  split; [| split].
  - intros Hon Hon'.
    destruct ev as [| | config now s_state | config]; simpl in *.
    + unfold create. destruct (screen s); [reflexivity |].
      destruct (alarmTimer (set_background true (set_screen true s))); reflexivity.
    + unfold destroy in *. destruct (screen s); [| reflexivity].
      exfalso. apply Hon'. reflexivity.
    + destruct (refresh_due now s_state s) eqn:Hdue.
      * rewrite (update_when_due _ _ _ _ Hdue). unfold update_refresh.
        exact (proj2 (proj2 (proj2 (proj2
                 (update_alarm_state_frame config now (alarmSolar s) (alarmHome s)
                    (alarmGrid s)
                    (update_flags config now (solar_value s_state) (grid_value s_state) s)))))
                 Hon).
      * rewrite (update_when_not_due _ _ _ _ Hdue). reflexivity.
    + destruct (alarmTick_frame config s) as (_ & _ & _ & _ & _ & _ & _ & H).
      exact (proj1 (H Hon')).
  - intros config now s_state.
    destruct (refresh_due now s_state s) eqn:Hdue.
    + rewrite (update_when_due _ _ _ _ Hdue). unfold update_refresh.
      exact (proj1 (update_alarm_state_frame config now (alarmSolar s) (alarmHome s)
                      (alarmGrid s)
                      (update_flags config now (solar_value s_state) (grid_value s_state) s))).
    + rewrite (update_when_not_due _ _ _ _ Hdue). reflexivity.
  - intros config cat.
    destruct (alarmTick_frame config s) as (A1 & A2 & A3 & B1 & B2 & B3 & _).
    destruct cat; split; assumption.
Qed.

(** The fading screen, reasserted: the peak colour is the one latched
    before. *)
Lemma peak_color_latched_during_alarm_witness :
  alarmState exiting_screen <> Off
  /\ alarmState (apply_event reassert_event exiting_screen) <> Off
  /\ alarmPeakColor (apply_event reassert_event exiting_screen)
     = alarmPeakColor exiting_screen.
Proof.
  assert (H1 : alarmState exiting_screen <> Off) by (vm_compute; discriminate).
  assert (H2 : alarmState (apply_event reassert_event exiting_screen) <> Off)
    by (vm_compute; discriminate).
  split; [exact H1 |]. split; [exact H2 |].
  exact (proj1 (peak_color_latched_during_alarm reassert_event exiting_screen) H1 H2).
Defined.

(** ** Rendering of the alarm *)

Lemma to_unsigned_small w z : 0 <= z < 2 ^ w -> Int.to_unsigned w z = z.
Proof. intros H. unfold Int.to_unsigned. apply Z.mod_small. exact H. Qed.

Lemma alarm_mix_value config phase :
  0 <= phase <= 255 ->
  0 <= match config with Some c => energy_alarm_pulse_peak_pct c | None => 100 end ->
  alarm_mix config phase
  = phase * Z.min 100 (match config with
                       | Some c => energy_alarm_pulse_peak_pct c
                       | None => 100
                       end) / 100.
Proof.
  intros Hph Hpct. unfold alarm_mix.
  set (pct := match config with Some c => energy_alarm_pulse_peak_pct c | None => 100 end)
    in *.
  assert (Hclamp : (if pct >? 100 then 100 else pct) = Z.min 100 pct)
    by (destruct (Z.gtb_spec pct 100); lia).
  rewrite Hclamp.
  assert (Hq : 0 <= phase * Z.min 100 pct / 100 <= phase).
  { split; [apply Z.div_pos; nia |].
    apply Z.div_le_upper_bound; nia. }
  rewrite to_unsigned_small by lia.
  destruct (Z.gtb_spec (phase * Z.min 100 pct / 100) 255); [lia |].
  apply uint8_small. lia.
Qed.



Lemma contrast_remap_below_start lv_color_to32 lv_color_mix intended bg strength :
  strength <= 160 ->
  contrast_remap_for_bg lv_color_to32 lv_color_mix intended bg strength = intended.
Proof.
  intros H. unfold contrast_remap_for_bg.
  destruct (Z.leb_spec strength 160); [reflexivity | lia].
Qed.

(** X10.  While the alarm is drawn: a category that is not flagged is
    shown in the colour the classifier gave it, whatever the pulse; a
    flagged one too as long as the intensity is at most 160, which is
    always the case when the configured peak is 63 percent or less; the
    background is the peak colour blended over black with the
    intensity.  When the remapping does apply, the weight toward white
    goes from 2 at intensity 161 to 255 at intensity 255.  This holds
    for any implementation of the two LVGL colour routines. *)
Theorem alarm_styles_keep_intended
  (lv_color_to32 : lv_color_t -> Z) (lv_color_mix : lv_color_t -> lv_color_t -> Z -> lv_color_t)
  config s styles :
  0 <= alarmPhase s <= 255 ->
  0 <= match config with Some c => energy_alarm_pulse_peak_pct c | None => 100 end ->
  applyAlarmStyles lv_color_to32 lv_color_mix config s = Some styles ->
  let pct := match config with Some c => energy_alarm_pulse_peak_pct c | None => 100 end in
  let mix := alarm_mix config (alarmPhase s) in
  style_background styles = lv_color_mix (alarmPeakColor s) lv_color_black mix
  /\ (forall cat, category_flag cat s = false ->
                  style_of cat styles = category_intended_color cat s)
  /\ (mix <= 160 -> forall cat, style_of cat styles = category_intended_color cat s)
  /\ (pct <= 63 -> mix <= 160)
  /\ (forall strength, 161 <= strength <= 255 ->
        contrast_mix strength = (strength - 160) * 255 / 95
        /\ 2 <= contrast_mix strength <= 255).
Proof.
  intros Hph Hpct Hstyles pct mix.
  unfold applyAlarmStyles in Hstyles.
  destruct (negb (screen s) || negb (background s)); [discriminate |].
  injection Hstyles as <-. fold mix.
  split; [reflexivity |].
  split; [intros cat Hflag; destruct cat; simpl in *; rewrite Hflag; reflexivity |].
  split.
  - intros Hmix cat.
    destruct cat; simpl;
      rewrite (contrast_remap_below_start _ _ _ _ _ Hmix);
      match goal with |- (if ?b then _ else _) = _ => destruct b; reflexivity end.
  - split.
    + intros Hpct63. unfold mix. rewrite (alarm_mix_value config (alarmPhase s) Hph Hpct).
      fold pct. apply Z.lt_succ_r. apply Z.div_lt_upper_bound; [lia |].
      assert (Z.min 100 pct <= 63) by lia. nia.
    + intros strength Hs. unfold contrast_mix.
      rewrite !to_unsigned_small by lia.
      replace (255 - 160) with 95 by reflexivity.
      assert (Hq : 2 <= (strength - 160) * 255 / 95 <= 255).
      { split; [apply Z.div_le_lower_bound; lia | apply Z.div_le_upper_bound; lia]. }
      rewrite uint8_small by lia. split; [reflexivity | exact Hq].
Qed.

(** The alarmed screen at phase 130: the intensity is 130, below 160,
    and the solar value, though flagged, keeps its warning colour. *)
Lemma alarm_styles_keep_intended_witness :
  0 <= alarmPhase pulsing_screen <= 255
  /\ 0 <= energy_alarm_pulse_peak_pct sample_config
  /\ category_flag Solar pulsing_screen = true
  /\ exists styles,
      applyAlarmStyles sample_lv_color_to32 sample_lv_color_mix (Some sample_config)
        pulsing_screen = Some styles
      /\ style_background styles = lv_color_make 130 0 0
      /\ forall cat, style_of cat styles = category_intended_color cat pulsing_screen.
Proof.
  assert (Hph : 0 <= alarmPhase pulsing_screen <= 255) by (vm_compute; split; discriminate).
  assert (Hpct : 0 <= energy_alarm_pulse_peak_pct sample_config)
    by (vm_compute; discriminate).
  split; [exact Hph |]. split; [exact Hpct |].
  split; [vm_compute; reflexivity |].
  destruct (applyAlarmStyles sample_lv_color_to32 sample_lv_color_mix (Some sample_config)
              pulsing_screen) as [styles |] eqn:Hstyles; [| vm_compute in Hstyles; discriminate].
  exists styles. split; [reflexivity |].
  split.
  - vm_compute in Hstyles. injection Hstyles as <-. reflexivity.
  - refine (proj1 (proj2 (proj2
              (alarm_styles_keep_intended sample_lv_color_to32 sample_lv_color_mix
                 (Some sample_config) pulsing_screen styles Hph Hpct Hstyles))) _).
    vm_compute. discriminate.
Defined.

(** ** Bars *)

Lemma to_int32_range x : Int.INT32_MIN <= to_int32 x <= Int.INT32_MAX.
Proof.
  unfold to_int32, Int.INT32_MIN, Int.INT32_MAX.
  destruct x as [s | s | | s m e]; try destruct s; lia.
Qed.

Lemma bar_watts_range kw max_watts :
  0 < max_watts -> 0 <= bar_watts kw max_watts <= max_watts.
Proof.
  intros H. unfold bar_watts.
  set (w := to_int32 _).
  destruct (Z.ltb_spec w 0).
  - destruct (Z.gtb_spec 0 max_watts); lia.
  - destruct (Z.gtb_spec w max_watts); lia.
Qed.

(** X11.  The fill of a bar never leaves the bar: for a bar of height
    at least 1, whatever the value and the full-scale setting, the
    height given to the fill is between 0 and the bar height; it is 0
    for an absent value, at least 1 as soon as the value counts for a
    watt or more, and it is the whole bar when the value reaches the
    full scale.  The full scale used by [update] is always positive. *)
Theorem bar_fill_within_bar bar_height_px kw max_watts :
  1 <= bar_height_px <= Int.INT32_MAX ->
  max_watts <= Int.INT32_MAX ->
  let full := if max_watts <=? 0 then 3000 else max_watts in
  0 <= set_kw_bar bar_height_px kw max_watts <= bar_height_px
  /\ (isnan kw = true -> set_kw_bar bar_height_px kw max_watts = 0)
  /\ (isnan kw = false -> 0 < bar_watts kw full ->
      1 <= set_kw_bar bar_height_px kw max_watts)
  /\ (isnan kw = false -> bar_watts kw full = full ->
      set_kw_bar bar_height_px kw max_watts = bar_height_px)
  /\ (forall configured, 1 <= bar_max_watts configured <= Int.INT32_MAX).
Proof.
  intros Hh Hmax full.
  assert (Hfull : 0 < full <= Int.INT32_MAX).
  { unfold full, Int.INT32_MAX in *. destruct (Z.leb_spec max_watts 0); lia. }
  pose proof (bar_watts_range kw full ltac:(lia)) as Hw.
  assert (Hq : 0 <= bar_watts kw full * bar_height_px / full <= bar_height_px).
  { split; [apply Z.div_pos; nia | apply Z.div_le_upper_bound; nia]. }
  assert (Hfill : Int.int32 (Z.quot (bar_watts kw full * bar_height_px) full)
                  = bar_watts kw full * bar_height_px / full).
  { rewrite Z.quot_div_nonneg by nia.
    apply int32_small. unfold Int.is_int32, Int.INT32_MIN, Int.INT32_MAX in *. lia. }
  unfold set_kw_bar. fold full. rewrite Hfill.
  split; [| split; [| split; [| split]]].
  - destruct (isnan kw); [lia |].
    destruct ((bar_watts kw full >? 0)
              && (bar_watts kw full * bar_height_px / full =? 0)); lia.
  - intros ->. reflexivity.
  - intros -> Hpos.
    destruct (Z.gtb_spec (bar_watts kw full) 0); [| lia].
    destruct (Z.eqb_spec (bar_watts kw full * bar_height_px / full) 0); simpl; lia.
  - intros -> Hall. rewrite Hall.
    rewrite Z.mul_comm, Z.div_mul by lia.
    destruct (Z.gtb_spec full 0); [| lia].
    destruct (Z.eqb_spec bar_height_px 0); simpl; lia.
  - intros configured. unfold bar_max_watts.
    set (w := to_int32 _). pose proof (to_int32_range (mul (match configured with
      | Some m => if gtb m (of_Z 0) then m else of_Z 3 | None => of_Z 3 end) (of_Z 1000)))
      as Hr.
    fold w in Hr. unfold Int.INT32_MAX in *.
    destruct (Z.leb_spec w 0); lia.
Qed.

(** The 100-pixel bar with a full scale of 3000 W: 1.2 kW fills 40
    pixels. *)
Lemma bar_fill_within_bar_witness :
  1 <= 100 <= Int.INT32_MAX
  /\ 3000 <= Int.INT32_MAX
  /\ 0 <= set_kw_bar 100 (of_ratio 12 10) 3000 <= 100
  /\ set_kw_bar 100 (of_ratio 12 10) 3000 = 40
  /\ set_kw_bar 100 (of_ratio 1 10000) 3000 = 0
  /\ set_kw_bar 100 (of_ratio 2 1000) 3000 = 1
  /\ bar_max_watts (Some (of_ratio 25 10)) = 2500.
Proof.
  assert (H1 : 1 <= 100 <= Int.INT32_MAX) by (vm_compute; split; discriminate).
  assert (H2 : 3000 <= Int.INT32_MAX) by (vm_compute; discriminate).
  split; [exact H1 |]. split; [exact H2 |].
  split; [exact (proj1 (bar_fill_within_bar 100 (of_ratio 12 10) 3000 H1 H2)) |].
  vm_compute. repeat split; reflexivity.
Defined.

(** ** The value parser and the incoming messages *)

Lemma copy_token_bounded room :
  forall payload,
    (List.length (copy_token room payload) <= room)%nat
    /\ Forall (fun c => ends_token c = false) (copy_token room payload).
Proof.
  induction room as [| room IH]; intros payload.
  - destruct payload; simpl; split; [lia | constructor | lia | constructor].
  - destruct payload as [| c rest]; simpl; [split; [lia | constructor] |].
    destruct (ends_token c) eqn:Hc; simpl; [split; [lia | constructor] |].
    destruct (IH rest) as [Hlen Hall]. split; [lia |].
    constructor; assumption.
Qed.

Lemma parse_float_from_payload_ext strtod1 strtod2 deserializeJson payload :
  (forall tmp, token_ok tmp -> strtod1 tmp = strtod2 tmp) ->
  parse_float_from_payload strtod1 deserializeJson payload
  = parse_float_from_payload strtod2 deserializeJson payload.
Proof.
  intros Hext. unfold parse_float_from_payload.
  destruct payload as [| b rest]; [reflexivity |].
  destruct (copy_token_bounded 63 (skip_spaces (b :: rest))) as [Hlen Hall].
  destruct (copy_token 63 (skip_spaces (b :: rest))) as [| t tmp] eqn:Htok; [reflexivity |].
  rewrite (Hext (t :: tmp)); [reflexivity |].
  split; [discriminate | split; assumption].
Qed.

(** X12.  The parser hands [strtod] only tokens that fit the 64-byte
    buffer with its terminating NUL: never an empty token, never more
    than 63 bytes, never a byte that ends a token (NUL, white space,
    comma, closing brace or bracket).  Two [strtod] that agree on such
    tokens give the same result on every payload and every path. *)
Theorem strtod_sees_bounded_tokens strtod1 strtod2 deserializeJson payload value_path :
  (forall tmp, token_ok tmp -> strtod1 tmp = strtod2 tmp) ->
  parse_value_using_path strtod1 deserializeJson payload value_path
  = parse_value_using_path strtod2 deserializeJson payload value_path.
Proof.
  intros Hext. unfold parse_value_using_path.
  destruct value_path as [path |];
    [| apply parse_float_from_payload_ext; exact Hext].
  destruct ((String.length path =? 0)%nat || String.eqb path ".");
    [apply parse_float_from_payload_ext; exact Hext | reflexivity].
Qed.

(** A [strtod] that reads nothing, and one that differs from it only on
    a token of 64 bytes or more. *)
Lemma strtod_sees_bounded_tokens_witness :
  let strtod2 := fun tmp : list Byte.byte =>
                   if (63 <? List.length tmp)%nat then Some (of_Z 1) else None in
  (forall tmp, token_ok tmp -> sample_strtod tmp = strtod2 tmp)
  /\ parse_value_using_path sample_strtod sample_deserializeJson
       (repeat Byte.x31 100) (Some "."%string)
     = parse_value_using_path strtod2 sample_deserializeJson
         (repeat Byte.x31 100) (Some "."%string).
Proof.
  intros strtod2.
  assert (Hext : forall tmp, token_ok tmp -> sample_strtod tmp = strtod2 tmp).
  { intros tmp (_ & Hlen & _). unfold sample_strtod, strtod2.
    destruct (Nat.ltb_spec 63 (List.length tmp)); [lia | reflexivity]. }
  split; [exact Hext |].
  exact (strtod_sees_bounded_tokens sample_strtod strtod2 sample_deserializeJson
           (repeat Byte.x31 100) (Some "."%string) Hext).
Defined.

Lemma parse_float_from_payload_failure strtod deserializeJson payload :
  snd (parse_float_from_payload strtod deserializeJson payload) = false ->
  fst (parse_float_from_payload strtod deserializeJson payload) = NAN.
Proof.
  unfold parse_float_from_payload.
  destruct payload as [| b rest]; [reflexivity |].
  destruct (match copy_token 63 (skip_spaces (b :: rest)) with
            | [] => None
            | _ :: _ => strtod (copy_token 63 (skip_spaces (b :: rest)))
            end) as [v |]; [discriminate |].
  destruct (deserializeJson 256 (b :: rest)) as [doc |]; [| reflexivity].
  destruct (is_float doc); [discriminate | reflexivity].
Qed.

Lemma parse_value_using_path_failure strtod deserializeJson payload value_path :
  snd (parse_value_using_path strtod deserializeJson payload value_path) = false ->
  fst (parse_value_using_path strtod deserializeJson payload value_path) = NAN.
Proof.
  unfold parse_value_using_path.
  destruct value_path as [path |]; [| apply parse_float_from_payload_failure].
  destruct ((String.length path =? 0)%nat || String.eqb path ".");
    [apply parse_float_from_payload_failure |].
  destruct (deserializeJson 512 payload) as [doc |]; [| reflexivity].
  destruct (negb (containsKey doc path)); [reflexivity |].
  destruct (json_get doc path) as [v |]; [| reflexivity].
  destruct (is_float v || is_int v || is_long v || is_double v);
    [discriminate | reflexivity].
Qed.

Lemma topic_nonempty (topic : string) :
  topic <> ""%string -> negb (String.length topic =? 0)%nat = true.
Proof. destruct topic; [contradiction | reflexivity]. Qed.

Lemma incoming_solar_message strtod deserializeJson c now payload s_state :
  payload <> [] -> mqtt_topic_solar c <> ""%string ->
  let st' := handleIncomingMessage strtod deserializeJson (Some c) now
               (mqtt_topic_solar c) payload s_state in
  let r := parse_value_using_path strtod deserializeJson payload
             (Some (mqtt_solar_value_path c)) in
  solar_value st' = (if snd r then fst r else NAN)
  /\ (snd r = false -> isnan (solar_value st') = true)
  /\ solar_updated st' = true /\ solar_update_ms st' = now
  /\ grid_value st' = grid_value s_state
  /\ grid_updated st' = grid_updated s_state
  /\ grid_update_ms st' = grid_update_ms s_state.
Proof.
  intros Hpay Hne. cbv zeta. unfold handleIncomingMessage.
  destruct payload as [| b rest]; [contradiction |].
  rewrite (topic_nonempty _ Hne), String.eqb_refl. cbn [andb].
  destruct (parse_value_using_path strtod deserializeJson (b :: rest)
              (Some (mqtt_solar_value_path c))) as [v ok].
  cbn [fst snd]. repeat split; try reflexivity.
  intros ->. reflexivity.
Qed.

(** X13.  A message with a payload on the configured solar topic writes
    the solar field and nothing else: the value is the parsed number,
    or NaN when parsing failed; the field is flagged as updated and
    stamped with the time of arrival; the grid field is left as it
    was, even when the grid topic is the same topic.  A message on any
    other topic than the two configured ones changes nothing, and
    neither does a message without payload. *)
Theorem incoming_message_writes_one_field strtod deserializeJson c now topic payload s_state :
  let st' := handleIncomingMessage strtod deserializeJson (Some c) now topic payload s_state in
  let r := parse_value_using_path strtod deserializeJson payload
             (Some (mqtt_solar_value_path c)) in
  (payload <> [] -> mqtt_topic_solar c <> ""%string -> topic = mqtt_topic_solar c ->
   solar_value st' = (if snd r then fst r else NAN)
   /\ (snd r = false -> isnan (solar_value st') = true)
   /\ solar_updated st' = true /\ solar_update_ms st' = now
   /\ grid_value st' = grid_value s_state
   /\ grid_updated st' = grid_updated s_state
   /\ grid_update_ms st' = grid_update_ms s_state)
  /\ (topic <> mqtt_topic_solar c -> topic <> mqtt_topic_grid c -> st' = s_state)
  /\ (payload = [] -> st' = s_state).
Proof.
  cbv zeta. unfold handleIncomingMessage.
  split; [| split].
  - intros Hpay Hne ->.
    exact (incoming_solar_message strtod deserializeJson c now payload s_state Hpay Hne).
  - intros Hs Hg.
    destruct payload as [| b rest]; [reflexivity |].
    destruct (String.eqb_spec topic (mqtt_topic_solar c)); [contradiction |].
    destruct (String.eqb_spec topic (mqtt_topic_grid c)); [contradiction |].
    rewrite !andb_false_r. reflexivity.
  - intros ->. reflexivity.
Qed.

(** The payload [abc] on the solar topic: no number is read, the solar
    field becomes NaN and is flagged. *)
Lemma incoming_message_writes_one_field_witness :
  let st' := handleIncomingMessage sample_strtod sample_deserializeJson (Some sample_config)
               1234 "home/solar" garbage_payload (store_unchanged (of_ratio 2 1) (of_ratio 1 1)) in
  garbage_payload <> []
  /\ mqtt_topic_solar sample_config <> ""%string
  /\ "home/solar"%string = mqtt_topic_solar sample_config
  /\ isnan (solar_value st') = true
  /\ solar_updated st' = true
  /\ grid_value st' = of_ratio 1 1.
Proof.
  intros st'.
  assert (H1 : garbage_payload <> []) by discriminate.
  assert (H2 : mqtt_topic_solar sample_config <> ""%string) by discriminate.
  assert (H3 : "home/solar"%string = mqtt_topic_solar sample_config) by reflexivity.
  split; [exact H1 |]. split; [exact H2 |]. split; [exact H3 |].
  destruct (proj1 (incoming_message_writes_one_field sample_strtod sample_deserializeJson
                     sample_config 1234 "home/solar" garbage_payload
                     (store_unchanged (of_ratio 2 1) (of_ratio 1 1))) H1 H2 H3)
    as (_ & Hnan & Hupd & _ & Hgrid & _).
  split; [apply Hnan; vm_compute; reflexivity |].
  split; [exact Hupd | exact Hgrid].
Defined.

Lemma pick_category_color_nan cfg kw use_abs :
  isnan kw = true -> pick_category_color cfg kw use_abs = lv_color_white.
Proof. intros H. unfold pick_category_color. rewrite H. destruct cfg; reflexivity. Qed.

Lemma home_kw_of_nan_solar solar_kw grid_kw :
  isnan solar_kw = true -> isnan (home_kw_of solar_kw grid_kw) = true.
Proof. intros H. unfold home_kw_of. rewrite H. reflexivity. Qed.

(** X14.  From the message to the display: when the payload received on
    the solar topic cannot be parsed, the next call of [update] on an
    existing screen refreshes at once (whatever the time), shows solar
    and the derived home value in the neutral white, and leaves both
    alarm flags off, whatever they were and whatever the grid value is. *)
Theorem unparsable_solar_message_shows_absent
  strtod deserializeJson c now now' payload s_state s :
  payload <> [] ->
  mqtt_topic_solar c <> ""%string ->
  snd (parse_value_using_path strtod deserializeJson payload
         (Some (mqtt_solar_value_path c))) = false ->
  screen s = true ->
  let st' := handleIncomingMessage strtod deserializeJson (Some c) now
               (mqtt_topic_solar c) payload s_state in
  let s' := fst (update (Some c) now' st' s) in
  refresh_due now' st' s = true
  /\ alarmSolar s' = false /\ alarmHome s' = false
  /\ intendedSolarColor s' = lv_color_white
  /\ intendedHomeColor s' = lv_color_white.
Proof.
  intros Hpay Htopic Hfail Hscr st' s'.
  destruct (incoming_solar_message strtod deserializeJson c now payload s_state Hpay Htopic)
    as (_ & Hnan & Hupd & _).
  fold st' in Hnan, Hupd. specialize (Hnan Hfail).
  assert (Hdue : refresh_due now' st' s = true)
    by (unfold refresh_due; rewrite Hscr, Hupd; reflexivity).
  split; [exact Hdue |].
  unfold s'. rewrite (update_when_due _ _ _ _ Hdue).
  pose proof (home_kw_of_nan_solar (solar_value st') (grid_value st') Hnan) as Hhome.
  pose proof (update_refresh_flag (Some c) now' (solar_value st') (grid_value st') s Solar)
    as FS.
  pose proof (update_refresh_flag (Some c) now' (solar_value st') (grid_value st') s Home)
    as FH.
  pose proof (update_refresh_intended (Some c) now' (solar_value st') (grid_value st') s Solar)
    as CS.
  pose proof (update_refresh_intended (Some c) now' (solar_value st') (grid_value st') s Home)
    as CH.
  cbn [category_flag category_intended_color category_value category_use_abs] in FS, FH, CS, CH.
  rewrite FS, FH, CS, CH.
  rewrite !is_triggered_t2_nan, !is_cleared_t2_nan, !pick_category_color_nan by assumption.
  repeat split; try reflexivity.
  - destruct (alarmSolar s); reflexivity.
  - destruct (alarmHome s); reflexivity.
Qed.

(** The payload [abc] arrives on the solar topic while the solar
    category is alarmed. *)
Lemma unparsable_solar_message_shows_absent_witness :
  let st' := handleIncomingMessage sample_strtod sample_deserializeJson (Some sample_config)
               1500 (mqtt_topic_solar sample_config) garbage_payload
               (store_unchanged (of_ratio 31 10) NAN) in
  let s' := fst (update (Some sample_config) 1510 st' alarmed_screen) in
  garbage_payload <> []
  /\ mqtt_topic_solar sample_config <> ""%string
  /\ snd (parse_value_using_path sample_strtod sample_deserializeJson garbage_payload
            (Some (mqtt_solar_value_path sample_config))) = false
  /\ screen alarmed_screen = true
  /\ alarmSolar alarmed_screen = true
  /\ alarmSolar s' = false
  /\ intendedSolarColor s' = lv_color_white.
Proof.
  intros st' s'.
  assert (H1 : garbage_payload <> []) by discriminate.
  assert (H2 : mqtt_topic_solar sample_config <> ""%string) by discriminate.
  assert (H3 : snd (parse_value_using_path sample_strtod sample_deserializeJson
                      garbage_payload (Some (mqtt_solar_value_path sample_config))) = false)
    by (vm_compute; reflexivity).
  assert (H4 : screen alarmed_screen = true) by (vm_compute; reflexivity).
  split; [exact H1 |]. split; [exact H2 |]. split; [exact H3 |]. split; [exact H4 |].
  split; [vm_compute; reflexivity |].
  destruct (unparsable_solar_message_shows_absent sample_strtod sample_deserializeJson
              sample_config 1500 1510 garbage_payload (store_unchanged (of_ratio 31 10) NAN)
              alarmed_screen H1 H2 H3 H4) as (_ & HS & _ & HC & _).
  split; [exact HS | exact HC].
Defined.

(* ================================================================== *)
(** ** The device name *)

Lemma name_well_formed_app_l b l l' :
  name_well_formed b (l ++ l') -> name_well_formed b l.
Proof.
  revert b. induction l as [| c l IH]; intros b H; [exact I |].
  cbn [app name_well_formed] in *.
  destruct H as [[Hc H] | (Hc & Hb & H)].
  - left. split; [exact Hc | exact (IH _ H)].
  - right. split; [exact Hc |]. split; [exact Hb | exact (IH _ H)].
Qed.

Lemma name_well_formed_snoc_alnum b l c :
  name_well_formed b l -> is_lower_or_digit c = true -> name_well_formed b (l ++ [c]).
Proof.
  revert b. induction l as [| d l IH]; intros b H Hc.
  - left. split; [exact Hc | exact I].
  - cbn [app name_well_formed] in *.
    destruct H as [[Hd H] | (Hd & Hb & H)].
    + left. split; [exact Hd | exact (IH _ H Hc)].
    + right. split; [exact Hd |]. split; [exact Hb | exact (IH _ H Hc)].
Qed.

Lemma name_well_formed_snoc_hyphen b l p :
  name_well_formed b (l ++ [p]) -> p <> 45 -> name_well_formed b ((l ++ [p]) ++ [45]).
Proof.
  revert b. induction l as [| d l IH]; intros b H Hp.
  - cbn [app name_well_formed] in *.
    destruct H as [[Hd _] | (Hd & _)]; [| contradiction].
    left. split; [exact Hd |]. right. split; [reflexivity |]. split; [reflexivity | exact I].
  - cbn [app name_well_formed] in *.
    destruct H as [[Hd H] | (Hd & Hb & H)].
    + left. split; [exact Hd | exact (IH _ H Hp)].
    + right. split; [exact Hd |]. split; [exact Hb | exact (IH _ H Hp)].
Qed.

Lemma name_well_formed_no_double_hyphen b l :
  ~ name_well_formed b (l ++ [45; 45]).
Proof.
  revert b. induction l as [| d l IH]; intros b H.
  - cbn [app name_well_formed] in H.
    destruct H as [[Hd _] | (_ & _ & [[Hd _] | (_ & Hb & _)])]; discriminate.
  - cbn [app name_well_formed] in H.
    destruct H as [[_ H] | (_ & _ & H)]; exact (IH _ H).
Qed.

Lemma name_well_formed_chars b l :
  name_well_formed b l -> Forall (fun c => is_lower_or_digit c = true \/ c = 45) l.
Proof.
  revert b. induction l as [| d l IH]; intros b H; [constructor |].
  cbn [name_well_formed] in H.
  destruct H as [[Hd H] | (Hd & _ & H)]; constructor; eauto.
Qed.

(** What the loop keeps true of the text written so far. *)
Lemma sanitize_loop_invariant max_len input : forall out_rev,
  name_well_formed true (rev out_rev) ->
  Z.of_nat (List.length out_rev) <= max_len - 1 ->
  name_well_formed true (rev (sanitize_loop max_len input out_rev))
  /\ Z.of_nat (List.length (sanitize_loop max_len input out_rev)) <= max_len - 1.
Proof.
  induction input as [| c rest IH]; intros out_rev Hwf Hlen; [split; assumption |].
  cbn [sanitize_loop].
  destruct (c =? 0); [split; assumption |].
  destruct (Z.ltb_spec (Z.of_nat (List.length out_rev)) (max_len - 1));
    [| split; assumption].
  cbn [orb negb].
  set (c' := if (65 <=? c) && (c <=? 90) then c + (97 - 65) else c).
  destruct (is_lower_or_digit c') eqn:Hal.
  - apply IH.
    + cbn [rev]. apply name_well_formed_snoc_alnum; assumption.
    + cbn [List.length]. lia.
  - destruct ((c' =? 32) || (c' =? 95) || (c' =? 45)); [| apply IH; assumption].
    destruct out_rev as [| prev out_rev]; [apply IH; assumption |].
    destruct (Z.eqb_spec prev 45) as [Hp | Hp]; cbn [negb]; [apply IH; assumption |].
    apply IH.
    + cbn [rev] in *. apply name_well_formed_snoc_hyphen; assumption.
    + cbn [List.length] in *. lia.
Qed.

(** A well-formed text that fits is copied by the loop as it is. *)
Lemma sanitize_loop_fixed max_len : forall input out_rev b,
  name_well_formed b input ->
  (b = false -> exists p r, out_rev = p :: r /\ p <> 45) ->
  Z.of_nat (List.length out_rev) + Z.of_nat (List.length input) <= max_len - 1 ->
  sanitize_loop max_len input out_rev = rev input ++ out_rev.
Proof.
  induction input as [| c rest IH]; intros out_rev b Hwf Hprev Hlen; [reflexivity |].
  cbn [sanitize_loop rev List.length] in *.
  rewrite <- app_assoc. cbn [app].
  destruct (Z.ltb_spec (Z.of_nat (List.length out_rev)) (max_len - 1)); [| lia].
  destruct Hwf as [[Hc Hwf] | (Hc & Hb & Hwf)].
  - assert (Hrange : (97 <= c <= 122) \/ (48 <= c <= 57))
      by (unfold is_lower_or_digit in Hc; lia).
    assert (H0 : (c =? 0) = false) by lia. rewrite H0. cbn [orb negb].
    assert (Hup : (65 <=? c) && (c <=? 90) = false) by lia. rewrite Hup, Hc.
    apply (IH (c :: out_rev) false Hwf).
    + intros _. exists c, out_rev. split; [reflexivity | lia].
    + cbn [List.length]. lia.
  - subst c. cbn [Z.eqb Z.leb andb orb negb is_lower_or_digit Z.compare Pos.compare
                  Pos.compare_cont].
    destruct (Hprev Hb) as (p & r & -> & Hp).
    destruct (Z.eqb_spec p 45); [contradiction |]. cbn [negb].
    apply (IH (45 :: p :: r) true Hwf).
    + intros Hf. discriminate.
    + cbn [List.length] in *. lia.
Qed.

(** What [config_manager_sanitize_device_name] leaves in [output]. *)
Lemma sanitize_device_name_spec input max_len name :
  0 < max_len ->
  config_manager_sanitize_device_name input max_len = Some name ->
  name_well_formed true name
  /\ (name <> [] -> last name 0 <> 45)
  /\ Z.of_nat (List.length name) <= max_len - 1.
Proof.
  intros Hmax. unfold config_manager_sanitize_device_name.
  destruct (Z.eqb_spec max_len 0); [lia |].
  destruct (sanitize_loop_invariant max_len input [] I) as [Hwf Hlen];
    [cbn [List.length]; lia |].
  destruct (sanitize_loop max_len input []) as [| prev out_rev].
  - intros [= <-]. split; [exact I |]. split; [intros H; contradiction | cbn; lia].
  - destruct (Z.eqb_spec prev 45) as [-> | Hp]; intros [= <-].
    + cbn [rev] in Hwf. cbn [List.length] in Hlen.
      split; [exact (name_well_formed_app_l _ _ _ Hwf) |].
      split; [| rewrite length_rev; lia].
      intros Hne. destruct out_rev as [| q out_rev]; [contradiction |].
      cbn [rev] in *. rewrite last_last. intros ->.
      rewrite <- app_assoc in Hwf. exact (name_well_formed_no_double_hyphen _ _ Hwf).
    + change (rev out_rev ++ [prev]) with (rev (prev :: out_rev)).
      split; [exact Hwf |]. split; [| rewrite length_rev; exact Hlen].
      intros _. cbn [rev]. rewrite last_last. exact Hp.
Qed.

(** X15.  The sanitised device name is made of lower-case letters,
    digits and hyphens only; it neither starts nor ends with a hyphen
    and never has two hyphens in a row; with its terminator it fits the
    [max_len] bytes of the output buffer. *)
Theorem sanitized_device_name_well_formed input max_len name :
  0 < max_len ->
  config_manager_sanitize_device_name input max_len = Some name ->
  name_well_formed true name
  /\ Forall (fun c => is_lower_or_digit c = true \/ c = 45) name
  /\ (forall c rest, name = c :: rest -> c <> 45)
  /\ (name <> [] -> last name 0 <> 45)
  /\ Z.of_nat (List.length name) + 1 <= max_len.
Proof.
  intros Hmax Hname.
  destruct (sanitize_device_name_spec input max_len name Hmax Hname) as (Hwf & Hlast & Hlen).
  split; [exact Hwf |].
  split; [exact (name_well_formed_chars _ _ Hwf) |].
  split; [| split; [exact Hlast | lia]].
  intros c rest -> ->. cbn [name_well_formed] in Hwf.
  destruct Hwf as [[Hc _] | (_ & Hb & _)]; discriminate.
Qed.

(** The text [My_ Device-] in a buffer of 32 bytes gives [my-device]. *)
Lemma sanitized_device_name_well_formed_witness :
  0 < 32
  /\ config_manager_sanitize_device_name [77; 121; 95; 32; 68; 101; 118; 105; 99; 101; 45] 32
     = Some [109; 121; 45; 100; 101; 118; 105; 99; 101]
  /\ name_well_formed true [109; 121; 45; 100; 101; 118; 105; 99; 101].
Proof.
  assert (H1 : 0 < 32) by lia.
  assert (H2 : config_manager_sanitize_device_name
                 [77; 121; 95; 32; 68; 101; 118; 105; 99; 101; 45] 32
               = Some [109; 121; 45; 100; 101; 118; 105; 99; 101]) by (vm_compute; reflexivity).
  split; [exact H1 |]. split; [exact H2 |].
  exact (proj1 (sanitized_device_name_well_formed _ 32 _ H1 H2)).
Defined.

(** X16.  Sanitising is idempotent: a name that came out of
    [config_manager_sanitize_device_name] is returned unchanged when it
    is sanitised again for a buffer of the same size. *)
Theorem sanitize_device_name_idempotent input max_len name :
  0 < max_len ->
  config_manager_sanitize_device_name input max_len = Some name ->
  config_manager_sanitize_device_name name max_len = Some name.
Proof.
  intros Hmax Hname.
  destruct (sanitize_device_name_spec input max_len name Hmax Hname) as (Hwf & Hlast & Hlen).
  unfold config_manager_sanitize_device_name.
  destruct (Z.eqb_spec max_len 0); [lia |].
  rewrite (sanitize_loop_fixed max_len name [] true Hwf)
    by (try (intros Hf; discriminate); cbn [List.length]; lia).
  rewrite app_nil_r.
  destruct name as [| c rest] using rev_ind; [reflexivity |].
  rewrite rev_app_distr. cbn [rev app].
  assert (Hc : c <> 45).
  { intros ->. apply Hlast; [destruct rest; discriminate |]. apply last_last. }
  destruct (Z.eqb_spec c 45); [contradiction |].
  rewrite rev_involutive. reflexivity.
Qed.

(** [My_ Device-] sanitised, then sanitised again. *)
Lemma sanitize_device_name_idempotent_witness :
  0 < 32
  /\ config_manager_sanitize_device_name [77; 121; 95; 32; 68; 101; 118; 105; 99; 101; 45] 32
     = Some [109; 121; 45; 100; 101; 118; 105; 99; 101]
  /\ config_manager_sanitize_device_name [109; 121; 45; 100; 101; 118; 105; 99; 101] 32
     = Some [109; 121; 45; 100; 101; 118; 105; 99; 101].
Proof.
  assert (H1 : 0 < 32) by lia.
  assert (H2 : config_manager_sanitize_device_name
                 [77; 121; 95; 32; 68; 101; 118; 105; 99; 101; 45] 32
               = Some [109; 121; 45; 100; 101; 118; 105; 99; 101]) by (vm_compute; reflexivity).
  split; [exact H1 |]. split; [exact H2 |].
  exact (sanitize_device_name_idempotent _ 32 _ H1 H2).
Defined.

(* ================================================================== *)
(** ** Saving and loading a category *)

Lemma land_24bit z : 0 <= z < 2 ^ 24 -> Z.land z 0xFFFFFF = z.
Proof.
  intros H. change 0xFFFFFF with (Z.ones 24).
  rewrite Z.land_ones by lia. apply Z.mod_small. exact H.
Qed.

Lemma land_24bit_range z : 0 <= Z.land z 0xFFFFFF < 2 ^ 24.
Proof.
  change 0xFFFFFF with (Z.ones 24). rewrite Z.land_ones by lia.
  apply Z.mod_pos_bound. lia.
Qed.

Lemma normalize_energy_thresholds_id cfg :
  0 <= threshold_mkw0 cfg -> thresholds_monotone cfg ->
  normalize_energy_thresholds cfg = cfg.
Proof.
  intros H0 [H01 H12].
  pose proof (clamp_negative_thresholds_id cfg) as Hid.
  rewrite (proj2 (normalize_energy_thresholds_cases cfg)); rewrite Hid by lia;
    [reflexivity | split; assumption].
Qed.

Lemma normalize_energy_thresholds_colors cfg :
  colors_24bit cfg -> colors_24bit (normalize_energy_thresholds cfg).
Proof.
  intros H. unfold normalize_energy_thresholds.
  destruct (_ || _); [| exact H].
  unfold colors_24bit. cbn. lia.
Qed.

Lemma save_load_fixed cfg cfg0 :
  colors_24bit cfg -> 0 <= threshold_mkw0 cfg -> thresholds_monotone cfg ->
  load_category (save_category cfg) cfg0 = cfg.
Proof.
  intros (Hg & Ho & Ha & Hw) H0 Hmono.
  unfold load_category, save_category.
  cbn [nvs_color_good nvs_color_ok nvs_color_attention nvs_color_warning
       nvs_t0 nvs_t1 nvs_t2 get_or].
  rewrite !(land_24bit (Z.land _ _)) by apply land_24bit_range.
  rewrite !land_24bit by assumption.
  rewrite normalize_energy_thresholds_id; [destruct cfg; reflexivity | exact H0 | exact Hmono].
Qed.

Lemma load_category_colors nvs cfg0 : colors_24bit (load_category nvs cfg0).
Proof.
  unfold load_category. apply normalize_energy_thresholds_colors.
  unfold colors_24bit.
  cbn [color_good_rgb color_ok_rgb color_attention_rgb color_warning_rgb].
  repeat split; apply land_24bit_range.
Qed.

(** X17.  Saving and loading a category.  A category whose colours are
    24-bit values and whose thresholds are in order from 0 upwards is
    loaded back exactly as it was saved, whatever the configuration held
    before.  Every loaded category is of that kind, so that saving what
    was loaded and loading it again changes nothing. *)
Theorem saved_category_loads_back nvs cfg cfg0 cfg1 :
  (colors_24bit cfg -> 0 <= threshold_mkw0 cfg -> thresholds_monotone cfg ->
   load_category (save_category cfg) cfg0 = cfg)
  /\ colors_24bit (load_category nvs cfg0)
  /\ 0 <= threshold_mkw0 (load_category nvs cfg0)
  /\ load_category (save_category (load_category nvs cfg0)) cfg1 = load_category nvs cfg0.
Proof.
  split; [apply save_load_fixed |].
  pose proof (load_category_colors nvs cfg0) as Hc.
  pose proof (normalize_energy_thresholds_monotone
                {| color_good_rgb := Z.land (get_or (nvs_color_good nvs)
                                               (color_good_rgb (set_energy_defaults cfg0))) 0xFFFFFF;
                   color_ok_rgb := Z.land (get_or (nvs_color_ok nvs)
                                             (color_ok_rgb (set_energy_defaults cfg0))) 0xFFFFFF;
                   color_attention_rgb := Z.land (get_or (nvs_color_attention nvs)
                                                    (color_attention_rgb (set_energy_defaults cfg0)))
                                            0xFFFFFF;
                   color_warning_rgb := Z.land (get_or (nvs_color_warning nvs)
                                                  (color_warning_rgb (set_energy_defaults cfg0)))
                                          0xFFFFFF;
                   threshold_mkw0 := get_or (nvs_t0 nvs) (threshold_mkw0 (set_energy_defaults cfg0));
                   threshold_mkw1 := get_or (nvs_t1 nvs) (threshold_mkw1 (set_energy_defaults cfg0));
                   threshold_mkw2 := get_or (nvs_t2 nvs) (threshold_mkw2 (set_energy_defaults cfg0))
                |}) as [Hm H0].
  fold (load_category nvs cfg0) in Hm, H0.
  split; [exact Hc |]. split; [exact H0 |].
  apply save_load_fixed; assumption.
Qed.

(** The sample solar category, saved and loaded over the defaults. *)
Lemma saved_category_loads_back_witness :
  colors_24bit (energy_solar_colors sample_config)
  /\ 0 <= threshold_mkw0 (energy_solar_colors sample_config)
  /\ thresholds_monotone (energy_solar_colors sample_config)
  /\ load_category (save_category (energy_solar_colors sample_config)) default_category
     = energy_solar_colors sample_config.
Proof.
  assert (H1 : colors_24bit (energy_solar_colors sample_config))
    by (unfold colors_24bit; vm_compute; intuition discriminate).
  assert (H2 : 0 <= threshold_mkw0 (energy_solar_colors sample_config))
    by (vm_compute; discriminate).
  assert (H3 : thresholds_monotone (energy_solar_colors sample_config))
    by (unfold thresholds_monotone; vm_compute; intuition discriminate).
  split; [exact H1 |]. split; [exact H2 |]. split; [exact H3 |].
  exact (proj1 (saved_category_loads_back (save_category default_category)
                  (energy_solar_colors sample_config) default_category default_category)
           H1 H2 H3).
Defined.

(* ================================================================== *)
(** ** Numeric fields of the configuration form *)



(* ================================================================== *)
(** ** The warning screen *)

(** X19.  The warning icon is always placed fully on the display: on a
    display at least as large as the 100-pixel icon, whatever the two
    random numbers are, the icon's left and top edges are not negative
    and its right and bottom edges do not pass the display's. *)
Theorem warning_icon_stays_on_display hor_res ver_res r1 r2 :
  100 <= hor_res <= Int.INT32_MAX -> 100 <= ver_res <= Int.INT32_MAX ->
  0 <= r1 < 2 ^ 32 -> 0 <= r2 < 2 ^ 32 ->
  let '(x, y) := moveIcon hor_res ver_res r1 r2 in
  0 <= x /\ x + 100 <= hor_res /\ 0 <= y /\ y + 100 <= ver_res.
Proof.
  unfold Int.INT32_MAX. intros Hh Hv Hr1 Hr2. unfold moveIcon.
  assert (Hpos : forall res r, 100 <= res <= 2 ^ 31 - 1 -> 0 <= r < 2 ^ 32 ->
            let m := if res >? 100 then res - 100 else 0 in
            let x := if m >? 0 then Int.int32 (r mod Int.uint32 (m + 1)) else 0 in
            0 <= x /\ x + 100 <= res).
  { intros res r Hres Hr m x. subst x m.
    destruct (Z.gtb_spec res 100); [| cbn; lia].
    destruct (Z.gtb_spec (res - 100) 0); [| lia].
    unfold Int.uint32. rewrite to_unsigned_small by lia.
    pose proof (Z.mod_pos_bound r (res - 100 + 1) ltac:(lia)) as Hm.
    rewrite int32_small by (unfold Int.is_int32, Int.INT32_MIN, Int.INT32_MAX; lia).
    lia. }
  pose proof (Hpos hor_res r1 Hh Hr1) as Hx.
  pose proof (Hpos ver_res r2 Hv Hr2) as Hy.
  cbv zeta in Hx, Hy. cbv zeta. lia.
Qed.

(** A display of 320 by 240 pixels. *)
Lemma warning_icon_stays_on_display_witness :
  100 <= 320 <= Int.INT32_MAX /\ 100 <= 240 <= Int.INT32_MAX
  /\ 0 <= 4000000000 < 2 ^ 32 /\ 0 <= 123456789 < 2 ^ 32
  /\ 0 <= fst (moveIcon 320 240 4000000000 123456789)
  /\ fst (moveIcon 320 240 4000000000 123456789) + 100 <= 320.
Proof.
  assert (H1 : 100 <= 320 <= Int.INT32_MAX) by (unfold Int.INT32_MAX; lia).
  assert (H2 : 100 <= 240 <= Int.INT32_MAX) by (unfold Int.INT32_MAX; lia).
  assert (H3 : 0 <= 4000000000 < 2 ^ 32) by lia.
  assert (H4 : 0 <= 123456789 < 2 ^ 32) by lia.
  split; [exact H1 |]. split; [exact H2 |]. split; [exact H3 |]. split; [exact H4 |].
  pose proof (warning_icon_stays_on_display 320 240 4000000000 123456789 H1 H2 H3 H4) as H.
  destruct (moveIcon 320 240 4000000000 123456789) as [x y].
  cbn [fst]. split; [exact (proj1 H) | exact (proj1 (proj2 H))].
Defined.

Lemma pulseTick_step config w :
  icon w = true ->
  let tick_ms := match pulseTimer w with Some t => period t | None => 40 end in
  let step := pulse_step_active tick_ms (pulse_cycle_ms config) in
  let next := pulsePhase w + pulseDir w * step in
  let phase' := if next >=? 255 then 255 else if next <=? 0 then 0 else next in
  let dir' := if next >=? 255 then -1 else if next <=? 0 then 1 else pulseDir w in
  pulseTick config w
  = ({| icon := true; pulseTimer := pulseTimer w; pulsePhase := phase'; pulseDir := dir' |},
     Some (alarm_mix config phase')).
Proof.
  intros Hicon tick_ms step next phase' dir'.
  unfold pulseTick. rewrite Hicon. cbn [negb].
  fold tick_ms. fold step. fold next. subst phase' dir'.
  destruct (Z.geb_spec next 255); [reflexivity |].
  destruct (Z.leb_spec next 0); [reflexivity |].
  rewrite uint8_small by lia. reflexivity.
Qed.

(** X20.  The pulse of the warning icon: from a phase in 0..255 and a
    direction of 1 or -1, a tick gives again such a phase and direction
    and never leaves both unchanged (the phase moves, or the direction
    turns at 255 and at 0); the opacity given to the icon lies between
    0 and the new phase. *)
Theorem warning_pulse_bounces config w :
  icon w = true -> 0 <= pulsePhase w <= 255 -> pulseDir w = 1 \/ pulseDir w = -1 ->
  0 <= match config with Some c => energy_alarm_pulse_peak_pct c | None => 100 end ->
  let w' := fst (pulseTick config w) in
  0 <= pulsePhase w' <= 255
  /\ (pulseDir w' = 1 \/ pulseDir w' = -1)
  /\ (pulsePhase w' <> pulsePhase w \/ pulseDir w' <> pulseDir w)
  /\ (pulsePhase w' = 255 -> pulseDir w = 1 -> pulseDir w' = -1)
  /\ (pulsePhase w' = 0 -> pulseDir w = -1 -> pulseDir w' = 1)
  /\ exists opa, snd (pulseTick config w) = Some opa /\ 0 <= opa <= pulsePhase w'.
Proof.
  intros Hicon Hph Hdir Hpct w'. subst w'.
  rewrite (pulseTick_step config w Hicon). cbn [fst snd pulsePhase pulseDir].
  pose proof (pulse_step_active_pos
                (match pulseTimer w with Some t => period t | None => 40 end)
                (pulse_cycle_ms config)) as Hstep.
  set (step := pulse_step_active _ _) in *.
  set (next := pulsePhase w + pulseDir w * step).
  assert (Hnext : (pulseDir w = 1 -> pulsePhase w < next)
                  /\ (pulseDir w = -1 -> next < pulsePhase w))
    by (subst next; split; intros ->; lia).
  set (phase' := if next >=? 255 then 255 else if next <=? 0 then 0 else next).
  assert (Hph' : 0 <= phase' <= 255)
    by (subst phase'; destruct (Z.geb_spec next 255); [lia |];
        destruct (Z.leb_spec next 0); lia).
  split; [exact Hph' |].
  split; [destruct (Z.geb_spec next 255); [right; reflexivity |];
          destruct (Z.leb_spec next 0); [left; reflexivity | exact Hdir] |].
  split; [subst phase'; destruct (Z.geb_spec next 255);
          [| destruct (Z.leb_spec next 0)]; destruct Hdir as [Hd | Hd]; rewrite Hd; lia |].
  split; [subst phase'; destruct (Z.geb_spec next 255); [reflexivity |];
          destruct (Z.leb_spec next 0); lia |].
  split; [subst phase'; destruct (Z.geb_spec next 255); [lia |];
          destruct (Z.leb_spec next 0); [reflexivity | lia] |].
  exists (alarm_mix config phase'). split; [reflexivity |].
  rewrite (alarm_mix_value config phase' Hph' Hpct).
  split; [apply Z.div_pos; nia | apply Z.div_le_upper_bound; nia].
Qed.

(** The sample configuration, the icon at phase 250 going up. *)
Lemma warning_pulse_bounces_witness :
  let w := {| icon := true; pulseTimer := None; pulsePhase := 250; pulseDir := 1 |} in
  icon w = true /\ 0 <= pulsePhase w <= 255 /\ (pulseDir w = 1 \/ pulseDir w = -1)
  /\ 0 <= energy_alarm_pulse_peak_pct sample_config
  /\ 0 <= pulsePhase (fst (pulseTick (Some sample_config) w)) <= 255.
Proof.
  intros w.
  assert (H1 : icon w = true) by reflexivity.
  assert (H2 : 0 <= pulsePhase w <= 255) by (cbn; lia).
  assert (H3 : pulseDir w = 1 \/ pulseDir w = -1) by (left; reflexivity).
  assert (H4 : 0 <= energy_alarm_pulse_peak_pct sample_config) by (vm_compute; discriminate).
  split; [exact H1 |]. split; [exact H2 |]. split; [exact H3 |]. split; [exact H4 |].
  exact (proj1 (warning_pulse_bounces (Some sample_config) w H1 H2 H3 H4)).
Defined.

(** X21.  The warning icon pulses as the alarm of the energy screen
    does while it is active: from the same phase and direction and with
    the same timer, one tick of either gives the same phase and the
    same direction, and the icon's opacity is the intensity with which
    the energy screen draws its alarm at that phase. *)
Theorem warning_pulse_follows_alarm config w s :
  icon w = true -> screen s = true -> background s = true -> alarmState s = Active ->
  pulseTimer w = alarmTimer s -> pulsePhase w = alarmPhase s -> pulseDir w = alarmDir s ->
  let w' := fst (pulseTick config w) in
  let s' := alarmTick config s in
  pulsePhase w' = alarmPhase s' /\ pulseDir w' = alarmDir s'
  /\ snd (pulseTick config w) = Some (alarm_mix config (alarmPhase s')).
Proof.
  intros Hicon Hscr Hbg Hst Htm Hph Hdir w' s'. subst w' s'.
  rewrite (pulseTick_step config w Hicon), (alarmTick_active config s Hscr Hbg Hst).
  rewrite Htm, Hph, Hdir. cbn [fst snd pulsePhase pulseDir].
  destruct (_ >=? 255); [split; [| split]; reflexivity |].
  destruct (_ <=? 0); split; try split; reflexivity.
Qed.

(** The alarmed sample screen and an icon at the same phase. *)
Lemma warning_pulse_follows_alarm_witness :
  let w := {| icon := true; pulseTimer := alarmTimer alarmed_screen;
              pulsePhase := alarmPhase alarmed_screen;
              pulseDir := alarmDir alarmed_screen |} in
  icon w = true /\ screen alarmed_screen = true /\ background alarmed_screen = true
  /\ alarmState alarmed_screen = Active
  /\ pulsePhase (fst (pulseTick (Some sample_config) w))
     = alarmPhase (alarmTick (Some sample_config) alarmed_screen).
Proof.
  intros w.
  assert (H1 : icon w = true) by reflexivity.
  assert (H2 : screen alarmed_screen = true) by (vm_compute; reflexivity).
  assert (H3 : background alarmed_screen = true) by (vm_compute; reflexivity).
  assert (H4 : alarmState alarmed_screen = Active) by (vm_compute; reflexivity).
  split; [exact H1 |]. split; [exact H2 |]. split; [exact H3 |]. split; [exact H4 |].
  exact (proj1 (warning_pulse_follows_alarm (Some sample_config) w alarmed_screen
                  H1 H2 H3 H4 eq_refl eq_refl eq_refl)).
Defined.

(* ================================================================== *)
(** ** The alarm drawn at the bottom of the pulse *)

Lemma alarm_mix_zero config : alarm_mix config 0 = 0.
Proof.
  unfold alarm_mix. rewrite Z.mul_0_l. reflexivity.
Qed.

(** X22.  At phase 0 the alarm is drawn exactly as the normal screen:
    black background and every value in the colour the classifier gave
    it, flagged or not.  This needs of LVGL only that blending with
    weight 0 returns the second colour. *)
Theorem alarm_styles_at_phase_zero
  (lv_color_to32 : lv_color_t -> Z) (lv_color_mix : lv_color_t -> lv_color_t -> Z -> lv_color_t)
  config s :
  (forall c1 c2, lv_color_mix c1 c2 0 = c2) ->
  alarmPhase s = 0 ->
  applyAlarmStyles lv_color_to32 lv_color_mix config s = applyNormalStyles s.
Proof.
  intros Hmix Hph. unfold applyAlarmStyles, applyNormalStyles.
  destruct (negb (screen s) || negb (background s)); [reflexivity |].
  rewrite Hph, alarm_mix_zero, Hmix.
  rewrite !(contrast_remap_below_start lv_color_to32 lv_color_mix) by lia.
  destruct (alarmSolar s), (alarmHome s), (alarmGrid s); reflexivity.
Qed.

(** The alarmed sample screen, which is at phase 0, with the sample
    blend. *)
Lemma alarm_styles_at_phase_zero_witness :
  (forall c1 c2, sample_lv_color_mix c1 c2 0 = c2)
  /\ alarmPhase alarmed_screen = 0
  /\ applyAlarmStyles sample_lv_color_to32 sample_lv_color_mix (Some sample_config)
       alarmed_screen
     = applyNormalStyles alarmed_screen.
Proof.
  assert (H1 : forall c1 c2, sample_lv_color_mix c1 c2 0 = c2).
  { intros c1 [r g b]. unfold sample_lv_color_mix.
    cbn [ch_red ch_green ch_blue].
    rewrite !Z.mul_0_r, !Z.add_0_l. change (255 - 0) with 255.
    rewrite !Z.div_mul by lia. reflexivity. }
  assert (H2 : alarmPhase alarmed_screen = 0) by (vm_compute; reflexivity).
  split; [exact H1 |]. split; [exact H2 |].
  exact (alarm_styles_at_phase_zero sample_lv_color_to32 sample_lv_color_mix
           (Some sample_config) alarmed_screen H1 H2).
Defined.
